(** * A variational autoencoder on MNIST

    Shallow embedding of
    [DeepLearningEnginesCode/Python/Ch08_VariationalAutoencoder/main.py].

    The tensors of the program are matrices of scalars, one row per example of
    the batch.  The algebra of the program (layers, sampler, loss, training
    and evaluation loops) is embedded over the real numbers: a tensor of shape
    [N, D] is a list of [N] rows of [D] reals.  The decoder and the KL term
    are embedded a second time over IEEE binary32, the element type of the
    tensors ([Module Binary32]), where rounding is visible.

    What the program takes from its libraries and does not define itself
    (random number generator and its tensor draws, data loader sampler,
    automatic differentiation, the Adam optimizer) is the class
    [Substrate].  Plots and image files, which the program writes and
    never reads, are left out; what it prints is kept. *)

From Stdlib Require Import List Arith ZArith Lia Reals Lra Bool Permutation.
From Stdlib Require Import SpecFloat.
Import ListNotations.
Open Scope R_scope.

(** ** Tensors *)

(** A 2-D tensor: a list of rows. *)
Definition tensor := list (list R).

Fixpoint map2 {A B C : Type} (f : A -> B -> C) (l : list A) (l' : list B)
  : list C :=
  match l, l' with
  | a :: t, b :: t' => f a b :: map2 f t t'
  | _, _ => []
  end.

(** Elementwise operations.  The program applies the binary ones to
    tensors of equal shapes. *)
Definition tmap (f : R -> R) (t : tensor) : tensor := map (map f) t.
Definition tmap2 (f : R -> R -> R) (a b : tensor) : tensor :=
  map2 (map2 f) a b.

Definition sum_list (l : list R) : R := fold_right Rplus 0 l.

(** [torch.sum(t)]: the sum of all the elements. *)
Definition tsum (t : tensor) : R := sum_list (concat t).

(** [torch.zeros(n, d)] *)
Definition zeros (n d : nat) : tensor := repeat (repeat 0 d) n.

(** [t] has shape [[n, d]]. *)
Definition shape (n d : nat) (t : tensor) : Prop :=
  length t = n /\ Forall (fun row => length row = d) t.

(** Cut a list into consecutive pieces of [n] elements; the last piece holds
    what is left.  The first argument bounds the number of pieces. *)
Fixpoint chunks_fuel {A : Type} (fuel n : nat) (l : list A) : list (list A) :=
  match fuel with
  | O => []
  | S fuel' =>
      match l with
      | [] => []
      | _ :: _ => firstn n l :: chunks_fuel fuel' n (skipn n l)
      end
  end.

Definition chunks {A : Type} (n : nat) (l : list A) : list (list A) :=
  chunks_fuel (length l) n l.

(** ** Errors *)

Inductive exn : Type :=
| RuntimeError       (* a shape that does not fit, an input out of range *)
| ZeroDivisionError
| ValueError.        (* a target of another size than the input *)

Inductive result (A : Type) : Type :=
| Ok (a : A)
| Raise (e : exn).
Arguments Ok {A} a.
Arguments Raise {A} e.

(** [x.view(-1, 784)]: the elements of [x], row after row, regrouped in rows
    of 784; an error when their number is not a multiple of 784. *)
Definition view784 (x : tensor) : result tensor :=
  if Nat.eqb (length (concat x) mod 784) 0
  then Ok (chunks 784 (concat x))
  else Raise RuntimeError.

(** ** Layers *)

(** [nn.Linear(in_features, out_features)]: [weight] has one row of
    [in_features] coefficients per output unit. *)
Record Linear : Type := {
  weight : list (list R);
  bias : list R
}.

Definition dot (w x : list R) : R := sum_list (map2 Rmult w x).

(** [fc(x)]: every row [r] of [x], of [in_features] values, becomes the row
    of the [dot w r + b]. *)
Definition linear (fc : Linear) (x : tensor) : tensor :=
  map (fun r => map2 (fun w b => dot w r + b) (weight fc) (bias fc)) x.

(** [F.relu] *)
Definition relu (t : tensor) : tensor := tmap (Rmax 0) t.

(** [torch.sigmoid], elementwise the logistic function. *)
Definition sigmoid1 (x : R) : R := 1 / (1 + exp (- x)).
Definition sigmoid (t : tensor) : tensor := tmap sigmoid1 t.

(** ** The model *)

Definition ZDIMS : nat := 20.
Definition BATCH_SIZE : nat := 128.
Definition numepochs : nat := 2.

Record VAE : Type := {
  fc1 : Linear;
  fc21 : Linear;
  fc22 : Linear;
  fc3 : Linear;
  fc4 : Linear;
  training : bool
}.

(** The shapes that [VAE.__init__] gives the layers. *)
Definition Linear_shape (n_in n_out : nat) (fc : Linear) : Prop :=
  shape n_out n_in (weight fc) /\ length (bias fc) = n_out.

Definition VAE_shape (self : VAE) : Prop :=
  Linear_shape 784 400 (fc1 self) /\
  Linear_shape 400 ZDIMS (fc21 self) /\
  Linear_shape 400 ZDIMS (fc22 self) /\
  Linear_shape ZDIMS 400 (fc3 self) /\
  Linear_shape 400 784 (fc4 self).

(** [model.train()] and [model.eval()] *)
Definition set_training (b : bool) (self : VAE) : VAE :=
  {| fc1 := fc1 self; fc21 := fc21 self; fc22 := fc22 self;
     fc3 := fc3 self; fc4 := fc4 self; training := b |}.

(** The parameter tensors of the model. *)
Definition parameters (self : VAE) : list Linear :=
  [fc1 self; fc21 self; fc22 self; fc3 self; fc4 self].

Definition encode (self : VAE) (x : tensor) : tensor * tensor :=
  let h1 := relu (linear (fc1 self) x) in
  (linear (fc21 self) h1, linear (fc22 self) h1).

Definition decode (self : VAE) (z : tensor) : tensor :=
  let h3 := relu (linear (fc3 self) z) in
  sigmoid (linear (fc4 self) h3).

(** ** What the program takes from its libraries *)

Class Substrate : Type := {
  (** the state of torch's global random number generator *)
  Rng : Type;
  (** [torch.manual_seed] *)
  manual_seed : Z -> Rng;
  (** [torch.randn(n, d)]: a tensor of [n] rows of [d] values drawn from
      the standard normal distribution, and the generator as the draw
      leaves it *)
  randn : nat -> nat -> Rng -> tensor * Rng;
  randn_shape : forall n d g, shape n d (fst (randn n d g));
  (** the order in which a shuffling [DataLoader] visits [n] examples *)
  randperm : Rng -> nat -> list nat * Rng;
  randperm_perm : forall g n, Permutation (seq 0 n) (fst (randperm g n));
  (** the [.grad] fields of the parameters *)
  Grads : Type;
  zero_grads : Grads;
  (** [loss.backward()]: the gradient of the loss of one forward pass, which
      is given by the model, the input batch and the generator state the pass
      started from, added to the gradients held so far *)
  autograd : VAE -> tensor -> Rng -> Grads -> Grads;
  (** the initial values that [VAE()] draws for the parameters *)
  init_parameters : Rng -> VAE * Rng;
  init_parameters_shape : forall g, VAE_shape (fst (init_parameters g));
  init_parameters_training : forall g,
    training (fst (init_parameters g)) = true;
  (** [optim.Adam] and its [step]: new parameters from the gradients *)
  OptState : Type;
  adam_init : OptState;
  adam_step : OptState -> Grads -> VAE -> VAE * OptState;
  adam_step_training : forall o g m,
    training (fst (adam_step o g m)) = training m;
  adam_step_shape : forall o g m,
    VAE_shape m -> VAE_shape (fst (adam_step o g m))
}.

Section Program.
Context `{Substrate}.

(** ** Latent sampler *)

(** [torch.randn_like(t)]: a draw of the shape of [t]. *)
Definition randn_like (t : tensor) (g : Rng) : tensor * Rng :=
  randn (length t) (length (hd [] t)) g.

Definition reparameterize (self : VAE) (mu logvar : tensor) (g : Rng)
  : tensor * Rng :=
  if training self then
    let std := tmap (fun lv => exp (0.5 * lv)) logvar in
    let (eps, g') := randn_like std g in
    (tmap2 Rplus (tmap2 Rmult eps std) mu, g')
  else
    (mu, g).

(** [VAE.forward] *)
Definition forward (self : VAE) (x : tensor) (g : Rng)
  : result (tensor * tensor * tensor) * Rng :=
  match view784 x with
  | Raise e => (Raise e, g)
  | Ok x' =>
      let (mu, logvar) := encode self x' in
      let (z, g') := reparameterize self mu logvar g in
      (Ok (decode self z, mu, logvar), g')
  end.

(** ** Loss *)

(** The logarithm that [F.binary_cross_entropy] takes: the natural
    logarithm, bounded below by -100 (at 0, where the logarithm is minus
    infinity, -100). *)
Definition bce_log (p : R) : R :=
  if Rlt_dec 0 p then Rmax (ln p) (-100) else -100.

(** [input.size() == target.size()] *)
Definition same_size (a b : tensor) : bool :=
  if list_eq_dec Nat.eq_dec (map (@length R) a) (map (@length R) b)
  then true else false.

(** Every element lies between 0 and 1. *)
Definition in_unit_interval (t : tensor) : bool :=
  forallb (forallb (fun v =>
             if Rle_dec 0 v then if Rle_dec v 1 then true else false
             else false)) t.

(** The sum that [F.binary_cross_entropy] returns with [reduction='sum']. *)
Definition bce_sum (input target : tensor) : R :=
  tsum (tmap2 (fun xh x => - (x * bce_log xh + (1 - x) * bce_log (1 - xh)))
              input target).

(** [F.binary_cross_entropy(input, target, reduction='sum')]: an error on a
    target of another size than the input, and on an input with an element
    outside of the interval from 0 to 1. *)
Definition binary_cross_entropy (input target : tensor) : result R :=
  if negb (same_size input target) then Raise ValueError
  else if negb (in_unit_interval input) then Raise RuntimeError
  else Ok (bce_sum input target).

(** The expression of [KLD] in [loss_function]. *)
Definition KLD (mu logvar : tensor) : R :=
  0.5 * tsum (tmap2 Rminus
                (tmap2 Rminus (tmap (fun lv => 1 + lv) logvar)
                              (tmap (fun m => m ^ 2) mu))
                (tmap exp logvar)).

Definition loss_function (recon_x x mu logvar : tensor) : result R :=
  match view784 x with
  | Raise e => Raise e
  | Ok x' =>
      match binary_cross_entropy recon_x x' with
      | Raise e => Raise e
      | Ok bce =>
          let BCE := - bce in
          let KLD := KLD mu logvar in
          let ELBO := BCE + KLD in
          let loss := - ELBO in
          Ok loss
      end
  end.

(** ** The state of the program *)

(** The command line and the two data sets.  An example is an image, its
    28 x 28 intensities in one row of 784; the labels are not used. *)
Record Globals : Type := {
  args_batch_size : nat;
  args_epochs : nat;
  args_log_interval : Z;
  args_seed : Z;
  train_dataset : list (list R);
  test_dataset : list (list R)
}.

(** What is printed. *)
Inductive line : Type :=
| TrainLog (epoch seen total : nat) (percent loss : R)
| TrainSummary (epoch : nat) (train_loss : R)
| TestSummary (test_loss : R).

(** What autograd records of a forward pass: the model, the input and the
    generator state at its start. *)
Definition Graph : Type := (VAE * tensor * Rng)%type.

(** Besides the model, the gradients, the optimizer, the generator, the
    switch of gradient tracking, the history and what has been printed: the
    graphs that autograd has recorded, one for every forward pass made with
    gradient tracking on. *)
Record World : Type := {
  model : VAE;
  grads : Grads;
  optimizer : OptState;
  rng : Rng;
  grad_enabled : bool;
  train_losses : list R;
  stdout : list line;
  tape : list Graph
}.

Definition M (A : Type) : Type := World -> result A * World.

Definition ret {A : Type} (a : A) : M A := fun w => (Ok a, w).

Definition bind {A B : Type} (m : M A) (k : A -> M B) : M B :=
  fun w =>
    match m w with
    | (Ok a, w') => k a w'
    | (Raise e, w') => (Raise e, w')
    end.

Definition raise {A : Type} (e : exn) : M A := fun w => (Raise e, w).

Definition lift {A : Type} (r : result A) : M A := fun w => (r, w).

End Program.

Notation "x <- m ;; k" := (bind m (fun x => k))
  (at level 61, m at next level, right associativity).
Notation "' pat <- m ;; k" := (bind m (fun x => match x with pat => k end))
  (at level 61, pat pattern, m at next level, right associativity).
Notation "m ;; k" := (bind m (fun _ => k))
  (at level 61, right associativity).

Section Loops.
Context `{Substrate}.

(** [for i, a in enumerate(l)], with the local variable that the body
    assigns. *)
Fixpoint for_enumerate {A St : Type} (body : nat -> A -> St -> M St)
    (i : nat) (l : list A) (s : St) : M St :=
  match l with
  | [] => ret s
  | a :: l' => s' <- body i a s ;; for_enumerate body (S i) l' s'
  end.

(** [a / n] for a float [a] and an integer [n] *)
Definition py_div (a : R) (n : nat) : result R :=
  match n with
  | O => Raise ZeroDivisionError
  | S _ => Ok (a / INR n)
  end.

(** Assignments to the parts of the state. *)
Definition set_model (m : VAE) (w : World) : World :=
  {| model := m; grads := grads w; optimizer := optimizer w; rng := rng w;
     grad_enabled := grad_enabled w; train_losses := train_losses w;
     stdout := stdout w; tape := tape w |}.
Definition set_grads (g : Grads) (w : World) : World :=
  {| model := model w; grads := g; optimizer := optimizer w; rng := rng w;
     grad_enabled := grad_enabled w; train_losses := train_losses w;
     stdout := stdout w; tape := tape w |}.
Definition set_optimizer (o : OptState) (w : World) : World :=
  {| model := model w; grads := grads w; optimizer := o; rng := rng w;
     grad_enabled := grad_enabled w; train_losses := train_losses w;
     stdout := stdout w; tape := tape w |}.
Definition set_rng (g : Rng) (w : World) : World :=
  {| model := model w; grads := grads w; optimizer := optimizer w; rng := g;
     grad_enabled := grad_enabled w; train_losses := train_losses w;
     stdout := stdout w; tape := tape w |}.
Definition set_grad_enabled (b : bool) (w : World) : World :=
  {| model := model w; grads := grads w; optimizer := optimizer w;
     rng := rng w; grad_enabled := b; train_losses := train_losses w;
     stdout := stdout w; tape := tape w |}.
Definition set_train_losses (l : list R) (w : World) : World :=
  {| model := model w; grads := grads w; optimizer := optimizer w;
     rng := rng w; grad_enabled := grad_enabled w; train_losses := l;
     stdout := stdout w; tape := tape w |}.
Definition set_stdout (l : list line) (w : World) : World :=
  {| model := model w; grads := grads w; optimizer := optimizer w;
     rng := rng w; grad_enabled := grad_enabled w;
     train_losses := train_losses w; stdout := l; tape := tape w |}.
Definition set_tape (t : list Graph) (w : World) : World :=
  {| model := model w; grads := grads w; optimizer := optimizer w;
     rng := rng w; grad_enabled := grad_enabled w;
     train_losses := train_losses w; stdout := stdout w; tape := t |}.

(** [model.train()], [model.eval()] *)
Definition model_train : M unit := fun w =>
  (Ok tt, set_model (set_training true (model w)) w).

Definition model_eval : M unit := fun w =>
  (Ok tt, set_model (set_training false (model w)) w).

(** [with torch.no_grad():] gradient tracking is switched off for the body
    and put back as it was afterwards, also when the body raises. *)
Definition no_grad {A : Type} (m : M A) : M A := fun w =>
  let (r, w') := m (set_grad_enabled false w) in
  (r, set_grad_enabled (grad_enabled w) w').

(** [model(data)]: the forward pass of the model of the world, on its
    generator.  When gradient tracking is on, autograd records the graph of
    the pass, which the result carries. *)
Definition model_call (data : tensor)
  : M (tensor * tensor * tensor * option Graph) := fun w =>
  let (r, g') := forward (model w) data (rng w) in
  match r with
  | Ok out =>
      (Ok (out, if grad_enabled w then Some (model w, data, rng w) else None),
       set_rng g'
         (if grad_enabled w
          then set_tape (tape w ++ [(model w, data, rng w)]) w
          else w))
  | Raise e => (Raise e, set_rng g' w)
  end.

(** [optimizer.zero_grad()] *)
Definition optimizer_zero_grad : M unit := fun w =>
  (Ok tt, set_grads zero_grads w).

(** [loss.backward()]: an error on a loss that carries no graph. *)
Definition loss_backward (graph : option Graph) : M unit := fun w =>
  match graph with
  | None => (Raise RuntimeError, w)
  | Some (m, data, g) => (Ok tt, set_grads (autograd m data g (grads w)) w)
  end.

(** [optimizer.step()] *)
Definition optimizer_step : M unit := fun w =>
  let (m', o') := adam_step (optimizer w) (grads w) (model w) in
  (Ok tt, set_optimizer o' (set_model m' w)).

(** [train_losses.append(v)] *)
Definition train_losses_append (v : R) : M unit := fun w =>
  (Ok tt, set_train_losses (train_losses w ++ [v]) w).

Definition print (l : line) : M unit := fun w =>
  (Ok tt, set_stdout (stdout w ++ [l]) w).

(** ** Data loaders *)

(** The batches of one pass over a shuffling [DataLoader]: the examples in
    the order drawn for this pass, [batch_size] at a time. *)
Definition batches_of (batch_size : nat) (dataset : list (list R))
    (perm : list nat) : list tensor :=
  chunks batch_size (map (fun i => nth i dataset []) perm).

Definition loader_iter (batch_size : nat) (dataset : list (list R))
  : M (list tensor) := fun w =>
  let (perm, g') := randperm (rng w) (length dataset) in
  (Ok (batches_of batch_size dataset perm), set_rng g' w).

(** [len(loader)]: the number of batches *)
Definition len_loader (batch_size : nat) (dataset : list (list R)) : nat :=
  length (chunks batch_size dataset).

End Loops.

Section Training.
Context `{Substrate}.
Variable G : Globals.

(** ** Training loop *)

(** The body of the loop of [train], for the batch [data] of index
    [batch_idx]; the local variable [train_loss] is given its new value. *)
Definition train_batch (epoch batch_idx : nat) (data : tensor) (_ : R)
  : M R :=
  optimizer_zero_grad ;;
  '(recon_batch, mu, logvar, graph) <- model_call data ;;
  loss <- lift (loss_function recon_batch data mu logvar) ;;
  loss_backward graph ;;
  train_loss <- lift (py_div loss (length data)) ;;
  optimizer_step ;;
  train_losses_append train_loss ;;
  (if Z.eqb (args_log_interval G) 0 then raise ZeroDivisionError
   else if Z.eqb (Z.of_nat batch_idx mod args_log_interval G) 0 then
     percent <- lift (py_div (100 * INR batch_idx)
                        (len_loader (args_batch_size G) (train_dataset G))) ;;
     shown <- lift (py_div loss (length data)) ;;
     print (TrainLog epoch (batch_idx * length data)
              (length (train_dataset G)) percent shown)
   else ret tt) ;;
  ret train_loss.

Definition train (epoch : nat) : M unit :=
  model_train ;;
  batches <- loader_iter (args_batch_size G) (train_dataset G) ;;
  train_loss <- for_enumerate (train_batch epoch) 0 batches 0 ;;
  print (TrainSummary epoch train_loss).

(** ** Evaluation *)

(** The body of the loop of [test]: [test_loss += ...], and for the first
    batch the picture of inputs and reconstructions, for which the
    reconstructions are viewed as [args.batch_size] images. *)
Definition test_batch (i : nat) (data : tensor) (test_loss : R) : M R :=
  '(recon_batch, mu, logvar, _) <- model_call data ;;
  loss <- lift (loss_function recon_batch data mu logvar) ;;
  let test_loss := test_loss + loss in
  (if Nat.eqb i 0 then
     if Nat.eqb (length (concat recon_batch)) (args_batch_size G * 784)
     then ret tt
     else raise RuntimeError
   else ret tt) ;;
  ret test_loss.

Definition test (epoch : nat) : M unit :=
  model_eval ;;
  test_loss <- no_grad
    (batches <- loader_iter (args_batch_size G) (test_dataset G) ;;
     for_enumerate test_batch 0 batches 0) ;;
  test_loss <- lift (py_div test_loss (length (test_dataset G))) ;;
  print (TestSummary test_loss).

(** ** Generation *)

(** [sample = model.decode(torch.randn(64, 20))] *)
Definition generate : M tensor :=
  no_grad (fun w =>
    let (sample, g') := randn 64 20 (rng w) in
    (Ok (decode (model w) sample), set_rng g' w)).

(** The loop of [__main__]. *)
Fixpoint main_loop (epoch n : nat) : M unit :=
  match n with
  | O => ret tt
  | S n' =>
      test epoch ;;
      train epoch ;;
      generate ;;
      main_loop (S epoch) n'
  end.

Definition main : M unit := main_loop 1 (args_epochs G).

(** [torch.manual_seed(args.seed)], [model = VAE()] and
    [optimizer = optim.Adam(model.parameters(), lr=1e-3)], as a step of a
    session that has a history already: the generator is seeded, and a
    model and an optimizer are built anew. *)
Definition seed_and_build : M unit := fun w =>
  let g := manual_seed (args_seed G) in
  let (m, g') := init_parameters g in
  (Ok tt,
   {| model := m; grads := zero_grads; optimizer := adam_init; rng := g';
      grad_enabled := grad_enabled w; train_losses := train_losses w;
      stdout := stdout w; tape := tape w |}).

(** The state in which the loop of [__main__] starts. *)
Definition initial_world : World :=
  let g := manual_seed (args_seed G) in
  let (m, g') := init_parameters g in
  {| model := m; grads := zero_grads; optimizer := adam_init; rng := g';
     grad_enabled := true; train_losses := []; stdout := []; tape := [] |}.

End Training.

(** ** The decoder in binary32 *)

(** The tensors of the program hold IEEE binary32 numbers.  This module is
    the decoder once more, on the binary32 numbers of [SpecFloat] (24 bits of
    precision, [emax = 128]), every operation rounding to nearest even. *)
Module Binary32.
Local Open Scope Z_scope.

Definition f32 : Type := spec_float.
Definition prec : Z := 24.
Definition emax : Z := 128.

Definition add : f32 -> f32 -> f32 := SFadd prec emax.
Definition mul : f32 -> f32 -> f32 := SFmul prec emax.
Definition div : f32 -> f32 -> f32 := SFdiv prec emax.
Definition sub : f32 -> f32 -> f32 := SFsub prec emax.
Definition opp : f32 -> f32 := SFopp.
Definition ltb : f32 -> f32 -> bool := SFltb.
Definition leb : f32 -> f32 -> bool := SFleb.

Definition of_Z (n : Z) : f32 := binary_normalize prec emax n 0 false.
Definition zero : f32 := S754_zero false.
Definition one : f32 := of_Z 1.
Definition half : f32 := div one (of_Z 2).

(** Neither an infinity nor a NaN. *)
Definition is_finite (x : f32) : bool :=
  match x with
  | S754_zero _ | S754_finite _ _ _ => true
  | S754_infinity _ | S754_nan => false
  end.

(** A reference [exp]: the exponential is evaluated in fixed point with
    [frac_bits] binary places ([exp (x / 2^10)] by its series, squared ten
    times) and rounded to binary32.  The kernels of a math library are
    accurate to the last place or so. *)
Definition frac_bits : Z := 200.

Fixpoint taylor (fuel : nat) (k t term acc : Z) : Z :=
  match fuel with
  | O => acc
  | S fuel' =>
      let term' := Z.shiftr (term * t) frac_bits / k in
      taylor fuel' (k + 1) t term' (acc + term')
  end.

Fixpoint square_n (n : nat) (v : Z) : Z :=
  match n with
  | O => v
  | S n' => square_n n' (Z.shiftr (v * v) frac_bits)
  end.

Definition exp32 (x : f32) : f32 :=
  match x with
  | S754_nan => S754_nan
  | S754_infinity true => zero
  | S754_infinity false => x
  | S754_zero _ => one
  | S754_finite s m e =>
      let unit := Z.shiftl 1 frac_bits in
      let magnitude := Z.shiftl (Zpos m) (e + frac_bits) in
      if Z.leb (256 * unit) magnitude
      then if s then zero else S754_infinity false
      else
        let t := Z.shiftr (cond_Zopp s magnitude) 10 in
        let small := taylor 40 1 t unit unit in
        binary_normalize prec emax (square_n 10 small) (- frac_bits) false
  end.

Section Kernels.
(** The [exp] of the library. *)
Variable expk : f32 -> f32.

Definition sigmoid1 (x : f32) : f32 := div one (add one (expk (opp x))).

Definition relu1 (x : f32) : f32 := if ltb x zero then zero else x.

Record Linear : Type := {
  weight : list (list f32);
  bias : list f32
}.

Definition dot (w x : list f32) : f32 := fold_left add (map2 mul w x) zero.

Definition linear (fc : Linear) (x : list (list f32)) : list (list f32) :=
  map (fun r => map2 (fun w b => add (dot w r) b) (weight fc) (bias fc)) x.

(** [VAE.decode] on the layers [fc3] and [fc4] *)
Definition decode (fc3 fc4 : Linear) (z : list (list f32))
  : list (list f32) :=
  let h3 := map (map relu1) (linear fc3 z) in
  map (map sigmoid1) (linear fc4 h3).

(** The expression of [KLD] in [loss_function] *)
Definition KLD (mu logvar : list (list f32)) : f32 :=
  mul half
    (fold_left add
       (concat (map2 (map2 (fun lv m =>
                              sub (sub (add one lv) (mul m m)) (expk lv)))
                     logvar mu))
       zero).

End Kernels.

(** [torch.zeros(n, d)] *)
Definition zeros (n d : nat) : list (list f32) := repeat (repeat zero d) n.

(** Parameters of the shapes of the model: [fc3] is all zero, [fc4] has zero
    weights and the bias [b] on every output unit. *)
Definition fc3_zero : Linear :=
  {| weight := repeat (repeat zero 20) 400; bias := repeat zero 400 |}.
Definition fc4_bias (b : f32) : Linear :=
  {| weight := repeat (repeat zero 400) 784; bias := repeat b 784 |}.

(** Parameters as [VAE()] may draw them: every weight of [fc3] is 1/8 and
    every weight of [fc4] is 1/32, within the bounds [1 / sqrt 20] and
    [1 / sqrt 400] of the initial values; the biases are 0. *)
Definition fc3_eighths : Linear :=
  {| weight := repeat (repeat (div one (of_Z 8)) 20) 400;
     bias := repeat zero 400 |}.
Definition fc4_thirty_seconds : Linear :=
  {| weight := repeat (repeat (div one (of_Z 32)) 400) 784;
     bias := repeat zero 784 |}.

(** One latent vector, every component [2^20]. *)
Definition z_large : list (list f32) := [repeat (of_Z 1048576) 20].

(** The [k]-th binary32 number from 0 upwards. *)
Definition tiny (k : nat) : f32 :=
  match k with
  | O => zero
  | S _ => S754_finite false (Pos.of_nat k) (-149)
  end.

(** One mean, [2^-13], and one log-variance, 0. *)
Definition mean_small : list (list f32) := [[div one (of_Z 8192)]].
Definition logvar_zero : list (list f32) := [[zero]].

(** One latent vector, all zero. *)
Definition z_zero : list (list f32) := zeros 1 20.

End Binary32.
(** ** The objective in the words of the specification *)

(** [Sigma n f] is the sum [f 0 + ... + f (n - 1)]. *)
Fixpoint Sigma (n : nat) (f : nat -> R) : R :=
  match n with
  | O => 0
  | S k => Sigma k f + f k
  end.

(** The element of row [n] and column [d]. *)
Definition at2 (t : tensor) (n d : nat) : R := nth d (nth n t []) 0.

(** The Bernoulli log-likelihood of [N] inputs of [D] intensities under the
    reconstructions, summed over all [D * N] pairs, for the logarithm
    [log]. *)
Definition log_likelihood_with (log : R -> R) (N D : nat) (recon x : tensor)
  : R :=
  Sigma N (fun n => Sigma D (fun d =>
    at2 x n d * log (at2 recon n d)
    + (1 - at2 x n d) * log (1 - at2 recon n d))).

(** With the natural logarithm, as the specification has it. *)
Definition log_likelihood : nat -> nat -> tensor -> tensor -> R :=
  log_likelihood_with ln.

(** With the logarithm that [F.binary_cross_entropy] takes. *)
Definition bounded_log_likelihood : nat -> nat -> tensor -> tensor -> R :=
  log_likelihood_with bce_log.

(** The KL term, summed over the latent dimensions and the batch. *)
Definition KL_term (N Zd : nat) (mu logvar : tensor) : R :=
  0.5 * Sigma N (fun n => Sigma Zd (fun k =>
    1 + at2 logvar n k - (at2 mu n k) ^ 2 - exp (at2 logvar n k))).

Definition ELBO (N D Zd : nat) (recon x mu logvar : tensor) : R :=
  log_likelihood N D recon x + KL_term N Zd mu logvar.

(** The objective with the bounded logarithm. *)
Definition bounded_ELBO (N D Zd : nat) (recon x mu logvar : tensor) : R :=
  bounded_log_likelihood N D recon x + KL_term N Zd mu logvar.

(** ** The loss of a batch *)

(** A batch as a loader yields it: some images of 784 intensities. *)
Definition batch_ok (data : tensor) : Prop :=
  (0 < length data)%nat /\ Forall (fun r => length r = 784%nat) data.


Section BatchLoss.
Context `{Substrate}.

(** The loss of the batch [data]: [loss_function] on the forward pass of the
    model [m] that starts from the generator state [g]. *)
Definition batch_loss (m : VAE) (data : tensor) (g : Rng) : result R :=
  match forward m data g with
  | (Ok (recon_batch, mu, logvar), _) =>
      loss_function recon_batch data mu logvar
  | (Raise e, _) => Raise e
  end.

(** The loss of the batch [data] in an evaluation pass, where the latent code
    that is decoded is the mean. *)
Definition eval_loss (m : VAE) (data : tensor) : result R :=
  let (mu, logvar) := encode m data in
  loss_function (decode m mu) data mu logvar.

Definition value {A : Type} (d : A) (r : result A) : A :=
  match r with
  | Ok a => a
  | Raise _ => d
  end.

End BatchLoss.

Section History.
Context `{Substrate}.
Variable G : Globals.

(** The line that the body of the loop of [train] prints, if any. *)
Definition train_log (epoch batch_idx : nat) (data : tensor) (loss : R)
  : list line :=
  if Z.eqb (Z.of_nat batch_idx mod args_log_interval G) 0 then
    [TrainLog epoch (batch_idx * length data) (length (train_dataset G))
       (100 * INR batch_idx
        / INR (len_loader (args_batch_size G) (train_dataset G)))
       (loss / INR (length data))]
  else [].

(** The worlds in which the batches of an epoch are met, one after the other:
    [w] for the first batch, for the next one the world in which the body of
    the loop has left it. *)
Fixpoint worlds_of_epoch (epoch i : nat) (batches : list tensor) (w : World)
  : list World :=
  match batches with
  | [] => []
  | data :: rest =>
      w :: worlds_of_epoch epoch (S i) rest
             (snd (train_batch G epoch i data 0 w))
  end.

(** What an epoch is to record: for each batch, its loss divided by its
    size. *)
Definition entry (data : tensor) (wi : World) : R :=
  value 0 (batch_loss (model wi) data (rng wi)) / INR (length data).

Definition entries_from (epoch i : nat) (batches : list tensor) (w : World)
  : list R :=
  map2 entry batches (worlds_of_epoch epoch i batches w).

Definition entries_of_epoch (epoch : nat) (batches : list tensor) (w : World)
  : list R :=
  entries_from epoch 0 batches w.

(** The batches of the epoch that [train] starts in the world [w]. *)
Definition train_batches (w : World) : list tensor :=
  batches_of (args_batch_size G) (train_dataset G)
    (fst (randperm (rng w) (length (train_dataset G)))).

(** The world in which [train] meets its first batch. *)
Definition train_start (w : World) : World :=
  set_rng (snd (randperm (rng w) (length (train_dataset G))))
    (set_model (set_training true (model w)) w).

(** Two worlds from which an epoch starts alike: the same model, optimizer
    state and generator state, gradient tracking on. *)
Definition same_start (wa wb : World) : Prop :=
  model wa = model wb /\ optimizer wa = optimizer wb /\ rng wa = rng wb /\
  grad_enabled wa = true /\ grad_enabled wb = true.

End History.

Section EvaluationPass.
Context `{Substrate}.
Variable G : Globals.

(** The batches of the pass that [test] makes from the world [w]. *)
Definition test_batches (w : World) : list tensor :=
  batches_of (args_batch_size G) (test_dataset G)
    (fst (randperm (rng w) (length (test_dataset G)))).

(** The world in which the loop of [test] runs. *)
Definition test_world (w : World) : World :=
  set_rng (snd (randperm (rng w) (length (test_dataset G))))
    (set_grad_enabled false (set_model (set_training false (model w)) w)).

End EvaluationPass.

Section Frame.
Context `{Substrate}.

(** [m] takes every world to a world whose part [proj] is related by [Q]
    to the part it had, whether it returns or raises. *)
Definition preserves {X A : Type} (proj : World -> X) (Q : X -> X -> Prop)
    (m : M A) : Prop :=
  forall w : World, Q (proj w) (proj (snd (m w))).

(** The parameter tensors of the model of a world. *)
Definition parameters_of (w : World) : list Linear := parameters (model w).

End Frame.

(** [optimized p p']: the parameters [p'] come from the parameters [p] by
    steps of the optimizer, and by nothing else. *)
Inductive optimized `{Substrate} (p : list Linear) : list Linear -> Prop :=
| optimized_refl : optimized p p
| optimized_step (m : VAE) (o : OptState) (g : Grads) :
    optimized p (parameters m) ->
    optimized p (parameters (fst (adam_step o g m))).

(** ** A substrate and data to run the program on *)

Lemma zeros_shape (n d : nat) : shape n d (zeros n d).
Proof.
  unfold zeros. split.
  - apply repeat_length.
  - apply Forall_forall. intros r Hr. apply repeat_spec in Hr. subst.
    apply repeat_length.
Qed.


Definition zero_layer (n_in n_out : nat) : Linear :=
  {| weight := zeros n_out n_in; bias := repeat 0 n_out |}.

(** A model of the shapes of [VAE()], all parameters 0. *)
Definition zero_model (mode : bool) : VAE :=
  {| fc1 := zero_layer 784 400;
     fc21 := zero_layer 400 ZDIMS;
     fc22 := zero_layer 400 ZDIMS;
     fc3 := zero_layer ZDIMS 400;
     fc4 := zero_layer 400 784;
     training := mode |}.

Lemma zero_layer_shape (n_in n_out : nat) :
  Linear_shape n_in n_out (zero_layer n_in n_out).
Proof. split; [apply zeros_shape | apply repeat_length]. Qed.

Lemma zero_model_shape (mode : bool) : VAE_shape (zero_model mode).
Proof. repeat split; try apply zeros_shape; apply repeat_length. Qed.

(** [torch.full((n, d), c)]: a tensor all of whose elements are [c]. *)
Definition full (n d : nat) (c : R) : tensor := repeat (repeat c d) n.

Lemma ones_shape (n d : nat) : shape n d (repeat (repeat 1 d) n).
Proof.
  split.
  - apply repeat_length.
  - apply Forall_forall. intros r Hr. apply repeat_spec in Hr. subst.
    apply repeat_length.
Qed.

(** A generator that counts its draws, every value of which is 1; loaders
    that keep the order of the data set; an optimizer that counts its steps
    and leaves the parameters as they are. *)
Definition example_substrate : Substrate :=
  {| Rng := nat;
     manual_seed := Z.to_nat;
     randn := fun n d g => (repeat (repeat 1 d) n, S g);
     randn_shape := fun n d _ => ones_shape n d;
     randperm := fun g n => (seq 0 n, S g);
     randperm_perm := fun g n => Permutation_refl (seq 0 n);
     Grads := unit;
     zero_grads := tt;
     autograd := fun _ _ _ _ => tt;
     init_parameters := fun g => (zero_model true, g);
     init_parameters_shape := fun _ => zero_model_shape true;
     init_parameters_training := fun _ => eq_refl;
     OptState := nat;
     adam_init := 0%nat;
     adam_step := fun o _ m => (m, S o);
     adam_step_training := fun _ _ _ => eq_refl;
     adam_step_shape := fun _ _ _ Hm => Hm |}.

(** Sixteen black images to train on and sixteen to test on, in batches of
    four. *)
Definition example_globals : Globals :=
  {| args_batch_size := 4;
     args_epochs := 2;
     args_log_interval := 10;
     args_seed := 1;
     train_dataset := zeros 16 784;
     test_dataset := zeros 16 784 |}.

Definition example_world : @World example_substrate :=
  @initial_world example_substrate example_globals.

Lemma example_dataset_rows :
  Forall (fun r => length r = 784%nat) (zeros 16 784).
Proof. apply (zeros_shape 16 784). Qed.

(** A model whose output units have the bias 1, all other parameters 0; a
    black and a white image to train on, one per batch. *)
Definition bias_model : VAE :=
  {| fc1 := zero_layer 784 400;
     fc21 := zero_layer 400 ZDIMS;
     fc22 := zero_layer 400 ZDIMS;
     fc3 := zero_layer ZDIMS 400;
     fc4 := {| weight := zeros 784 400; bias := repeat 1 784 |};
     training := true |}.

Definition contrast_globals : Globals :=
  {| args_batch_size := 1;
     args_epochs := 1;
     args_log_interval := 10;
     args_seed := 1;
     train_dataset := [repeat 0 784; repeat 1 784];
     test_dataset := [repeat 0 784; repeat 1 784] |}.

Definition contrast_world : @World example_substrate :=
  @Build_World example_substrate bias_model tt 0%nat 0%nat true [] [] [].

(** ** More of the program *)

Section ExampleLoss.
Context `{Substrate}.

(** The loss of one held-out image in an evaluation pass. *)
Definition example_loss (m : VAE) (x : list R) : R :=
  value 0 (eval_loss m [x]).

End ExampleLoss.

(** *** The pictures of the hidden units *)

(** At the end of every epoch the loop of [__main__] shows, in a grid of
    4 x 4 axes, rows of [model.fc1.weight] as images of 28 x 28. *)
Inductive plot_exn : Type :=
| IndexError    (* [a[count]] past the last row *)
| ViewError.    (* [b.view(28, 28)] on a row that does not hold 784 values *)

(** [a[count]] *)
Definition index_row (a : list (list R)) (count : nat)
  : plot_exn + list R :=
  match nth_error a count with
  | Some b => inr b
  | None => inl IndexError
  end.

(** [b.view(28, 28)] *)
Definition view28 (b : list R) : plot_exn + list (list R) :=
  if Nat.eqb (length b) 784 then inr (chunks 28 b) else inl ViewError.

(** [for i in range(...)] over a state that the body assigns. *)
Fixpoint for_range {St : Type} (body : nat -> St -> plot_exn + St)
    (l : list nat) (s : St) : plot_exn + St :=
  match l with
  | [] => inr s
  | i :: l' =>
      match body i s with
      | inl e => inl e
      | inr s' => for_range body l' s'
      end
  end.

(** The body of the inner loop: [count] is incremented, then row [count] is
    viewed as an image and shown on [axes[x, y]].  The state is [count] and
    what has been shown, in order. *)
Definition show_feature (a : list (list R)) (x y : nat)
    (s : nat * list (nat * nat * list (list R)))
  : plot_exn + nat * list (nat * nat * list (list R)) :=
  let count := (fst s + 1)%nat in
  match index_row a count with
  | inl e => inl e
  | inr b =>
      match view28 b with
      | inl e => inl e
      | inr c => inr (count, snd s ++ [(x, y, c)])
      end
  end.

Definition feature_plots (self : VAE)
  : plot_exn + list (nat * nat * list (list R)) :=
  let a := weight (fc1 self) in
  match for_range (fun x => for_range (fun y => show_feature a x y)
                              (seq 0 4))
          (seq 0 4) (0%nat, []) with
  | inl e => inl e
  | inr s => inr (snd s)
  end.

(** *** The picture of inputs and reconstructions *)

(** [recon_batch.view(args.batch_size, 1, 28, 28)]: the values as
    [args.batch_size] images of 784 values. *)
Definition view_images (batch_size : nat) (t : tensor) : result tensor :=
  if Nat.eqb (length (concat t)) (batch_size * 784)
  then Ok (chunks 784 (concat t))
  else Raise RuntimeError.

(** [comparison] in [test], for the first batch: with
    [n = min(data.size(0), 8)], the first [n] inputs and after them the
    first [n] reconstructions. *)
Definition comparison (batch_size : nat) (data recon_batch : tensor)
  : result tensor :=
  let n := Nat.min (length data) 8 in
  match view_images batch_size recon_batch with
  | Raise e => Raise e
  | Ok images => Ok (firstn n data ++ firstn n images)
  end.

(** *** Reading what is printed *)

(** The epochs of the summary lines of [train], in the order printed. *)
Definition summary_epochs (out : list line) : list nat :=
  flat_map (fun l => match l with
                     | TrainSummary epoch _ => [epoch]
                     | _ => []
                     end) out.

(** The values of the summary lines of [test], in the order printed. *)
Definition test_reports (out : list line) : list R :=
  flat_map (fun l => match l with
                     | TestSummary v => [v]
                     | _ => []
                     end) out.

Definition is_train_log (l : line) : Prop :=
  match l with
  | TrainLog _ _ _ _ _ => True
  | _ => False
  end.

(** [b] holds what [a] holds, and possibly more after it. *)
Definition extends {A : Type} (a b : list A) : Prop :=
  exists l : list A, b = a ++ l.

(** *** The lines of progress of an epoch *)

Section Progress.
Variable G : Globals.

(** For the batches of an epoch from the index [i] on, and the entries
    that the epoch records for them: the lines that the loop of [train]
    prints, one for every batch whose index is a multiple of the logging
    interval. *)
Fixpoint progress_lines (epoch i : nat) (batches : list tensor)
    (entries : list R) : list line :=
  match batches, entries with
  | data :: rest, v :: vs =>
      (if Z.eqb (Z.of_nat i mod args_log_interval G) 0
       then [TrainLog epoch (i * length data) (length (train_dataset G))
               (100 * INR i
                / INR (len_loader (args_batch_size G) (train_dataset G)))
               v]
       else [])
      ++ progress_lines epoch (S i) rest vs
  | _, _ => []
  end.

(** The indices of the batches that are logged, among [n] batches. *)
Definition logged_indices (n : nat) : list nat :=
  filter (fun i => Z.eqb (Z.of_nat i mod args_log_interval G) 0) (seq 0 n).

End Progress.

(** *** More data to run the program on *)

(** A held-out set of two images for batches of four. *)
Definition short_globals : Globals :=
  {| args_batch_size := 4;
     args_epochs := 2;
     args_log_interval := 10;
     args_seed := 1;
     train_dataset := zeros 16 784;
     test_dataset := zeros 2 784 |}.

(** [--log-interval 0] *)
Definition unlogged_globals : Globals :=
  {| args_batch_size := 4;
     args_epochs := 2;
     args_log_interval := 0;
     args_seed := 1;
     train_dataset := zeros 16 784;
     test_dataset := zeros 16 784 |}.

(** A tensor of 28 rows of 28 values, as one image comes from the data set,
    and one of three values. *)
Definition image_28x28 : tensor := zeros 28 28.
Definition three_values : tensor := [[0; 0; 0]].

(** * Properties *)

(** ** Lists and sums *)

Lemma map2_length {A B C : Type} (f : A -> B -> C) (l : list A) (l' : list B) :
  length l = length l' -> length (map2 f l l') = length l.
Proof.
  revert l'; induction l as [|a l IH]; intros [|b l'] E; simpl in *;
    try discriminate; auto.
Qed.

Lemma map2_nth {A B C : Type} (f : A -> B -> C) (l : list A) (l' : list B)
    (i : nat) (da : A) (db : B) (dc : C) :
  (i < length l)%nat -> (i < length l')%nat ->
  nth i (map2 f l l') dc = f (nth i l da) (nth i l' db).
Proof.
  revert l' i; induction l as [|a l IH]; intros [|b l'] [|i] Hl Hl';
    simpl in *; try lia; auto.
  apply IH; lia.
Qed.

Lemma sum_list_app (l l' : list R) :
  sum_list (l ++ l') = sum_list l + sum_list l'.
Proof. induction l as [|a l IH]; simpl; [lra | rewrite IH; lra]. Qed.

(** The sum of the specification, term after term, is the sum that the
    program makes of the list of the terms. *)
Lemma Sigma_sum_list (n : nat) (f : nat -> R) :
  Sigma n f = sum_list (map f (seq 0 n)).
Proof.
  induction n as [|n IH]; [reflexivity|].
  rewrite seq_S, map_app, sum_list_app. cbn [Sigma Nat.add map sum_list
                                             fold_right].
  rewrite IH. lra.
Qed.

Lemma sum_list_nth (l : list R) :
  sum_list l = Sigma (length l) (fun i => nth i l 0).
Proof.
  rewrite Sigma_sum_list. induction l as [|a l IH]; simpl; auto.
  rewrite IH, <- seq_shift, map_map. reflexivity.
Qed.

Lemma Sigma_ext (n : nat) (f g : nat -> R) :
  (forall i, (i < n)%nat -> f i = g i) -> Sigma n f = Sigma n g.
Proof.
  intros E. rewrite !Sigma_sum_list. f_equal. apply map_ext_in.
  intros i Hi. apply in_seq in Hi. apply E. lia.
Qed.

Lemma Sigma_zero (n : nat) : Sigma n (fun _ => 0) = 0.
Proof.
  induction n as [|n IH]; simpl; [|rewrite IH]; lra.
Qed.

Lemma Sigma_const (n : nat) (c : R) : Sigma n (fun _ => c) = INR n * c.
Proof.
  induction n as [|n IH]; [simpl; lra|].
  rewrite S_INR. cbn [Sigma]. rewrite IH. lra.
Qed.

Lemma tsum_rows (t : tensor) :
  tsum t = sum_list (map sum_list t).
Proof.
  unfold tsum. induction t as [|r t IH]; simpl; auto.
  rewrite sum_list_app, IH. reflexivity.
Qed.

Lemma shape_nth (N D : nat) (t : tensor) (n : nat) :
  shape N D t -> (n < N)%nat -> length (nth n t []) = D.
Proof.
  intros [HN HD] Hn. rewrite Forall_forall in HD. apply HD.
  apply nth_In. lia.
Qed.

(** The sum of a tensor of shape [[N, D]], by rows and columns. *)
Lemma tsum_Sigma (N D : nat) (t : tensor) :
  shape N D t -> tsum t = Sigma N (fun n => Sigma D (at2 t n)).
Proof.
  intros Hs. rewrite tsum_rows, sum_list_nth, length_map.
  destruct Hs as [HN HD]. rewrite HN.
  apply Sigma_ext. intros n Hn.
  rewrite (nth_indep _ 0 (sum_list [])) by (rewrite length_map; lia).
  rewrite map_nth, sum_list_nth.
  rewrite (shape_nth N D t n (conj HN HD) Hn). reflexivity.
Qed.

Lemma tmap_shape (N D : nat) (f : R -> R) (t : tensor) :
  shape N D t -> shape N D (tmap f t).
Proof.
  intros [HN HD]. split.
  - unfold tmap. rewrite length_map. exact HN.
  - unfold tmap. rewrite Forall_map. eapply Forall_impl; [|exact HD].
    intros r Hr. simpl. rewrite length_map. exact Hr.
Qed.

Lemma tmap_at2 (N D : nat) (f : R -> R) (t : tensor) (n d : nat) :
  shape N D t -> (n < N)%nat -> (d < D)%nat ->
  at2 (tmap f t) n d = f (at2 t n d).
Proof.
  intros Hs Hn Hd. unfold at2, tmap.
  assert (Hl : length (nth n t []) = D) by (eapply shape_nth; eauto).
  destruct Hs as [HN _].
  rewrite (nth_indep _ [] (map f [])) by (rewrite length_map; lia).
  rewrite map_nth.
  rewrite (nth_indep _ 0 (f 0)) by (rewrite length_map; lia).
  rewrite map_nth. reflexivity.
Qed.

Lemma tmap2_shape (N D : nat) (f : R -> R -> R) (a b : tensor) :
  shape N D a -> shape N D b -> shape N D (tmap2 f a b).
Proof.
  unfold shape, tmap2. revert N b.
  induction a as [|r a IH]; intros N [|s b] [HaN HaD] [HbN HbD];
    simpl in *; subst; try discriminate; auto.
  inversion HaD; inversion HbD; subst. clear HaD HbD.
  injection HbN as HbN.
  destruct (IH (length a) b) as [IH1 IH2]; auto.
  split; [simpl; congruence|].
  constructor; auto. rewrite map2_length; congruence.
Qed.

Lemma tmap2_at2 (N D : nat) (f : R -> R -> R) (a b : tensor) (n d : nat) :
  shape N D a -> shape N D b -> (n < N)%nat -> (d < D)%nat ->
  at2 (tmap2 f a b) n d = f (at2 a n d) (at2 b n d).
Proof.
  intros Ha Hb Hn Hd. unfold at2, tmap2.
  assert (Hla : length (nth n a []) = D) by (eapply shape_nth; eauto).
  assert (Hlb : length (nth n b []) = D) by (eapply shape_nth; eauto).
  destruct Ha as [HaN _], Hb as [HbN _].
  rewrite (map2_nth _ a b n [] [] []) by lia.
  apply map2_nth; lia.
Qed.

(** ** Views *)

Lemma chunks_fuel_concat (d : nat) (t : tensor) (fuel : nat) :
  (0 < d)%nat -> Forall (fun r => length r = d) t ->
  (length t <= fuel)%nat ->
  chunks_fuel fuel d (concat t) = t.
Proof.
  intros Hd. revert fuel.
  induction t as [|r t IH]; intros fuel Ht Hf.
  - destruct fuel; reflexivity.
  - inversion Ht as [|? ? Hr Ht']; subst.
    destruct fuel as [|fuel]; simpl in Hf; [lia|].
    simpl. destruct (r ++ concat t) eqn:E.
    + destruct r; [simpl in Hd; lia | discriminate].
    + rewrite <- E.
      rewrite firstn_app, Nat.sub_diag, firstn_all, firstn_O, app_nil_r.
      rewrite skipn_app, Nat.sub_diag, skipn_all. simpl.
      rewrite IH; auto. lia.
Qed.

Lemma concat_length_shape (N D : nat) (t : tensor) :
  shape N D t -> length (concat t) = (N * D)%nat.
Proof.
  intros [HN HD]. subst N. induction t as [|r t IH]; simpl; auto.
  inversion HD; subst. rewrite length_app, IH; auto.
Qed.

(** On a batch of rows of 784 the view changes nothing. *)
Lemma view784_shape (N : nat) (x : tensor) :
  shape N 784 x -> view784 x = Ok x.
Proof.
  intros Hs. unfold view784.
  rewrite (concat_length_shape N 784 x Hs), Nat.Div0.mod_mul.
  change (Nat.eqb 0 0) with true. cbv iota. f_equal.
  unfold chunks. apply chunks_fuel_concat.
  - lia.
  - apply Hs.
  - rewrite (concat_length_shape N 784 x Hs). destruct Hs as [HN _]. lia.
Qed.

(** ** The loss *)

Lemma Sigma_opp (n : nat) (f : nat -> R) :
  Sigma n (fun i => - f i) = - Sigma n f.
Proof.
  induction n as [|n IH]; simpl; [|rewrite IH]; lra.
Qed.

(** *** The checks of [F.binary_cross_entropy] *)

Lemma row_lengths (D : nat) (t : tensor) :
  Forall (fun r => length r = D) t ->
  map (@length R) t = repeat D (length t).
Proof.
  induction 1 as [|r t Hr _ IH]; [reflexivity|].
  cbn [map length repeat]. rewrite Hr, IH. reflexivity.
Qed.

Lemma same_size_shape (N D : nat) (a b : tensor) :
  shape N D a -> shape N D b -> same_size a b = true.
Proof.
  intros [Ha1 Ha2] [Hb1 Hb2]. unfold same_size.
  rewrite (row_lengths D a Ha2), (row_lengths D b Hb2), Ha1, Hb1.
  destruct (list_eq_dec Nat.eq_dec (repeat D N) (repeat D N)) as [_ | Hn];
    [reflexivity | contradiction].
Qed.

Lemma in_unit_interval_spec (t : tensor) :
  in_unit_interval t = true <-> Forall (Forall (fun v => 0 <= v <= 1)) t.
Proof.
  unfold in_unit_interval. rewrite forallb_forall, Forall_forall.
  split; intros Ht r Hr; specialize (Ht r Hr).
  - rewrite forallb_forall in Ht. apply Forall_forall. intros v Hv.
    specialize (Ht v Hv).
    destruct (Rle_dec 0 v); [|discriminate].
    destruct (Rle_dec v 1); [|discriminate]. lra.
  - rewrite Forall_forall in Ht. apply forallb_forall. intros v Hv.
    specialize (Ht v Hv).
    destruct (Rle_dec 0 v); [|lra].
    destruct (Rle_dec v 1); [reflexivity | lra].
Qed.

Lemma binary_cross_entropy_ok (N D : nat) (input target : tensor) :
  shape N D input -> shape N D target ->
  Forall (Forall (fun v => 0 <= v <= 1)) input ->
  binary_cross_entropy input target = Ok (bce_sum input target).
Proof.
  intros Hi Ht Hr. unfold binary_cross_entropy.
  rewrite (same_size_shape N D) by assumption.
  rewrite (proj2 (in_unit_interval_spec input) Hr). reflexivity.
Qed.

Lemma binary_cross_entropy_out_of_range (N D : nat) (input target : tensor) :
  shape N D input -> shape N D target ->
  ~ Forall (Forall (fun v => 0 <= v <= 1)) input ->
  binary_cross_entropy input target = Raise RuntimeError.
Proof.
  intros Hi Ht Hr. unfold binary_cross_entropy.
  rewrite (same_size_shape N D) by assumption.
  destruct (in_unit_interval input) eqn:E; [|reflexivity].
  exfalso. apply Hr. apply in_unit_interval_spec. exact E.
Qed.

(** *** The logarithm *)

Lemma bce_log_ln (p : R) : exp (-100) <= p -> bce_log p = ln p.
Proof.
  intros Hp. pose proof (exp_pos (-100)) as He. unfold bce_log.
  destruct (Rlt_dec 0 p) as [_ | Hn]; [|lra].
  apply Rmax_left.
  destruct (Rle_lt_or_eq_dec _ _ Hp) as [Hlt | <-].
  - left. rewrite <- (ln_exp (-100)). apply ln_increasing; assumption.
  - rewrite ln_exp. lra.
Qed.

Lemma exp_minus_1_half : exp (-1) < 1 / 2.
Proof.
  pose proof (exp_ineq1 1 ltac:(lra)) as H1.
  replace (exp (-1)) with (/ exp 1)
    by (rewrite <- exp_Ropp; f_equal; lra).
  pose proof (exp_pos 1) as Hp.
  apply Rmult_lt_reg_r with (exp 1); [exact Hp|].
  rewrite Rinv_l by lra. lra.
Qed.

Lemma exp_minus_100_half : exp (-100) < 1 / 2.
Proof.
  apply Rlt_trans with (exp (-1)); [|apply exp_minus_1_half].
  apply exp_increasing. lra.
Qed.

Lemma bce_log_nonpos (p : R) : 0 <= p <= 1 -> bce_log p <= 0.
Proof.
  intros [H0 H1]. unfold bce_log.
  destruct (Rlt_dec 0 p) as [Hp | _]; [|lra].
  apply Rmax_lub; [|lra].
  rewrite <- ln_1. destruct (Rle_lt_or_eq_dec p 1 H1) as [Hl | ->].
  - left. apply ln_increasing; assumption.
  - lra.
Qed.

(** *** The sums *)

Lemma bce_sum_Sigma (N D : nat) (recon x : tensor) :
  shape N D recon -> shape N D x ->
  bce_sum recon x = - bounded_log_likelihood N D recon x.
Proof.
  intros Hr Hx.
  unfold bce_sum, bounded_log_likelihood, log_likelihood_with.
  rewrite (tsum_Sigma N D) by (apply tmap2_shape; assumption).
  rewrite <- Sigma_opp. apply Sigma_ext. intros n Hn.
  rewrite <- Sigma_opp. apply Sigma_ext. intros d Hd.
  rewrite (tmap2_at2 N D) by assumption. reflexivity.
Qed.

Lemma KLD_Sigma (N Zd : nat) (mu logvar : tensor) :
  shape N Zd mu -> shape N Zd logvar ->
  KLD mu logvar = KL_term N Zd mu logvar.
Proof.
  intros Hm Hl. unfold KLD, KL_term. f_equal.
  assert (H1 : shape N Zd (tmap (fun lv => 1 + lv) logvar))
    by (apply tmap_shape; assumption).
  assert (H2 : shape N Zd (tmap (fun m => m ^ 2) mu))
    by (apply tmap_shape; assumption).
  assert (H3 : shape N Zd (tmap exp logvar))
    by (apply tmap_shape; assumption).
  assert (H4 : shape N Zd (tmap2 Rminus (tmap (fun lv => 1 + lv) logvar)
                                        (tmap (fun m => m ^ 2) mu)))
    by (apply tmap2_shape; assumption).
  rewrite (tsum_Sigma N Zd) by (apply tmap2_shape; assumption).
  apply Sigma_ext. intros n Hn. apply Sigma_ext. intros k Hk.
  rewrite (tmap2_at2 N Zd) by assumption.
  rewrite (tmap2_at2 N Zd) by assumption.
  rewrite !(tmap_at2 N Zd) by assumption.
  reflexivity.
Qed.

Lemma loss_function_shape (N Zd : nat) (recon x mu logvar : tensor) :
  shape N 784 recon -> shape N 784 x ->
  shape N Zd mu -> shape N Zd logvar ->
  Forall (Forall (fun v => 0 <= v <= 1)) recon ->
  loss_function recon x mu logvar
  = Ok (- bounded_ELBO N 784 Zd recon x mu logvar).
Proof.
  intros Hr Hx Hm Hl Hrange. unfold loss_function.
  rewrite (view784_shape N x Hx).
  rewrite (binary_cross_entropy_ok N 784) by assumption.
  rewrite (bce_sum_Sigma N 784) by assumption.
  rewrite (KLD_Sigma N Zd) by assumption.
  f_equal. unfold bounded_ELBO. lra.
Qed.

(** Where no reconstruction is closer to 0 or to 1 than [exp (-100)], the
    bound of the logarithm is not reached. *)
Lemma bounded_log_likelihood_ln (N D : nat) (recon x : tensor) :
  shape N D recon ->
  Forall (Forall (fun v => exp (-100) <= v <= 1 - exp (-100))) recon ->
  bounded_log_likelihood N D recon x = log_likelihood N D recon x.
Proof.
  intros Hs Hr. unfold bounded_log_likelihood, log_likelihood,
    log_likelihood_with.
  apply Sigma_ext. intros n Hn. apply Sigma_ext. intros d Hd.
  assert (Hv : exp (-100) <= at2 recon n d <= 1 - exp (-100)).
  { unfold at2. rewrite Forall_forall in Hr.
    assert (Hin : In (nth n recon []) recon)
      by (apply nth_In; destruct Hs as [-> _]; exact Hn).
    specialize (Hr _ Hin). rewrite Forall_forall in Hr. apply Hr.
    apply nth_In. rewrite (shape_nth N D recon n Hs Hn). exact Hd. }
  rewrite !bce_log_ln by lra. reflexivity.
Qed.

(** C1, as the program has it.  On reconstructions and inputs of shape
    [[N, 784]] and means and log-variances of shape [[N, Z]], in exact
    arithmetic: when every reconstruction lies between 0 and 1,
    [loss_function] returns the negation of the ELBO, the sum over all
    [784 * N] pairs of [x * log x_hat + (1 - x) * log (1 - x_hat)] plus the
    KL term [0.5 * sum (1 + logvar - mu^2 - exp logvar)] over latent
    dimensions and batch, nothing being divided by the batch size, where
    [log] is the natural logarithm bounded below by -100.  It is the ELBO
    of the natural logarithm when no reconstruction is closer to 0 or to 1
    than [exp (-100)].  When a reconstruction lies outside of the interval
    from 0 to 1, [loss_function] raises. *)
Theorem loss_function_is_minus_ELBO :
  forall (N Zd : nat) (recon x mu logvar : tensor),
    shape N 784 recon -> shape N 784 x ->
    shape N Zd mu -> shape N Zd logvar ->
    (Forall (Forall (fun v => 0 <= v <= 1)) recon ->
     loss_function recon x mu logvar
     = Ok (- (bounded_log_likelihood N 784 recon x
              + KL_term N Zd mu logvar)))
    /\
    (Forall (Forall (fun v => exp (-100) <= v <= 1 - exp (-100))) recon ->
     loss_function recon x mu logvar
     = Ok (- (log_likelihood N 784 recon x + KL_term N Zd mu logvar)))
    /\
    (~ Forall (Forall (fun v => 0 <= v <= 1)) recon ->
     loss_function recon x mu logvar = Raise RuntimeError).
Proof.
  intros N Zd recon x mu logvar Hr Hx Hm Hl.
  pose proof (exp_pos (-100)) as He.
  split; [|split].
  - intros Hrange. rewrite (loss_function_shape N Zd) by assumption.
    reflexivity.
  - intros Hrange.
    assert (H01 : Forall (Forall (fun v => 0 <= v <= 1)) recon).
    { eapply Forall_impl; [|exact Hrange]. intros r Hrow.
      eapply Forall_impl; [|exact Hrow]. intros v Hv. simpl in Hv. lra. }
    rewrite (loss_function_shape N Zd) by assumption.
    unfold bounded_ELBO.
    rewrite (bounded_log_likelihood_ln N 784) by assumption.
    reflexivity.
  - intros Hout. unfold loss_function.
    rewrite (view784_shape N x Hx).
    rewrite (binary_cross_entropy_out_of_range N 784) by assumption.
    reflexivity.
Qed.

(** ** The KL term at the prior *)

Lemma nth_repeat_default {A : Type} (a : A) (n i : nat) :
  nth i (repeat a n) a = a.
Proof.
  revert i. induction n as [|n IH]; intros [|i]; simpl; auto.
Qed.

Lemma at2_zeros (n d i j : nat) : at2 (zeros n d) i j = 0.
Proof.
  unfold at2, zeros.
  destruct (Nat.lt_ge_cases i n) as [Hi | Hi].
  - rewrite (nth_indep _ [] (repeat 0 d)) by (rewrite repeat_length; lia).
    rewrite nth_repeat_default. apply nth_repeat_default.
  - rewrite (nth_overflow (repeat (repeat 0 d) n) [])
      by (rewrite repeat_length; lia).
    destruct j; reflexivity.
Qed.

Lemma map2_repeat {A B C : Type} (f : A -> B -> C) (a : A) (b : B) (n : nat) :
  map2 f (repeat a n) (repeat b n) = repeat (f a b) n.
Proof. induction n as [|n IH]; simpl; [|rewrite IH]; reflexivity. Qed.

Lemma fold_left_add32_zero (l : list Binary32.f32) :
  Forall (fun v => v = Binary32.zero) l ->
  fold_left Binary32.add l Binary32.zero = Binary32.zero.
Proof.
  induction l as [|v l IH]; intros Hl; [reflexivity|].
  inversion Hl as [|? ? Hv Hl']; subst. simpl. apply IH. exact Hl'.
Qed.

Lemma KLD_zeros (N Zd : nat) : KLD (zeros N Zd) (zeros N Zd) = 0.
Proof.
  rewrite (KLD_Sigma N Zd) by apply zeros_shape.
  unfold KL_term.
  rewrite (Sigma_ext N _ (fun _ => 0)).
  - rewrite Sigma_zero. lra.
  - intros n _. rewrite (Sigma_ext Zd _ (fun _ => 0)).
    + apply Sigma_zero.
    + intros k _. rewrite !at2_zeros, exp_0. lra.
Qed.

(** In binary32 too: every term [1 + 0 - 0 * 0 - exp 0] is [+0], and so
    are their sum and its half. *)
Lemma KLD32_zero_at_prior (N Zd : nat) :
  Binary32.KLD Binary32.exp32 (Binary32.zeros N Zd) (Binary32.zeros N Zd)
  = Binary32.zero.
Proof.
  unfold Binary32.KLD, Binary32.zeros.
  rewrite map2_repeat, map2_repeat.
  rewrite fold_left_add32_zero; [reflexivity|].
  apply Forall_forall. intros v Hv. apply in_concat in Hv.
  destruct Hv as [r [Hr Hv]]. apply repeat_spec in Hr. subst r.
  apply repeat_spec in Hv. subst v. reflexivity.
Qed.

(** C4.  For every batch size [N] and latent dimension [Z], the KL term
    [0.5 * sum (1 + logvar - mean^2 - exp logvar)] of [loss_function] is
    exactly 0 when every mean and every log-variance is 0; in particular for
    [N = 5] and [Z = 3].  This is so in exact arithmetic and in binary32. *)
Theorem KLD_zero_at_prior :
  (forall N Zd : nat, KLD (zeros N Zd) (zeros N Zd) = 0)
  /\ KLD (zeros 5 3) (zeros 5 3) = 0
  /\ (forall N Zd : nat,
        Binary32.KLD Binary32.exp32 (Binary32.zeros N Zd)
          (Binary32.zeros N Zd)
        = Binary32.zero).
Proof.
  split; [exact KLD_zeros|].
  split; [apply KLD_zeros | exact KLD32_zero_at_prior].
Qed.

(** ** The range of the decoder in exact arithmetic *)

Lemma sigmoid1_open_unit (x : R) : 0 < sigmoid1 x < 1.
Proof.
  unfold sigmoid1. pose proof (exp_pos (- x)) as He.
  assert (Hd : 0 < 1 + exp (- x)) by lra.
  split.
  - apply Rdiv_lt_0_compat; lra.
  - apply Rmult_lt_reg_r with (1 + exp (- x)); [exact Hd|].
    unfold Rdiv. rewrite Rmult_assoc, Rinv_l by lra. lra.
Qed.

Lemma decode_open_unit (self : VAE) (z : tensor) :
  Forall (Forall (fun v => 0 < v < 1)) (decode self z).
Proof.
  unfold decode, sigmoid, tmap.
  apply Forall_map, Forall_forall. intros r _.
  apply Forall_map, Forall_forall. intros v _.
  apply sigmoid1_open_unit.
Qed.

(** ** The decoder in binary32 *)

(** The sigmoid of 100 is the binary32 number 1.0 whatever the [exp] of the
    library returns at -100 among the 65 smallest binary32 numbers that are
    not negative; the exponential of -100 lies between the 26th and the
    27th of them. *)
Lemma sigmoid32_100_any_kernel :
  forallb (fun k =>
    match Binary32.div Binary32.one (Binary32.add Binary32.one (Binary32.tiny k)) with
    | S754_finite false 8388608 (-23)%Z => true
    | _ => false
    end) (seq 0 65) = true.
Proof. vm_compute. reflexivity. Qed.

Lemma exp32_minus_100 :
  Binary32.exp32 (Binary32.of_Z (-100)) = Binary32.tiny 27.
Proof. vm_compute. reflexivity. Qed.

Lemma sigmoid32_100 :
  Binary32.sigmoid1 Binary32.exp32 (Binary32.of_Z 100) = Binary32.one.
Proof. vm_compute. reflexivity. Qed.

Lemma linear32_one_row (fc : Binary32.Linear) (r : list Binary32.f32) :
  Binary32.linear fc [r]
  = [map2 (fun w b => Binary32.add (Binary32.dot w r) b)
          (Binary32.weight fc) (Binary32.bias fc)].
Proof. reflexivity. Qed.

Lemma dot32_zero_400 :
  Binary32.dot (repeat Binary32.zero 400) (repeat Binary32.zero 400)
  = Binary32.zero.
Proof. vm_compute. reflexivity. Qed.

Lemma dot32_zero_20 :
  Binary32.dot (repeat Binary32.zero 20) (repeat Binary32.zero 20)
  = Binary32.zero.
Proof. vm_compute. reflexivity. Qed.

Lemma decode32_preactivation (b : Binary32.f32) :
  Binary32.linear (Binary32.fc4_bias b)
    (map (map Binary32.relu1)
       (Binary32.linear Binary32.fc3_zero Binary32.z_zero))
  = [repeat (Binary32.add Binary32.zero b) 784].
Proof.
  change Binary32.z_zero with [repeat Binary32.zero 20].
  rewrite linear32_one_row.
  unfold Binary32.fc3_zero at 1 2.
  unfold Binary32.weight at 1, Binary32.bias at 1.
  rewrite map2_repeat, dot32_zero_20.
  change (map (map Binary32.relu1)
            [repeat (Binary32.add Binary32.zero Binary32.zero) 400])
    with [map Binary32.relu1
            (repeat (Binary32.add Binary32.zero Binary32.zero) 400)].
  rewrite map_repeat.
  change (Binary32.relu1 (Binary32.add Binary32.zero Binary32.zero))
    with Binary32.zero.
  rewrite linear32_one_row.
  unfold Binary32.fc4_bias.
  unfold Binary32.weight at 1, Binary32.bias at 1.
  rewrite map2_repeat, dot32_zero_400. reflexivity.
Qed.

Lemma sigmoid32_minus_100 :
  Binary32.sigmoid1 Binary32.exp32 (Binary32.of_Z (-100)) = Binary32.zero.
Proof. vm_compute. reflexivity. Qed.

Lemma decode32_saturated_low :
  Binary32.decode Binary32.exp32 Binary32.fc3_zero
    (Binary32.fc4_bias (Binary32.of_Z (-100))) Binary32.z_zero
  = [repeat Binary32.zero 784].
Proof.
  unfold Binary32.decode.
  rewrite decode32_preactivation.
  change (Binary32.add Binary32.zero (Binary32.of_Z (-100)))
    with (Binary32.of_Z (-100)).
  change (map (map (Binary32.sigmoid1 Binary32.exp32))
            [repeat (Binary32.of_Z (-100)) 784])
    with [map (Binary32.sigmoid1 Binary32.exp32)
            (repeat (Binary32.of_Z (-100)) 784)].
  rewrite map_repeat, sigmoid32_minus_100. reflexivity.
Qed.

(** Whenever the [exp] of the library underflows to 0 the binary32 sigmoid
    is exactly 1.0, and whenever it overflows the sigmoid is exactly 0.0. *)
Lemma sigmoid32_underflow (expk : Binary32.f32 -> Binary32.f32)
    (x : Binary32.f32) :
  expk (Binary32.opp x) = Binary32.zero ->
  Binary32.sigmoid1 expk x = Binary32.one.
Proof. intros E. unfold Binary32.sigmoid1. rewrite E. reflexivity. Qed.

Lemma sigmoid32_overflow (expk : Binary32.f32 -> Binary32.f32)
    (x : Binary32.f32) :
  expk (Binary32.opp x) = S754_infinity false ->
  Binary32.sigmoid1 expk x = Binary32.zero.
Proof. intros E. unfold Binary32.sigmoid1. rewrite E. reflexivity. Qed.

(** With weights as [VAE()] may draw them, the pre-activation of every
    output unit on the latent vector of components [2^20] is 32768000, where
    [exp] underflows. *)
Lemma dot32_eighths :
  Binary32.dot (repeat (Binary32.div Binary32.one (Binary32.of_Z 8)) 20)
    (repeat (Binary32.of_Z 1048576) 20)
  = Binary32.of_Z 2621440.
Proof. vm_compute. reflexivity. Qed.

Lemma dot32_thirty_seconds :
  Binary32.dot (repeat (Binary32.div Binary32.one (Binary32.of_Z 32)) 400)
    (repeat (Binary32.of_Z 2621440) 400)
  = Binary32.of_Z 32768000.
Proof. vm_compute. reflexivity. Qed.

Lemma decode32_saturated_large :
  Binary32.decode Binary32.exp32 Binary32.fc3_eighths
    Binary32.fc4_thirty_seconds Binary32.z_large
  = [repeat Binary32.one 784].
Proof.
  unfold Binary32.decode.
  change Binary32.z_large with [repeat (Binary32.of_Z 1048576) 20].
  rewrite linear32_one_row.
  unfold Binary32.fc3_eighths at 1 2.
  unfold Binary32.weight at 1, Binary32.bias at 1.
  rewrite map2_repeat, dot32_eighths.
  change (Binary32.add (Binary32.of_Z 2621440) Binary32.zero)
    with (Binary32.of_Z 2621440).
  change (map (map Binary32.relu1) [repeat (Binary32.of_Z 2621440) 400])
    with [map Binary32.relu1 (repeat (Binary32.of_Z 2621440) 400)].
  rewrite map_repeat.
  change (Binary32.relu1 (Binary32.of_Z 2621440))
    with (Binary32.of_Z 2621440).
  rewrite linear32_one_row.
  unfold Binary32.fc4_thirty_seconds.
  unfold Binary32.weight at 1, Binary32.bias at 1.
  rewrite map2_repeat, dot32_thirty_seconds.
  change (Binary32.add (Binary32.of_Z 32768000) Binary32.zero)
    with (Binary32.of_Z 32768000).
  change (map (map (Binary32.sigmoid1 Binary32.exp32))
            [repeat (Binary32.of_Z 32768000) 784])
    with [map (Binary32.sigmoid1 Binary32.exp32)
            (repeat (Binary32.of_Z 32768000) 784)].
  rewrite map_repeat.
  rewrite (sigmoid32_underflow Binary32.exp32) by reflexivity.
  reflexivity.
Qed.

Lemma decode32_saturated :
  Binary32.decode Binary32.exp32 Binary32.fc3_zero
    (Binary32.fc4_bias (Binary32.of_Z 100)) Binary32.z_zero
  = [repeat Binary32.one 784].
Proof.
  unfold Binary32.decode.
  rewrite decode32_preactivation.
  change (Binary32.add Binary32.zero (Binary32.of_Z 100))
    with (Binary32.of_Z 100).
  change (map (map (Binary32.sigmoid1 Binary32.exp32))
            [repeat (Binary32.of_Z 100) 784])
    with [map (Binary32.sigmoid1 Binary32.exp32)
            (repeat (Binary32.of_Z 100) 784)].
  rewrite map_repeat, sigmoid32_100. reflexivity.
Qed.

(** ** Shapes *)

Lemma linear_length (fc : Linear) (x : tensor) :
  length (linear fc x) = length x.
Proof. unfold linear. apply length_map. Qed.

Lemma linear_rows (n_in n_out : nat) (fc : Linear) (x : tensor) :
  Linear_shape n_in n_out fc ->
  Forall (fun r => length r = n_out) (linear fc x).
Proof.
  intros [[Hw _] Hb]. unfold linear. apply Forall_map, Forall_forall.
  intros r _. rewrite map2_length; congruence.
Qed.

Lemma tmap_length (f : R -> R) (t : tensor) : length (tmap f t) = length t.
Proof. unfold tmap. apply length_map. Qed.

Lemma tmap_rows (d : nat) (f : R -> R) (t : tensor) :
  Forall (fun r => length r = d) t -> Forall (fun r => length r = d) (tmap f t).
Proof.
  intros Ht. unfold tmap. apply Forall_map.
  eapply Forall_impl; [|exact Ht]. intros r Hr. simpl.
  rewrite length_map. exact Hr.
Qed.

(** The decoder of a model of the shapes of [VAE()] returns one row of 784
    values per latent vector. *)
Lemma decode_shape (self : VAE) (z : tensor) :
  VAE_shape self -> shape (length z) 784 (decode self z).
Proof.
  intros [_ [_ [_ [_ H4]]]]. unfold decode, sigmoid, relu. split.
  - rewrite tmap_length, linear_length, tmap_length, linear_length.
    reflexivity.
  - apply tmap_rows. apply (linear_rows 400 784). exact H4.
Qed.

Lemma encode_length (self : VAE) (x : tensor) :
  length (fst (encode self x)) = length x.
Proof.
  unfold encode, relu. cbn [fst].
  rewrite linear_length, tmap_length, linear_length. reflexivity.
Qed.

Lemma encode_shape (self : VAE) (x : tensor) :
  VAE_shape self ->
  shape (length x) ZDIMS (fst (encode self x)) /\
  shape (length x) ZDIMS (snd (encode self x)).
Proof.
  intros [_ [H21 [H22 _]]]. unfold encode, relu. cbn [fst snd]. split; split.
  - rewrite linear_length, tmap_length, linear_length. reflexivity.
  - apply (linear_rows 400 ZDIMS). exact H21.
  - rewrite linear_length, tmap_length, linear_length. reflexivity.
  - apply (linear_rows 400 ZDIMS). exact H22.
Qed.

Lemma decode_unit_interval (self : VAE) (z : tensor) :
  Forall (Forall (fun v => 0 <= v <= 1)) (decode self z).
Proof.
  eapply Forall_impl; [|apply (decode_open_unit self z)].
  intros r Hr. eapply Forall_impl; [|exact Hr].
  intros v Hv. simpl in Hv. lra.
Qed.

Section SamplerShapes.
Context `{Substrate}.

(** [torch.randn_like] draws what [torch.randn] draws for the shape of its
    argument. *)
Lemma randn_like_shape (N D : nat) (t : tensor) (g : Rng) :
  shape N D t -> (0 < N)%nat -> randn_like t g = randn N D g.
Proof.
  intros [HN HD] Hpos. unfold randn_like. rewrite HN.
  destruct t as [|r t]; [simpl in HN; lia|].
  inversion HD as [|? ? Hr _]; subst. cbn [hd]. reflexivity.
Qed.

Lemma randn_like_out_shape (N D : nat) (t : tensor) (g : Rng) :
  shape N D t -> shape N D (fst (randn_like t g)).
Proof.
  intros Ht. destruct N as [|N].
  - unfold randn_like. destruct Ht as [-> _].
    destruct (randn_shape 0 (length (hd [] t)) g) as [Hl _].
    split; [exact Hl|].
    destruct (fst (randn 0 (length (hd [] t)) g));
      [constructor | discriminate].
  - rewrite (randn_like_shape (S N) D t g Ht) by lia. apply randn_shape.
Qed.

Lemma randn_like_empty (D : nat) (t : tensor) (g : Rng) :
  shape 0 D t -> fst (randn_like t g) = fst (randn 0 D g).
Proof.
  intros Ht.
  destruct (randn_like_out_shape 0 D t g Ht) as [H1 _].
  destruct (randn_shape 0 D g) as [H2 _].
  destruct (fst (randn_like t g)); [|discriminate].
  destruct (fst (randn 0 D g)); [reflexivity | discriminate].
Qed.

Lemma reparameterize_out_shape (self : VAE) (N Zd : nat)
    (mu logvar : tensor) (g : Rng) :
  shape N Zd mu -> shape N Zd logvar ->
  shape N Zd (fst (reparameterize self mu logvar g)).
Proof.
  intros Hm Hl. unfold reparameterize.
  destruct (training self); [|exact Hm].
  assert (Hstd : shape N Zd (tmap (fun lv => exp (0.5 * lv)) logvar))
    by (apply tmap_shape; exact Hl).
  pose proof (randn_like_out_shape N Zd _ g Hstd) as He.
  destruct (randn_like (tmap (fun lv => exp (0.5 * lv)) logvar) g)
    as [eps g'].
  cbn [fst] in *. repeat apply tmap2_shape; assumption.
Qed.

Lemma sampled_length (self : VAE) (data : tensor) (g : Rng) :
  VAE_shape self ->
  length (fst (reparameterize self (fst (encode self data))
                 (snd (encode self data)) g))
  = length data.
Proof.
  intros Hs. destruct (encode_shape self data Hs) as [Hm Hl].
  apply (reparameterize_out_shape self _ _ _ _ g Hm Hl).
Qed.

End SamplerShapes.

(** ** Chunks *)

Lemma Forall_firstn_skipn {A : Type} (P : A -> Prop) (n : nat) (l : list A) :
  Forall P l -> Forall P (firstn n l) /\ Forall P (skipn n l).
Proof.
  intros Hl. apply Forall_app. rewrite firstn_skipn. exact Hl.
Qed.

Lemma map_nth_seq_id {A : Type} (l : list A) (d : A) :
  map (fun i => nth i l d) (seq 0 (length l)) = l.
Proof.
  induction l as [|a l IH]; simpl; [reflexivity|].
  f_equal. rewrite <- seq_shift, map_map. exact IH.
Qed.

Lemma chunks_fuel_Forall {A : Type} (P : A -> Prop) (fuel n : nat)
    (l : list A) :
  Forall P l -> Forall (Forall P) (chunks_fuel fuel n l).
Proof.
  revert l. induction fuel as [|fuel IH]; intros l Hl; simpl; [constructor|].
  destruct l as [|a l']; [constructor|].
  constructor.
  - apply (Forall_firstn_skipn P n (a :: l') Hl).
  - apply IH. apply (Forall_firstn_skipn P n (a :: l') Hl).
Qed.

Lemma chunks_fuel_size {A : Type} (fuel n : nat) (l : list A) :
  (0 < n)%nat ->
  Forall (fun c => (0 < length c <= n)%nat) (chunks_fuel fuel n l).
Proof.
  intros Hn. revert l.
  induction fuel as [|fuel IH]; intros l; simpl; [constructor|].
  destruct l as [|a l']; [constructor|].
  constructor; [|apply IH].
  rewrite length_firstn. simpl length. lia.
Qed.

Lemma chunks_fuel_length {A : Type} (fuel n : nat) (l : list A) :
  (0 < n)%nat -> (length l <= fuel)%nat ->
  length (chunks_fuel fuel n l) = ((length l + n - 1) / n)%nat.
Proof.
  intros Hn. revert l.
  induction fuel as [|fuel IH]; intros l Hf.
  - destruct l; simpl in *; [|lia].
    symmetry. apply Nat.div_small. lia.
  - destruct l as [|a l'].
    + simpl. symmetry. apply Nat.div_small. lia.
    + cbn [chunks_fuel length]. rewrite IH.
      2:{ rewrite length_skipn. cbn [length] in *. lia. }
      rewrite length_skipn. cbn [length].
      destruct (Nat.le_gt_cases n (S (length l'))) as [Hle | Hgt].
      * replace (S (length l') + n - 1)%nat
          with ((S (length l') - n + n - 1) + 1 * n)%nat by lia.
        rewrite Nat.div_add by lia. lia.
      * replace (S (length l') - n)%nat with 0%nat by lia.
        rewrite (Nat.div_small (0 + n - 1) n) by lia.
        replace (S (length l') + n - 1)%nat
          with ((length l') + 1 * n)%nat by lia.
        rewrite Nat.div_add by lia.
        rewrite Nat.div_small by lia. reflexivity.
Qed.

Lemma chunks_length {A : Type} (n : nat) (l : list A) :
  (0 < n)%nat -> length (chunks n l) = ((length l + n - 1) / n)%nat.
Proof. intros Hn. apply chunks_fuel_length; auto. Qed.

Lemma chunks_fuel_concat_inv {A : Type} (fuel n : nat) (l : list A) :
  (0 < n)%nat -> (length l <= fuel)%nat ->
  concat (chunks_fuel fuel n l) = l.
Proof.
  intros Hn. revert l.
  induction fuel as [|fuel IH]; intros l Hf.
  - destruct l; simpl in *; [reflexivity | lia].
  - destruct l as [|a l']; [reflexivity|].
    cbn [chunks_fuel concat]. rewrite IH.
    + apply firstn_skipn.
    + rewrite length_skipn. cbn [length] in *. lia.
Qed.

(** The batches of a pass hold the examples of the data set, every one
    once. *)
Lemma batches_of_concat (bs : nat) (dataset : list (list R))
    (perm : list nat) :
  (0 < bs)%nat -> Permutation (seq 0 (length dataset)) perm ->
  Permutation dataset (concat (batches_of bs dataset perm)).
Proof.
  intros Hbs Hp. unfold batches_of, chunks.
  rewrite chunks_fuel_concat_inv by auto.
  transitivity (map (fun i => nth i dataset []) (seq 0 (length dataset))).
  - rewrite map_nth_seq_id. reflexivity.
  - apply Permutation_map. exact Hp.
Qed.

(** ** Running the program *)

Section Runs.
Context `{Substrate}.
Variable G : Globals.

Lemma batch_ok_view (data : tensor) :
  batch_ok data -> view784 data = Ok data.
Proof.
  intros [_ Hr]. apply (view784_shape (length data)). split; auto.
Qed.

Lemma forward_batch (m : VAE) (data : tensor) (g : Rng) :
  batch_ok data ->
  forward m data g
  = (Ok (decode m (fst (reparameterize m (fst (encode m data))
                          (snd (encode m data)) g)),
         fst (encode m data), snd (encode m data)),
     snd (reparameterize m (fst (encode m data)) (snd (encode m data)) g)).
Proof.
  intros Hd. unfold forward. rewrite (batch_ok_view data Hd).
  destruct (encode m data) as [mu logvar]. simpl.
  destruct (reparameterize m mu logvar g) as [z g']. reflexivity.
Qed.

Lemma batch_ok_shape (data : tensor) :
  batch_ok data -> shape (length data) 784 data.
Proof. intros [_ Hr]. split; auto. Qed.

(** On the reconstructions that the decoder returns for a batch, none of
    the checks of [loss_function] fails. *)
Lemma loss_function_batch (m : VAE) (z data mu logvar : tensor) :
  batch_ok data -> VAE_shape m -> length z = length data ->
  loss_function (decode m z) data mu logvar
  = Ok (- (- bce_sum (decode m z) data + KLD mu logvar)).
Proof.
  intros Hd Hs Hz. unfold loss_function. rewrite (batch_ok_view data Hd).
  rewrite (binary_cross_entropy_ok (length data) 784).
  - reflexivity.
  - rewrite <- Hz. apply decode_shape. exact Hs.
  - apply batch_ok_shape. exact Hd.
  - apply decode_unit_interval.
Qed.

Lemma batch_loss_ok (m : VAE) (data : tensor) (g : Rng) :
  batch_ok data -> VAE_shape m -> exists loss, batch_loss m data g = Ok loss.
Proof.
  intros Hd Hs. unfold batch_loss. rewrite (forward_batch m data g Hd).
  rewrite (loss_function_batch m _ data _ _ Hd Hs (sampled_length m data g Hs)).
  eauto.
Qed.

Lemma py_div_pos (a : R) (n : nat) :
  (0 < n)%nat -> py_div a n = Ok (a / INR n).
Proof. destruct n; [lia | reflexivity]. Qed.

Lemma train_batch_run (epoch i : nat) (data : tensor) (tl : R) (w : World) :
  batch_ok data ->
  VAE_shape (model w) ->
  grad_enabled w = true ->
  args_log_interval G <> 0%Z ->
  (0 < len_loader (args_batch_size G) (train_dataset G))%nat ->
  exists loss,
    batch_loss (model w) data (rng w) = Ok loss /\
    train_batch G epoch i data tl w
    = (Ok (loss / INR (length data)),
       {| model := fst (adam_step (optimizer w)
                          (autograd (model w) data (rng w) zero_grads)
                          (model w));
          grads := autograd (model w) data (rng w) zero_grads;
          optimizer := snd (adam_step (optimizer w)
                              (autograd (model w) data (rng w) zero_grads)
                              (model w));
          rng := snd (forward (model w) data (rng w));
          grad_enabled := true;
          train_losses := train_losses w ++ [loss / INR (length data)];
          stdout := stdout w ++ train_log G epoch i data loss;
          tape := tape w ++ [(model w, data, rng w)] |}).
Proof.
  intros Hd Hsh Hg Hlog Hlen.
  destruct (batch_loss_ok (model w) data (rng w) Hd Hsh) as [loss Hloss].
  exists loss. split; [exact Hloss|].
  unfold batch_loss in Hloss.
  unfold train_batch, bind, optimizer_zero_grad, model_call.
  cbn [model rng grads set_grads grad_enabled].
  destruct (forward (model w) data (rng w)) as [[[[recon mu] logvar]|e] g'] eqn:Ef;
    [|discriminate Hloss].
  rewrite Hg. unfold lift. rewrite Hloss.
  unfold loss_backward.
  destruct Hd as [Hn Hrows].
  rewrite !(py_div_pos _ _ Hn), (py_div_pos _ _ Hlen).
  unfold optimizer_step, train_losses_append, print, ret, raise, train_log.
  unfold set_grads, set_rng, set_tape.
  cbn [model rng grads optimizer grad_enabled train_losses stdout tape].
  destruct (adam_step (optimizer w)
              (autograd (model w) data (rng w) zero_grads) (model w))
    as [m' o'] eqn:Ea.
  unfold set_model, set_optimizer, set_train_losses.
  cbn [model rng grads optimizer grad_enabled train_losses stdout tape
       fst snd].
  destruct (Z.eqb_spec (args_log_interval G) 0) as [E0 | _]; [contradiction|].
  rewrite Hg.
  destruct (Z.eqb (Z.of_nat i mod args_log_interval G) 0).
  - unfold set_stdout.
    cbn [model rng grads optimizer grad_enabled train_losses stdout tape].
    reflexivity.
  - rewrite app_nil_r. reflexivity.
Qed.

Lemma last_cons_default {A : Type} (l : list A) (x d : A) :
  last (x :: l) d = last l x.
Proof.
  revert x d. induction l as [|y l IH]; intros x d; [reflexivity|].
  change (last (x :: y :: l) d) with (last (y :: l) d).
  rewrite (IH y d), (IH y x). reflexivity.
Qed.

Lemma entries_from_length (epoch i : nat) (batches : list tensor)
    (w : World) :
  length (entries_from G epoch i batches w) = length batches.
Proof.
  unfold entries_from. revert i w.
  induction batches as [|data rest IH]; intros i w; simpl; auto.
Qed.

(** The loop of [train] over batches as a loader yields them. *)
Lemma train_loop_run (epoch : nat) (batches : list tensor) :
  forall (i : nat) (tl : R) (w : World),
    Forall batch_ok batches ->
    VAE_shape (model w) ->
    grad_enabled w = true ->
    args_log_interval G <> 0%Z ->
    (batches <> [] ->
     (0 < len_loader (args_batch_size G) (train_dataset G))%nat) ->
    exists (w' : World) (logs : list line),
      for_enumerate (train_batch G epoch) i batches tl w
      = (Ok (last (entries_from G epoch i batches w) tl), w') /\
      train_losses w' = train_losses w ++ entries_from G epoch i batches w /\
      stdout w' = stdout w ++ logs /\
      grad_enabled w' = true /\
      VAE_shape (model w').
Proof.
  induction batches as [|data rest IH]; intros i tl w Hb Hsh Hg Hlog Hlen.
  - exists w, []. simpl. rewrite !app_nil_r. auto.
  - inversion Hb as [|? ? Hd Hrest]; subst.
    assert (Hlen' : (0 < len_loader (args_batch_size G) (train_dataset G))%nat)
      by (apply Hlen; discriminate).
    destruct (train_batch_run epoch i data tl w Hd Hsh Hg Hlog Hlen')
      as [loss [Hloss Hrun]].
    cbn [for_enumerate]. unfold bind at 1. rewrite Hrun.
    match goal with |- context [for_enumerate _ _ _ _ ?w1] =>
      destruct (IH (S i) (loss / INR (length data)) w1 Hrest
                  (adam_step_shape _ _ _ Hsh) eq_refl Hlog
                  (fun _ => Hlen'))
        as [w' [logs [Hfor [Hl [Hs [Hg' Hsh']]]]]] end.
    exists w', (train_log G epoch i data loss ++ logs).
    assert (Hw : snd (train_batch G epoch i data 0 w)
                 = snd (train_batch G epoch i data tl w)) by reflexivity.
    unfold entries_from in *. cbn [worlds_of_epoch map2].
    rewrite Hw, Hrun. cbn [snd].
    assert (He : entry data w = loss / INR (length data)).
    { unfold entry. rewrite Hloss. reflexivity. }
    rewrite He, Hfor, Hl, Hs. cbn [train_losses stdout].
    rewrite <- !app_assoc. cbn [app].
    split; [|split; [|split; [|split; assumption]]]; auto.
    f_equal. f_equal. symmetry. apply last_cons_default.
Qed.

(** The body of the loop of [train] leaves a model of the shapes of
    [VAE()], whether it returns or raises. *)
Lemma train_batch_shape (epoch i : nat) (data : tensor) (tl : R) (w : World) :
  VAE_shape (model w) ->
  VAE_shape (model (snd (train_batch G epoch i data tl w))).
Proof.
  intros Hsh.
  pose proof (adam_step_shape (optimizer w)) as Hstep.
  unfold train_batch, bind, optimizer_zero_grad, model_call, lift,
    loss_backward, optimizer_step, train_losses_append, print, ret, raise.
  cbn [model rng grads optimizer grad_enabled set_grads].
  destruct (forward (model w) data (rng w)) as [[[[recon mu] logvar]|e] g'];
    [|exact Hsh].
  destruct (loss_function recon data mu logvar) as [loss|e];
    [|destruct (grad_enabled w); exact Hsh].
  destruct (grad_enabled w);
    cbn [model rng grads optimizer grad_enabled set_grads set_rng set_tape];
    [|exact Hsh].
  destruct (py_div loss (length data)) as [tr|e]; [|exact Hsh].
  cbn [model rng grads optimizer grad_enabled set_grads set_rng set_tape].
  match goal with |- context [adam_step (optimizer w) ?gr (model w)] =>
    specialize (Hstep gr (model w) Hsh);
    destruct (adam_step (optimizer w) gr (model w)) as [m' o']
  end.
  cbn [fst] in Hstep.
  destruct (Z.eqb (args_log_interval G) 0); [exact Hstep|].
  destruct (Z.eqb (Z.of_nat i mod args_log_interval G) 0); [|exact Hstep].
  destruct (py_div (100 * INR i)
              (len_loader (args_batch_size G) (train_dataset G)));
    [|exact Hstep].
  exact Hstep.
Qed.

Lemma worlds_of_epoch_shape (epoch : nat) (batches : list tensor) :
  forall (i : nat) (w : World),
    VAE_shape (model w) ->
    Forall (fun wi => VAE_shape (model wi))
      (worlds_of_epoch G epoch i batches w).
Proof.
  induction batches as [|data rest IH]; intros i w Hsh; simpl;
    constructor; [exact Hsh|].
  apply IH. apply train_batch_shape. exact Hsh.
Qed.

(** Every entry is the loss of its batch, in the world in which the batch
    is met, divided by the size of the batch. *)
Lemma entries_from_spec (epoch : nat) (batches : list tensor) :
  forall (i : nat) (w : World),
    Forall batch_ok batches ->
    VAE_shape (model w) ->
    Forall2 (fun dw v =>
               exists loss,
                 batch_loss (model (snd dw)) (fst dw) (rng (snd dw)) = Ok loss
                 /\ v = loss / INR (length (fst dw)))
            (combine batches (worlds_of_epoch G epoch i batches w))
            (entries_from G epoch i batches w).
Proof.
  unfold entries_from.
  induction batches as [|data rest IH]; intros i w Hb Hsh; simpl.
  - constructor.
  - inversion Hb as [|? ? Hd Hrest]; subst. constructor.
    + destruct (batch_loss_ok (model w) data (rng w) Hd Hsh) as [loss Hloss].
      exists loss. simpl. unfold entry. rewrite Hloss. auto.
    + apply IH; [exact Hrest|]. apply train_batch_shape. exact Hsh.
Qed.

(** The batches that a loader yields. *)
Lemma batches_of_ok (bs : nat) (dataset : list (list R)) (perm : list nat) :
  (0 < bs)%nat ->
  Forall (fun r => length r = 784%nat) dataset ->
  Permutation (seq 0 (length dataset)) perm ->
  Forall batch_ok (batches_of bs dataset perm).
Proof.
  intros Hbs Hd Hp. unfold batches_of, chunks.
  assert (Hrows : Forall (fun r => length r = 784%nat)
                    (map (fun i => nth i dataset []) perm)).
  { apply Forall_map, Forall_forall. intros i Hi.
    rewrite Forall_forall in Hd. apply Hd. apply nth_In.
    apply (Permutation_in _ (Permutation_sym Hp)) in Hi.
    apply in_seq in Hi. lia. }
  pose proof (chunks_fuel_Forall _ (length (map (fun i => nth i dataset [])
                                             perm)) bs _ Hrows) as H1.
  pose proof (chunks_fuel_size (length (map (fun i => nth i dataset [])
                                          perm)) bs
                (map (fun i => nth i dataset []) perm) Hbs) as H2.
  rewrite Forall_forall in *. intros c Hc. split.
  - apply (H2 c Hc).
  - apply (H1 c Hc).
Qed.

Lemma batches_of_length (bs : nat) (dataset : list (list R))
    (perm : list nat) :
  (0 < bs)%nat ->
  Permutation (seq 0 (length dataset)) perm ->
  length (batches_of bs dataset perm)
  = ((length dataset + bs - 1) / bs)%nat.
Proof.
  intros Hbs Hp. unfold batches_of, tensor.
  rewrite chunks_length by exact Hbs.
  rewrite length_map, <- (Permutation_length Hp), length_seq. reflexivity.
Qed.

Lemma len_loader_batches (bs : nat) (dataset : list (list R))
    (perm : list nat) :
  (0 < bs)%nat ->
  Permutation (seq 0 (length dataset)) perm ->
  len_loader bs dataset = length (batches_of bs dataset perm).
Proof.
  intros Hbs Hp. unfold len_loader.
  rewrite chunks_length, batches_of_length; auto.
Qed.

(** [train] on a data set of images, with a batch size and a logging
    interval that the configuration allows, and gradient tracking on. *)
Lemma train_run (epoch : nat) (w : World) :
  (0 < args_batch_size G)%nat ->
  Forall (fun r => length r = 784%nat) (train_dataset G) ->
  args_log_interval G <> 0%Z ->
  VAE_shape (model w) ->
  grad_enabled w = true ->
  exists (w' : World) (logs : list line),
    train G epoch w = (Ok tt, w') /\
    train_losses w'
    = train_losses w
      ++ entries_of_epoch G epoch (train_batches G w) (train_start G w) /\
    stdout w'
    = stdout w ++ logs
      ++ [TrainSummary epoch
            (last (entries_of_epoch G epoch (train_batches G w)
                     (train_start G w)) 0)] /\
    grad_enabled w' = true /\
    VAE_shape (model w').
Proof.
  intros Hbs Hd Hlog Hsh Hg.
  pose proof (randperm_perm (rng w) (length (train_dataset G))) as Hp.
  unfold train, bind at 1, model_train.
  unfold bind at 1, loader_iter. cbn [set_model rng].
  destruct (randperm (rng w) (length (train_dataset G))) as [perm g'] eqn:Er.
  cbn [fst] in Hp.
  unfold bind at 1.
  match goal with |- context [for_enumerate _ _ ?b _ ?w1] =>
    destruct (train_loop_run epoch b 0 0 w1)
      as [w' [logs [Hfor [Hl [Hs [Hg' Hsh']]]]]]
  end.
  - apply batches_of_ok; auto.
  - exact Hsh.
  - exact Hg.
  - exact Hlog.
  - intros Hne. rewrite (len_loader_batches _ _ perm Hbs Hp).
    destruct (batches_of (args_batch_size G) (train_dataset G) perm);
      [contradiction | simpl; lia].
  - rewrite Hfor. unfold print.
    eexists. exists logs.
    unfold entries_of_epoch, train_batches, train_start.
    rewrite Er. cbn [fst snd]. unfold set_rng, set_model at 1.
    cbn [model grads optimizer rng grad_enabled train_losses stdout].
    split; [reflexivity|].
    unfold set_stdout.
    cbn [model grads optimizer rng grad_enabled train_losses stdout].
    rewrite Hl, Hs. cbn [train_losses stdout]. rewrite <- app_assoc.
    auto.
Qed.

End Runs.

(** ** The loss history *)

Section TrainClaims.
Context `{Substrate}.
Variable G : Globals.

Lemma train_batches_length (w : World) :
  (0 < args_batch_size G)%nat ->
  length (train_batches G w)
  = ((length (train_dataset G) + args_batch_size G - 1)
     / args_batch_size G)%nat.
Proof.
  intros Hbs. unfold train_batches. apply batches_of_length; auto.
  apply randperm_perm.
Qed.

(** C5.  [train] leaves the entries that the loss history holds where they
    are and appends exactly one entry per batch of the epoch, the loss of
    that batch divided by its size; the batches hold every example of the
    data set once, [batch_size] at a time, so that an epoch over 16 examples
    in batches of 4 records exactly 4 entries. *)
Theorem train_appends_one_entry_per_batch (epoch : nat) (w : World) :
  (0 < args_batch_size G)%nat ->
  Forall (fun r => length r = 784%nat) (train_dataset G) ->
  args_log_interval G <> 0%Z ->
  VAE_shape (model w) ->
  grad_enabled w = true ->
  exists (w' : World) (entries : list R),
    train G epoch w = (Ok tt, w') /\
    train_losses w' = train_losses w ++ entries /\
    Forall2 (fun dw v =>
               exists loss,
                 batch_loss (model (snd dw)) (fst dw) (rng (snd dw)) = Ok loss
                 /\ v = loss / INR (length (fst dw)))
            (combine (train_batches G w)
               (worlds_of_epoch G epoch 0 (train_batches G w)
                  (train_start G w)))
            entries /\
    length entries = length (train_batches G w) /\
    length (train_batches G w)
    = ((length (train_dataset G) + args_batch_size G - 1)
       / args_batch_size G)%nat /\
    Permutation (train_dataset G) (concat (train_batches G w)) /\
    (length (train_dataset G) = 16%nat -> args_batch_size G = 4%nat ->
     length entries = 4%nat).
Proof.
  intros Hbs Hd Hlog Hsh Hg.
  destruct (train_run G epoch w Hbs Hd Hlog Hsh Hg)
    as [w' [logs [Hrun [Hl [Hs [Hg' Hsh']]]]]].
  exists w', (entries_of_epoch G epoch (train_batches G w) (train_start G w)).
  assert (Hlen : length (entries_of_epoch G epoch (train_batches G w)
                           (train_start G w))
                 = length (train_batches G w))
    by apply entries_from_length.
  repeat split; auto.
  - apply entries_from_spec; [|exact Hsh]. unfold train_batches.
    apply batches_of_ok; auto. apply randperm_perm.
  - apply train_batches_length; auto.
  - unfold train_batches. apply batches_of_concat; auto. apply randperm_perm.
  - intros H16 H4. rewrite Hlen, train_batches_length, H16, H4 by auto.
    reflexivity.
Qed.

Lemma map2_app {A B C : Type} (f : A -> B -> C) (l1 l2 : list A)
    (k1 k2 : list B) :
  length l1 = length k1 ->
  map2 f (l1 ++ l2) (k1 ++ k2) = map2 f l1 k1 ++ map2 f l2 k2.
Proof.
  revert k1. induction l1 as [|a l1 IH]; intros [|b k1] E; simpl in *;
    try discriminate; auto.
  f_equal. apply IH. lia.
Qed.

Lemma worlds_of_epoch_length (epoch : nat) (batches : list tensor) :
  forall (i : nat) (w : World),
    length (worlds_of_epoch G epoch i batches w) = length batches.
Proof.
  induction batches as [|d rest IH]; intros i w; simpl; auto.
Qed.

Lemma split_last {A : Type} (l : list A) :
  l <> [] -> exists front x, l = front ++ [x].
Proof.
  intros Hl. destruct (exists_last Hl) as [front [x E]]. eauto.
Qed.

(** C10.  For an epoch with at least one batch, the value of the summary
    line that [train] prints at its end is the loss of the final batch
    divided by the size of that batch, which is also the entry that the
    epoch has recorded last: [train_loss] is assigned in every round of the
    loop, nothing is accumulated in it. *)
Theorem train_summary_is_last_batch (epoch : nat) (w : World) :
  (0 < args_batch_size G)%nat ->
  Forall (fun r => length r = 784%nat) (train_dataset G) ->
  args_log_interval G <> 0%Z ->
  VAE_shape (model w) ->
  grad_enabled w = true ->
  train_dataset G <> [] ->
  exists (w' : World) (logs : list line)
         (front : list tensor) (data_last : tensor)
         (worlds : list World) (w_last : World) (loss_last : R),
    train G epoch w = (Ok tt, w') /\
    stdout w'
    = stdout w ++ logs
      ++ [TrainSummary epoch (loss_last / INR (length data_last))] /\
    train_batches G w = front ++ [data_last] /\
    worlds_of_epoch G epoch 0 (train_batches G w) (train_start G w)
    = worlds ++ [w_last] /\
    batch_loss (model w_last) data_last (rng w_last) = Ok loss_last /\
    last (train_losses w') 0 = loss_last / INR (length data_last).
Proof.
  intros Hbs Hd Hlog Hsh Hg Hne.
  destruct (train_run G epoch w Hbs Hd Hlog Hsh Hg)
    as [w' [logs [Hrun [Hl [Hs [Hg' Hsh']]]]]].
  assert (Hok : Forall (batch_ok) (train_batches G w)).
  { unfold train_batches. apply batches_of_ok; auto. apply randperm_perm. }
  assert (Hb : train_batches G w <> []).
  { intros E. apply (f_equal (@length tensor)) in E.
    rewrite train_batches_length in E by auto. simpl in E.
    destruct (train_dataset G) as [|x l]; [contradiction|].
    cbn [length] in E.
    assert (1 <= (S (length l) + args_batch_size G - 1)
                 / args_batch_size G)%nat; [|lia].
    apply Nat.div_le_lower_bound; lia. }
  destruct (split_last _ Hb) as [front [data_last Eb]].
  assert (Hw : worlds_of_epoch G epoch 0 (train_batches G w) (train_start G w)
               <> []).
  { intros E. apply (f_equal (@length World)) in E.
    rewrite worlds_of_epoch_length, Eb, length_app in E. simpl in E. lia. }
  destruct (split_last _ Hw) as [worlds [w_last Ew]].
  assert (Hlen : length front = length worlds).
  { pose proof (worlds_of_epoch_length epoch (train_batches G w) 0
                  (train_start G w)) as E.
    rewrite Ew, Eb, !length_app in E. simpl in E. lia. }
  assert (Hlast : batch_ok data_last).
  { rewrite Eb in Hok. apply Forall_app in Hok. destruct Hok as [_ Hok].
    inversion Hok; auto. }
  assert (Hshl : VAE_shape (model w_last)).
  { pose proof (worlds_of_epoch_shape G epoch (train_batches G w) 0
                  (train_start G w) Hsh) as Hall.
    rewrite Ew in Hall. apply Forall_app in Hall. destruct Hall as [_ Hall].
    inversion Hall; auto. }
  destruct (batch_loss_ok (model w_last) data_last (rng w_last) Hlast Hshl)
    as [loss_last Hloss].
  assert (He : last (entries_of_epoch G epoch (train_batches G w)
                       (train_start G w)) 0
               = loss_last / INR (length data_last)).
  { unfold entries_of_epoch, entries_from. rewrite Ew, Eb.
    rewrite map2_app by exact Hlen. cbn [map2]. rewrite last_last.
    unfold entry. rewrite Hloss. reflexivity. }
  exists w', logs, front, data_last, worlds, w_last, loss_last.
  repeat split; auto.
  - rewrite Hs, He. reflexivity.
  - rewrite Hl. unfold entries_of_epoch, entries_from in *.
    rewrite Ew, Eb in *. rewrite map2_app in * by exact Hlen.
    cbn [map2] in *. rewrite app_assoc, last_last.
    rewrite last_last in He. exact He.
Qed.

End TrainClaims.

Lemma example_batch_size : (0 < args_batch_size example_globals)%nat.
Proof. simpl. lia. Qed.

Lemma example_log_interval : args_log_interval example_globals <> 0%Z.
Proof. discriminate. Qed.

Lemma train_appends_example :
  exists (w' : @World example_substrate) (entries : list R),
    @train example_substrate example_globals 1 example_world = (Ok tt, w') /\
    @train_losses example_substrate w' = entries /\
    length entries = 4%nat.
Proof.
  destruct (@train_appends_one_entry_per_batch example_substrate
              example_globals 1 example_world
              example_batch_size example_dataset_rows example_log_interval
              (zero_model_shape true) eq_refl)
    as [w' [entries [Hrun [Hl [_ [_ [_ [_ H4]]]]]]]].
  exists w', entries. split; [exact Hrun|]. split; [exact Hl|].
  apply H4; [apply repeat_length | reflexivity].
Defined.

(** ** The latent sampler *)

Section Sampler.
Context `{Substrate}.

(** C2.  On means and log-variances of shape [[N, Z]], the sampler of a
    model in training mode returns [z = eps * exp (0.5 * logvar) + mean]
    elementwise, where [eps] is the tensor of shape [[N, Z]] that
    [torch.randn] draws from the generator in the state in which the
    sampler finds it; a latent value is the mean exactly where the draw is
    0, and, for a batch that is not empty, the generator is left in the
    state in which that draw leaves it, so that the next draw is another
    one.  The sampler of a model in inference mode returns the mean as it
    is and leaves the generator alone.  That the draw is
    standard normal is the library's part. *)
Theorem reparameterize_spec (self : VAE) (N Zd : nat) (mu logvar : tensor)
    (g : Rng) :
  shape N Zd mu -> shape N Zd logvar ->
  (training self = true ->
   let eps := fst (randn N Zd g) in
   let z := fst (reparameterize self mu logvar g) in
   shape N Zd eps /\
   shape N Zd z /\
   ((0 < N)%nat ->
    snd (reparameterize self mu logvar g) = snd (randn N Zd g)) /\
   forall n k : nat, (n < N)%nat -> (k < Zd)%nat ->
     at2 z n k = at2 eps n k * exp (0.5 * at2 logvar n k) + at2 mu n k /\
     (at2 z n k = at2 mu n k <-> at2 eps n k = 0))
  /\
  (training self = false -> reparameterize self mu logvar g = (mu, g)).
Proof.
  intros Hm Hl. split; intros Ht.
  2:{ unfold reparameterize. rewrite Ht. reflexivity. }
  cbv zeta.
  assert (Hstd : shape N Zd (tmap (fun lv => exp (0.5 * lv)) logvar))
    by (apply tmap_shape; exact Hl).
  pose proof (randn_shape N Zd g) as He.
  assert (Hfst : fst (randn_like (tmap (fun lv => exp (0.5 * lv)) logvar) g)
                 = fst (randn N Zd g)).
  { destruct N as [|N]; [apply randn_like_empty; exact Hstd|].
    rewrite (randn_like_shape (S N) Zd _ g Hstd) by lia. reflexivity. }
  assert (Hz : fst (reparameterize self mu logvar g)
               = tmap2 Rplus
                   (tmap2 Rmult (fst (randn N Zd g))
                      (tmap (fun lv => exp (0.5 * lv)) logvar)) mu).
  { unfold reparameterize. rewrite Ht, <- Hfst.
    destruct (randn_like (tmap (fun lv => exp (0.5 * lv)) logvar) g).
    reflexivity. }
  assert (Hes : shape N Zd (tmap2 Rmult (fst (randn N Zd g))
                              (tmap (fun lv => exp (0.5 * lv)) logvar)))
    by (apply tmap2_shape; assumption).
  assert (Hel : forall n k : nat, (n < N)%nat -> (k < Zd)%nat ->
            at2 (fst (reparameterize self mu logvar g)) n k
            = at2 (fst (randn N Zd g)) n k * exp (0.5 * at2 logvar n k)
              + at2 mu n k).
  { intros n k Hn Hk. rewrite Hz.
    rewrite (tmap2_at2 N Zd) by assumption.
    rewrite (tmap2_at2 N Zd) by assumption.
    rewrite (tmap_at2 N Zd) by assumption.
    reflexivity. }
  split; [exact He|]. split; [|split].
  - rewrite Hz. apply (tmap2_shape N Zd); assumption.
  - intros Hpos. unfold reparameterize. rewrite Ht.
    rewrite (randn_like_shape N Zd _ g Hstd Hpos).
    destruct (randn N Zd g). reflexivity.
  - intros n k Hn Hk. split; [apply Hel; assumption|].
    rewrite (Hel n k Hn Hk).
    pose proof (exp_pos (0.5 * at2 logvar n k)) as Hexp.
    split; intros E.
    + assert (E0 : at2 (fst (randn N Zd g)) n k
                   * exp (0.5 * at2 logvar n k) = 0) by lra.
      apply Rmult_integral in E0. destruct E0 as [E0 | E0]; [exact E0 | lra].
    + rewrite E. lra.
Qed.

(** C7, as the program has it.  [reparameterize] has no mode among its
    arguments: it reads the mode in the attribute [training] of the model
    object, which [model.train()] and [model.eval()] assign.  Two model
    objects in the same mode give the same result on the same means,
    log-variances and generator state, whatever their parameters. *)
Theorem reparameterize_mode_of_model (m1 m2 : VAE) (mu logvar : tensor)
    (g : Rng) :
  training m1 = training m2 ->
  reparameterize m1 mu logvar g = reparameterize m2 mu logvar g
  /\ (forall w : World, training (model (snd (model_train w))) = true)
  /\ (forall w : World, training (model (snd (model_eval w))) = false).
Proof.
  intros Ht. unfold reparameterize. rewrite Ht. repeat split.
Qed.

End Sampler.

Lemma reparameterize_spec_example :
  (at2 (fst (@reparameterize example_substrate (zero_model true)
               (zeros 1 ZDIMS) (zeros 1 ZDIMS) 0%nat)) 0 0
   = at2 (fst (@randn example_substrate 1 ZDIMS 0%nat)) 0 0
     * exp (0.5 * at2 (zeros 1 ZDIMS) 0 0)
     + at2 (zeros 1 ZDIMS) 0 0
   /\
   at2 (fst (@reparameterize example_substrate (zero_model true)
               (zeros 1 ZDIMS) (zeros 1 ZDIMS) 0%nat)) 0 0
   <> at2 (zeros 1 ZDIMS) 0 0
   /\
   snd (@reparameterize example_substrate (zero_model true)
          (zeros 1 ZDIMS) (zeros 1 ZDIMS) 0%nat)
   = snd (@randn example_substrate 1 ZDIMS 0%nat))
  /\
  @reparameterize example_substrate (zero_model false)
    (zeros 1 ZDIMS) (zeros 1 ZDIMS) 0%nat
  = (zeros 1 ZDIMS, 0%nat).
Proof.
  split.
  - destruct (proj1 (@reparameterize_spec example_substrate (zero_model true)
                       1 ZDIMS (zeros 1 ZDIMS) (zeros 1 ZDIMS) 0%nat
                       (zeros_shape 1 ZDIMS) (zeros_shape 1 ZDIMS)) eq_refl)
      as [_ [_ [Hg Hz]]].
    assert (H0 : (0 < 1)%nat) by lia.
    assert (Hk : (0 < ZDIMS)%nat) by (unfold ZDIMS; lia).
    destruct (Hz 0%nat 0%nat H0 Hk) as [Hel Hiff].
    split; [exact Hel|]. split; [|exact (Hg H0)].
    intros E. apply Hiff in E. unfold at2 in E. simpl in E. lra.
  - apply (proj2 (@reparameterize_spec example_substrate (zero_model false)
                    1 ZDIMS (zeros 1 ZDIMS) (zeros 1 ZDIMS) 0%nat
                    (zeros_shape 1 ZDIMS) (zeros_shape 1 ZDIMS)) eq_refl).
Defined.

Lemma reparameterize_mode_example :
  @reparameterize example_substrate (zero_model true)
    (zeros 1 ZDIMS) (zeros 1 ZDIMS) 0%nat
  = @reparameterize example_substrate
      (set_training true (zero_model false))
      (zeros 1 ZDIMS) (zeros 1 ZDIMS) 0%nat.
Proof.
  apply (@reparameterize_mode_of_model example_substrate (zero_model true)
           (set_training true (zero_model false))
           (zeros 1 ZDIMS) (zeros 1 ZDIMS) 0%nat eq_refl).
Defined.

(** C7, as the specification states it, fails: the same means, log-variances and
    generator state give a different latent code once [model.eval()] has
    changed the model object, whose parameters are the same. *)
Lemma reparameterize_depends_on_model_object :
  exists (m : VAE) (mu logvar : tensor) (g : nat),
    parameters (set_training false m) = parameters m /\
    fst (@reparameterize example_substrate m mu logvar g)
    <> fst (@reparameterize example_substrate (set_training false m)
              mu logvar g).
Proof.
  exists (zero_model true), (zeros 1 ZDIMS), (zeros 1 ZDIMS), 0%nat.
  split; [reflexivity|].
  intros E. apply (f_equal (fun t => at2 t 0 0)) in E.
  unfold reparameterize in E. simpl in E.
  pose proof (exp_pos (0.5 * 0)). unfold at2 in E. simpl in E. lra.
Qed.

(** ** Who writes the parameters *)

Section Frames.
Context `{Substrate}.

Section Preserves.
Context {X : Type} (proj : World -> X) (Q : X -> X -> Prop).
Hypothesis Q_refl : forall x, Q x x.
Hypothesis Q_trans : forall x y z, Q x y -> Q y z -> Q x z.

Lemma preserves_ret {A : Type} (a : A) : preserves proj Q (ret a).
Proof. intros w. apply Q_refl. Qed.

Lemma preserves_raise {A : Type} (e : exn) :
  preserves proj Q (raise (A := A) e).
Proof. intros w. apply Q_refl. Qed.

Lemma preserves_lift {A : Type} (r : result A) : preserves proj Q (lift r).
Proof. intros w. apply Q_refl. Qed.

Lemma preserves_bind {A B : Type} (m : M A) (k : A -> M B) :
  preserves proj Q m -> (forall a, preserves proj Q (k a)) ->
  preserves proj Q (bind m k).
Proof.
  intros Hm Hk w. unfold bind. specialize (Hm w).
  destruct (m w) as [[a | e] w1]; simpl in *; [|exact Hm].
  apply Q_trans with (proj w1); [exact Hm | apply Hk].
Qed.

Lemma preserves_for_enumerate {A St : Type} (body : nat -> A -> St -> M St)
    (l : list A) :
  (forall i a s, preserves proj Q (body i a s)) ->
  forall i s, preserves proj Q (for_enumerate body i l s).
Proof.
  intros Hb. induction l as [|a l IH]; intros i s; simpl.
  - apply preserves_ret.
  - apply preserves_bind; [apply Hb | intros s'; apply IH].
Qed.

Lemma preserves_no_grad {A : Type} (m : M A) :
  (forall b w, proj (set_grad_enabled b w) = proj w) ->
  preserves proj Q m -> preserves proj Q (no_grad m).
Proof.
  intros Hp Hm w. unfold no_grad. specialize (Hm (set_grad_enabled false w)).
  destruct (m (set_grad_enabled false w)) as [r w1]. simpl in *.
  rewrite Hp in *. exact Hm.
Qed.

End Preserves.

Lemma optimized_trans (p q r : list Linear) :
  optimized p q -> optimized q r -> optimized p r.
Proof.
  intros Hpq Hqr. induction Hqr as [|m o g Hqm IH].
  - exact Hpq.
  - apply optimized_step. exact IH.
Qed.

Lemma model_call_parameters (data : tensor) :
  preserves parameters_of eq (model_call data).
Proof.
  intros w. unfold model_call.
  destruct (forward (model w) data (rng w)) as [[out | e] g'];
    [destruct (grad_enabled w)|]; reflexivity.
Qed.

Lemma loader_iter_parameters (bs : nat) (dataset : list (list R)) :
  preserves parameters_of eq (loader_iter bs dataset).
Proof.
  intros w. unfold loader_iter.
  destruct (randperm (rng w) (length dataset)); reflexivity.
Qed.

Lemma loss_backward_parameters (graph : option Graph) :
  preserves parameters_of eq (loss_backward graph).
Proof. intros w. destruct graph as [[[m d] g]|]; reflexivity. Qed.

Lemma optimizer_step_parameters :
  preserves parameters_of optimized optimizer_step.
Proof.
  intros w. unfold optimizer_step, parameters_of.
  destruct (adam_step (optimizer w) (grads w) (model w)) as [m' o'] eqn:E.
  cbn [snd set_optimizer set_model model].
  replace m' with (fst (adam_step (optimizer w) (grads w) (model w)))
    by (rewrite E; reflexivity).
  apply optimized_step, optimized_refl.
Qed.

Lemma eq_optimized {A : Type} (m : M A) :
  preserves parameters_of eq m -> preserves parameters_of optimized m.
Proof. intros Hm w. rewrite <- (Hm w). apply optimized_refl. Qed.

Variable G : Globals.

Lemma test_batch_parameters (i : nat) (data : tensor) (acc : R) :
  preserves parameters_of eq (test_batch G i data acc).
Proof.
  unfold test_batch.
  apply preserves_bind; try congruence; [apply model_call_parameters|].
  intros [[[recon mu] logvar] graph].
  apply preserves_bind; try congruence; [apply preserves_lift; auto|].
  intros loss.
  apply preserves_bind; try congruence; [|intros; apply preserves_ret; auto].
  destruct (Nat.eqb i 0); [|apply preserves_ret; auto].
  destruct (Nat.eqb _ _); [apply preserves_ret | apply preserves_raise]; auto.
Qed.

Lemma test_parameters (epoch : nat) :
  preserves parameters_of eq (test G epoch).
Proof.
  unfold test.
  apply preserves_bind; try congruence; [intros w; reflexivity|].
  intros _.
  apply preserves_bind; try congruence.
  - apply preserves_no_grad; [reflexivity|].
    apply preserves_bind; try congruence; [apply loader_iter_parameters|].
    intros batches.
    apply preserves_for_enumerate; try congruence.
    apply test_batch_parameters.
  - intros acc.
    apply preserves_bind; try congruence; [apply preserves_lift; auto|].
    intros v w. reflexivity.
Qed.

Lemma generate_parameters : preserves parameters_of eq generate.
Proof.
  unfold generate. apply preserves_no_grad; [reflexivity|].
  intros w. destruct (randn 64 20 (rng w)); reflexivity.
Qed.

Lemma train_batch_parameters (epoch i : nat) (data : tensor) (tl : R) :
  preserves parameters_of optimized (train_batch G epoch i data tl).
Proof.
  pose proof optimized_refl as Hr. pose proof optimized_trans as Ht.
  unfold train_batch.
  apply preserves_bind; auto; [intros w; apply optimized_refl|].
  intros _.
  apply preserves_bind; auto;
    [apply eq_optimized, model_call_parameters|].
  intros [[[recon mu] logvar] graph].
  apply preserves_bind; auto; [apply preserves_lift; auto|].
  intros loss.
  apply preserves_bind; auto;
    [apply eq_optimized, loss_backward_parameters|].
  intros _.
  apply preserves_bind; auto; [apply preserves_lift; auto|].
  intros train_loss.
  apply preserves_bind; auto; [apply optimizer_step_parameters|].
  intros _.
  apply preserves_bind; auto; [intros w; apply optimized_refl|].
  intros _.
  apply preserves_bind; auto; [|intros; apply preserves_ret; auto].
  destruct (Z.eqb (args_log_interval G) 0); [apply preserves_raise; auto|].
  destruct (Z.eqb _ 0); [|apply preserves_ret; auto].
  apply preserves_bind; auto; [apply preserves_lift; auto|].
  intros percent.
  apply preserves_bind; auto; [apply preserves_lift; auto|].
  intros shown w. apply optimized_refl.
Qed.

Lemma train_parameters (epoch : nat) :
  preserves parameters_of optimized (train G epoch).
Proof.
  pose proof optimized_refl as Hr. pose proof optimized_trans as Ht.
  unfold train.
  apply preserves_bind; auto; [intros w; apply optimized_refl|].
  intros _.
  apply preserves_bind; auto;
    [apply eq_optimized, loader_iter_parameters|].
  intros batches.
  apply preserves_bind; auto.
  - apply preserves_for_enumerate; auto. apply train_batch_parameters.
  - intros v w. apply optimized_refl.
Qed.

Lemma main_loop_parameters (n : nat) :
  forall epoch, preserves parameters_of optimized (main_loop G epoch n).
Proof.
  pose proof optimized_refl as Hr. pose proof optimized_trans as Ht.
  induction n as [|n IH]; intros epoch; simpl.
  - apply preserves_ret; auto.
  - apply preserves_bind; auto; [apply eq_optimized, test_parameters|].
    intros _.
    apply preserves_bind; auto; [apply train_parameters|].
    intros _.
    apply preserves_bind; auto.
    apply eq_optimized, generate_parameters.
Qed.

(** C9.  The parameter tensors of the model are written by the step of the
    optimizer in the loop of [train] and by nothing else: the forward pass
    (encoder, sampler and decoder), the evaluation of the loss, the backward
    pass, the evaluation pass [test] and the generation leave every
    parameter tensor as it is, whether they return or raise, and the
    parameters that [train] and the whole run leave come from those they
    found by steps of the optimizer alone. *)
Theorem parameters_written_by_optimizer_only :
  (forall data, preserves parameters_of eq (model_call data))
  /\ (forall recon x mu logvar,
        preserves parameters_of eq (lift (loss_function recon x mu logvar)))
  /\ (forall graph, preserves parameters_of eq (loss_backward graph))
  /\ preserves parameters_of eq optimizer_zero_grad
  /\ (forall epoch, preserves parameters_of eq (test G epoch))
  /\ preserves parameters_of eq generate
  /\ preserves parameters_of optimized optimizer_step
  /\ (forall epoch, preserves parameters_of optimized (train G epoch))
  /\ preserves parameters_of optimized (main G).
Proof.
  repeat split.
  - apply model_call_parameters.
  - apply loss_backward_parameters.
  - apply test_parameters.
  - apply generate_parameters.
  - apply optimizer_step_parameters.
  - apply train_parameters.
  - apply main_loop_parameters.
Qed.

End Frames.

(** ** A second epoch *)

Section SecondEpoch.
Context `{Substrate}.
Variable G : Globals.

Lemma entries_from_same_start (ea eb : nat) (batches : list tensor) :
  forall (i : nat) (wa wb : World),
    Forall (batch_ok) batches ->
    args_log_interval G <> 0%Z ->
    (batches <> [] ->
     (0 < len_loader (args_batch_size G) (train_dataset G))%nat) ->
    VAE_shape (model wa) ->
    same_start wa wb ->
    entries_from G ea i batches wa = entries_from G eb i batches wb.
Proof.
  unfold entries_from.
  induction batches as [|data rest IH]; intros i wa wb Hb Hlog Hlen Hsh Hs;
    [reflexivity|].
  inversion Hb as [|? ? Hd Hrest]; subst.
  assert (Hlen' : (0 < len_loader (args_batch_size G) (train_dataset G))%nat)
    by (apply Hlen; discriminate).
  destruct Hs as [Hm [Ho [Hr [Hga Hgb]]]].
  assert (Hshb : VAE_shape (model wb)) by (rewrite <- Hm; exact Hsh).
  destruct (train_batch_run G ea i data 0 wa Hd Hsh Hga Hlog Hlen')
    as [la [Hla Hra]].
  destruct (train_batch_run G eb i data 0 wb Hd Hshb Hgb Hlog Hlen')
    as [lb [Hlb Hrb]].
  cbn [worlds_of_epoch map2]. f_equal.
  - unfold entry. rewrite Hm, Hr. reflexivity.
  - rewrite Hra, Hrb. cbn [snd].
    apply IH; auto.
    + cbn [model]. apply adam_step_shape. exact Hsh.
    + unfold same_start. cbn [model optimizer rng grad_enabled].
      rewrite Hm, Ho, Hr. auto.
Qed.

Lemma train_start_same_start (wa wb : World) :
  same_start wa wb -> same_start (train_start G wa) (train_start G wb).
Proof.
  intros [Hm [Ho [Hr [Hga Hgb]]]]. unfold same_start, train_start.
  unfold set_rng, set_model.
  cbn [model optimizer rng grad_enabled]. rewrite Hm, Ho, Hr. auto.
Qed.

Lemma seed_and_build_run (w : World) :
  exists w0 : World,
    seed_and_build G w = (Ok tt, w0) /\
    model w0 = fst (init_parameters (manual_seed (args_seed G))) /\
    optimizer w0 = adam_init /\
    rng w0 = snd (init_parameters (manual_seed (args_seed G))) /\
    grad_enabled w0 = grad_enabled w /\
    train_losses w0 = train_losses w /\
    VAE_shape (model w0).
Proof.
  unfold seed_and_build.
  pose proof (init_parameters_shape (manual_seed (args_seed G))) as Hs.
  destruct (init_parameters (manual_seed (args_seed G))) as [m g'].
  cbn [fst snd] in *.
  eexists. split; [reflexivity|].
  cbn [model optimizer rng grad_enabled train_losses].
  split; [reflexivity|]. split; [reflexivity|]. split; [reflexivity|].
  split; [reflexivity|]. split; [reflexivity | exact Hs].
Qed.

(** Two epochs that start alike record the same entries. *)
Lemma train_same_start (e1 e2 : nat) (wa wb : World) :
  (0 < args_batch_size G)%nat ->
  Forall (fun r => length r = 784%nat) (train_dataset G) ->
  args_log_interval G <> 0%Z ->
  VAE_shape (model wa) ->
  same_start wa wb ->
  exists (wa' wb' : World),
    train G e1 wa = (Ok tt, wa') /\
    train G e2 wb = (Ok tt, wb') /\
    train_losses wa'
    = train_losses wa
      ++ entries_of_epoch G e1 (train_batches G wa) (train_start G wa) /\
    train_losses wb'
    = train_losses wb
      ++ entries_of_epoch G e1 (train_batches G wa) (train_start G wa) /\
    grad_enabled wa' = true.
Proof.
  intros Hbs Hd Hlog Hsa Hss.
  pose proof Hss as [Hm [Ho [Hr [Hga Hgb]]]].
  assert (Hsb : VAE_shape (model wb)) by (rewrite <- Hm; exact Hsa).
  destruct (train_run G e1 wa Hbs Hd Hlog Hsa Hga)
    as [wa' [logs1 [Hrun1 [Hl1 [_ [Hg1 _]]]]]].
  destruct (train_run G e2 wb Hbs Hd Hlog Hsb Hgb)
    as [wb' [logs2 [Hrun2 [Hl2 _]]]].
  assert (Hb : train_batches G wb = train_batches G wa).
  { unfold train_batches. rewrite Hr. reflexivity. }
  assert (Hsame : entries_of_epoch G e1 (train_batches G wa)
                    (train_start G wa)
                  = entries_of_epoch G e2 (train_batches G wb)
                      (train_start G wb)).
  { unfold entries_of_epoch. rewrite Hb.
    apply entries_from_same_start.
    - unfold train_batches. apply batches_of_ok; auto. apply randperm_perm.
    - exact Hlog.
    - intros Hne. unfold train_batches in Hne.
      rewrite (len_loader_batches _ _
                 (fst (randperm (rng wa) (length (train_dataset G)))) Hbs
                 (randperm_perm _ _)).
      destruct (batches_of _ _ _); [contradiction | simpl; lia].
    - exact Hsa.
    - apply train_start_same_start. exact Hss. }
  exists wa', wb'. rewrite Hsame at 2. auto.
Qed.

(** C8.  Two epochs of [train] that start from the same parameters, the
    same optimizer state and the same state of the generator, with gradient
    tracking on, append the same sequence of losses to the history,
    whatever the number of the epoch, the gradients, the history and the
    output that each of them finds.  So it is for an epoch that is run
    after the generator has been seeded and model and optimizer have been
    built, and a second epoch for which the generator is seeded with the
    same seed and model and optimizer are built again: the second epoch
    records the sequence of the first once more, one entry per batch. *)
Theorem same_seed_same_loss_sequence (e1 e2 : nat) :
  (0 < args_batch_size G)%nat ->
  Forall (fun r => length r = 784%nat) (train_dataset G) ->
  args_log_interval G <> 0%Z ->
  (forall wa wb : World,
     VAE_shape (model wa) ->
     same_start wa wb ->
     exists (wa' wb' : World) (entries : list R),
       train G e1 wa = (Ok tt, wa') /\
       train G e2 wb = (Ok tt, wb') /\
       train_losses wa' = train_losses wa ++ entries /\
       train_losses wb' = train_losses wb ++ entries /\
       length entries
       = length (chunks (args_batch_size G) (train_dataset G)))
  /\
  (forall w : World,
     grad_enabled w = true ->
     exists (w1 w2 : World) (entries : list R),
       (seed_and_build G ;; train G e1) w = (Ok tt, w1) /\
       (seed_and_build G ;; train G e2) w1 = (Ok tt, w2) /\
       train_losses w1 = train_losses w ++ entries /\
       train_losses w2 = train_losses w ++ entries ++ entries /\
       length entries
       = length (chunks (args_batch_size G) (train_dataset G))).
Proof.
  intros Hbs Hd Hlog.
  assert (Hn : forall e w0,
             length (entries_of_epoch G e (train_batches G w0)
                       (train_start G w0))
             = length (chunks (args_batch_size G) (train_dataset G))).
  { intros e w0. unfold entries_of_epoch.
    rewrite entries_from_length.
    rewrite train_batches_length by auto.
    unfold tensor. rewrite chunks_length by auto. reflexivity. }
  split.
  - intros wa wb Hsa Hss.
    destruct (train_same_start e1 e2 wa wb Hbs Hd Hlog Hsa Hss)
      as [wa' [wb' [H1 [H2 [Hl1 [Hl2 _]]]]]].
    exists wa', wb',
      (entries_of_epoch G e1 (train_batches G wa) (train_start G wa)).
    auto.
  - intros w Hg.
    destruct (seed_and_build_run w)
      as [wa [Ea [Hma [Hoa [Hra [Hga [Hla Hsa]]]]]]].
    rewrite Hg in Hga.
    destruct (train_same_start e1 e1 wa wa Hbs Hd Hlog Hsa)
      as [w1 [_ [Hrun1 [_ [Hl1 [_ Hg1]]]]]].
    { unfold same_start. auto. }
    destruct (seed_and_build_run w1)
      as [wb [Eb [Hmb [Hob [Hrb [Hgb [Hlb Hsb]]]]]]].
    rewrite Hg1 in Hgb.
    destruct (train_same_start e1 e2 wa wb Hbs Hd Hlog Hsa)
      as [w1' [w2 [Hrun1' [Hrun2 [_ [Hl2 _]]]]]].
    { unfold same_start. rewrite Hma, Hmb, Hoa, Hob, Hra, Hrb. auto. }
    exists w1, w2,
      (entries_of_epoch G e1 (train_batches G wa) (train_start G wa)).
    split; [unfold bind; rewrite Ea; exact Hrun1|].
    split; [unfold bind; rewrite Eb; exact Hrun2|].
    split; [rewrite Hl1, Hla; reflexivity|].
    split; [rewrite Hl2, Hlb, Hl1, Hla, <- app_assoc; reflexivity|].
    apply Hn.
Qed.

End SecondEpoch.

Lemma same_seed_example :
  exists (w1 w2 : @World example_substrate) (entries : list R),
    (@seed_and_build example_substrate example_globals ;;
     @train example_substrate example_globals 1) example_world
    = (Ok tt, w1) /\
    (@seed_and_build example_substrate example_globals ;;
     @train example_substrate example_globals 2) w1
    = (Ok tt, w2) /\
    @train_losses example_substrate w1 = entries /\
    @train_losses example_substrate w2 = entries ++ entries /\
    length entries = 4%nat.
Proof.
  destruct (proj2 (@same_seed_same_loss_sequence example_substrate
                     example_globals 1 2
                     example_batch_size example_dataset_rows
                     example_log_interval)
              example_world eq_refl)
    as [w1 [w2 [entries [H1 [H2 [Hl1 [Hl2 Hn]]]]]]].
  exists w1, w2, entries. split; [exact H1|]. split; [exact H2|].
  split; [exact Hl1|]. split; [exact Hl2|]. rewrite Hn. reflexivity.
Defined.

(** ** The evaluation pass *)

Lemma fold_left_Rplus (l : list R) (acc : R) :
  fold_left Rplus l acc = acc + sum_list l.
Proof.
  revert acc. induction l as [|a l IH]; intros acc; simpl; [lra|].
  rewrite IH. lra.
Qed.

Section Evaluation.
Context `{Substrate}.
Variable G : Globals.

Lemma set_rng_same (w : World) : set_rng (rng w) w = w.
Proof. destruct w; reflexivity. Qed.

Lemma eval_loss_ok (m : VAE) (data : tensor) :
  batch_ok data -> VAE_shape m -> exists loss, eval_loss m data = Ok loss.
Proof.
  intros Hd Hs. unfold eval_loss.
  pose proof (encode_length m data) as Hl.
  destruct (encode m data) as [mu logvar]. cbn [fst] in Hl.
  rewrite (loss_function_batch m mu data mu logvar Hd Hs Hl). eauto.
Qed.

(** In inference mode the loss of a batch is that of the evaluation pass,
    whatever the state of the generator. *)
Lemma batch_loss_inference (m : VAE) (data : tensor) (g : Rng) :
  batch_ok data -> training m = false ->
  batch_loss m data g = eval_loss m data.
Proof.
  intros Hd Ht. unfold batch_loss, eval_loss.
  rewrite (forward_batch m data g Hd). unfold reparameterize. rewrite Ht.
  destruct (encode m data) as [mu logvar]. reflexivity.
Qed.

(** The forward pass in an evaluation pass: the model is in inference mode
    and gradient tracking is off.  The latent code that is decoded is the
    mean, the generator is not touched, and no graph is recorded. *)
Lemma model_call_eval (data : tensor) (w : World) :
  batch_ok data ->
  training (model w) = false ->
  grad_enabled w = false ->
  model_call data w
  = (Ok (decode (model w) (fst (encode (model w) data)),
         fst (encode (model w) data), snd (encode (model w) data), None),
     w).
Proof.
  intros Hd Ht Hg. unfold model_call.
  rewrite (forward_batch (model w) data (rng w) Hd).
  unfold reparameterize. rewrite Ht, Hg. cbn [fst snd].
  rewrite set_rng_same. reflexivity.
Qed.

Lemma test_batch_run (i : nat) (data : tensor) (acc : R) (w : World) :
  batch_ok data ->
  VAE_shape (model w) ->
  training (model w) = false ->
  grad_enabled w = false ->
  (i = 0%nat -> length data = args_batch_size G) ->
  exists loss,
    eval_loss (model w) data = Ok loss /\
    test_batch G i data acc w = (Ok (acc + loss), w).
Proof.
  intros Hd Hs Ht Hg Hi.
  destruct (eval_loss_ok (model w) data Hd Hs) as [loss Hloss].
  exists loss. split; [exact Hloss|].
  unfold test_batch, bind at 1. rewrite (model_call_eval data w Hd Ht Hg).
  unfold eval_loss in Hloss.
  destruct (encode (model w) data) as [mu logvar] eqn:Ee. cbn [fst snd].
  unfold bind at 1, lift. rewrite Hloss.
  unfold bind. destruct (Nat.eqb_spec i 0) as [E0 | _]; [|reflexivity].
  pose proof (decode_shape (model w) mu Hs) as Hr.
  rewrite (concat_length_shape _ _ _ Hr).
  replace (length mu) with (length data)
    by (rewrite <- (encode_length (model w) data), Ee; reflexivity).
  rewrite (Hi E0), Nat.eqb_refl. reflexivity.
Qed.

Lemma test_loop_run (batches : list tensor) :
  forall (i : nat) (acc : R) (w : World),
    Forall batch_ok batches ->
    VAE_shape (model w) ->
    training (model w) = false ->
    grad_enabled w = false ->
    (i = 0%nat ->
     forall b rest, batches = b :: rest -> length b = args_batch_size G) ->
    exists losses : list R,
      Forall2 (fun b l => eval_loss (model w) b = Ok l) batches losses /\
      for_enumerate (test_batch G) i batches acc w
      = (Ok (acc + sum_list losses), w).
Proof.
  induction batches as [|data rest IH]; intros i acc w Hb Hs Ht Hg Hi.
  - exists []. split; [constructor|]. simpl. unfold ret. do 2 f_equal. lra.
  - inversion Hb as [|? ? Hd Hrest]; subst.
    destruct (test_batch_run i data acc w Hd Hs Ht Hg) as [loss [Hl Hrun]].
    { intros E0. apply (Hi E0 data rest eq_refl). }
    destruct (IH (S i) (acc + loss) w Hrest Hs Ht Hg) as [losses [HF Hfor]].
    { intros E0. discriminate E0. }
    exists (loss :: losses). split; [constructor; assumption|].
    cbn [for_enumerate]. unfold bind at 1. rewrite Hrun, Hfor.
    simpl. do 2 f_equal. lra.
Qed.

Lemma chunks_first {A : Type} (n : nat) (l : list A) (b : list A)
    (rest : list (list A)) :
  chunks n l = b :: rest -> length b = Nat.min n (length l).
Proof.
  unfold chunks. destruct l as [|a l]; simpl; [discriminate|].
  intros E. injection E as E _. subst b.
  rewrite length_firstn. reflexivity.
Qed.

(** [test] on a held-out set of images that holds at least one full
    batch. *)
Lemma test_run (epoch : nat) (w : World) :
  VAE_shape (model w) ->
  (0 < args_batch_size G)%nat ->
  (args_batch_size G <= length (test_dataset G))%nat ->
  Forall (fun r => length r = 784%nat) (test_dataset G) ->
  exists losses : list R,
    Forall2 (fun b l => eval_loss (model w) b = Ok l)
            (test_batches G w) losses /\
    test G epoch w
    = (Ok tt,
       set_stdout
         (stdout w
          ++ [TestSummary (sum_list losses
                           / INR (length (test_dataset G)))])
         (set_grad_enabled (grad_enabled w) (test_world G w))).
Proof.
  intros Hs Hbs Hn Hd.
  pose proof (randperm_perm (rng w) (length (test_dataset G))) as Hp.
  assert (Hok : Forall batch_ok (test_batches G w)).
  { unfold test_batches. apply batches_of_ok; auto. }
  assert (Hsw : VAE_shape (model (test_world G w))) by exact Hs.
  assert (Hfirst : forall b rest,
             test_batches G w = b :: rest -> length b = args_batch_size G).
  { intros b rest E. unfold test_batches, batches_of in E.
    apply chunks_first in E. rewrite E, length_map.
    rewrite <- (Permutation_length Hp), length_seq. lia. }
  destruct (test_loop_run (test_batches G w) 0 0 (test_world G w)
              Hok Hsw eq_refl eq_refl (fun _ => Hfirst))
    as [losses [HF Hfor]].
  exists losses. split; [exact HF|].
  unfold test, bind at 1, model_eval. unfold bind at 1, no_grad.
  unfold bind at 1, loader_iter.
  unfold test_batches, test_world in Hfor.
  cbn [set_grad_enabled set_model rng].
  destruct (randperm (rng w) (length (test_dataset G))) as [perm g'] eqn:Er.
  cbn [fst snd] in Hfor.
  unfold set_rng, set_grad_enabled, set_model in Hfor |- *.
  cbn [model grads optimizer rng grad_enabled train_losses stdout tape]
    in Hfor |- *.
  rewrite Hfor.
  unfold bind, lift.
  rewrite py_div_pos by lia.
  unfold print, set_stdout, test_world, set_rng, set_grad_enabled,
    set_model.
  rewrite Er.
  cbn [model grads optimizer rng grad_enabled train_losses stdout tape snd].
  rewrite Rplus_0_l. reflexivity.
Qed.

(** [test] on a held-out set that does not fill one batch. *)
Lemma test_short_run (epoch : nat) (w : World) :
  VAE_shape (model w) ->
  (0 < length (test_dataset G) < args_batch_size G)%nat ->
  Forall (fun r => length r = 784%nat) (test_dataset G) ->
  test G epoch w
  = (Raise RuntimeError,
     set_grad_enabled (grad_enabled w) (test_world G w)).
Proof.
  intros Hs [Hpos Hlt] Hd.
  pose proof (randperm_perm (rng w) (length (test_dataset G))) as Hp.
  assert (Hbs : (0 < args_batch_size G)%nat) by lia.
  assert (Hok : Forall batch_ok (test_batches G w)).
  { unfold test_batches. apply batches_of_ok; auto. }
  assert (Hb : exists data, test_batches G w = [data] /\
                            length data = length (test_dataset G)).
  { unfold test_batches, batches_of, chunks in *.
    pose proof (Permutation_length Hp) as Hl. rewrite length_seq in Hl.
    remember (map (fun i => nth i (test_dataset G) [])
                (fst (randperm (rng w) (length (test_dataset G))))) as l.
    assert (Hll : length l = length (test_dataset G))
      by (subst l; rewrite length_map; lia).
    destruct l as [|a l']; [simpl in Hll; lia|].
    cbn [length chunks_fuel].
    rewrite skipn_all2 by (rewrite Hll; lia).
    rewrite firstn_all2 by (rewrite Hll; lia).
    exists (a :: l'). split; [|exact Hll].
    destruct (length l'); reflexivity. }
  destruct Hb as [data [Eb Hlen]].
  assert (Hdata : batch_ok data).
  { rewrite Eb in Hok. inversion Hok; auto. }
  destruct (eval_loss_ok (model w) data Hdata Hs) as [loss Hloss].
  unfold test_world.
  unfold test, bind at 1, model_eval. unfold bind at 1, no_grad.
  unfold bind at 1, loader_iter.
  unfold test_batches in Eb.
  cbn [set_grad_enabled set_model rng].
  destruct (randperm (rng w) (length (test_dataset G))) as [perm g'] eqn:Er.
  cbn [fst] in Eb. rewrite Eb.
  cbn [for_enumerate]. unfold bind at 1, test_batch, bind at 1.
  match goal with |- context [model_call data ?w1] =>
    rewrite (model_call_eval data w1 Hdata eq_refl eq_refl) end.
  unfold set_rng, set_grad_enabled, set_model.
  cbn [model grads optimizer rng grad_enabled train_losses stdout tape].
  unfold eval_loss in Hloss.
  change (encode (set_training false (model w)) data)
    with (encode (model w) data).
  change (decode (set_training false (model w)))
    with (decode (model w)).
  destruct (encode (model w) data) as [mu logvar] eqn:Ee. cbn [fst snd].
  unfold bind at 1, lift. rewrite Hloss.
  pose proof (decode_shape (model w) mu Hs) as Hr.
  unfold bind at 1. cbn [Nat.eqb].
  rewrite (concat_length_shape _ _ _ Hr).
  replace (length mu) with (length data)
    by (rewrite <- (encode_length (model w) data), Ee; reflexivity).
  destruct (Nat.eqb_spec (length data * 784) (args_batch_size G * 784))
    as [E | _]; [lia|].
  reflexivity.
Qed.

(** C6, as the program has it.  An evaluation pass over a held-out set of
    images.  When the set holds at least [args.batch_size] images, [test]
    returns: no forward pass of the pass draws noise (the generator is
    left where the shuffle of the loader has left it, and the loss of every
    batch is that of the reconstruction decoded from the mean, which is
    the loss that the model gives in the mode in which [test] leaves it),
    no forward pass records a graph, also when gradient tracking is on
    before the pass, and it is on after the pass if it was on before; the
    losses of the batches, which hold every image of the set once, are
    added up, and the value reported is their sum divided by the number of
    images of the set.  When the set is not empty and holds fewer than
    [args.batch_size] images, [test] raises at the first batch and reports
    nothing; no noise is drawn and no graph recorded there either. *)
Theorem test_reports_loss_per_example (epoch : nat) (w : World) :
  VAE_shape (model w) ->
  Forall (fun r => length r = 784%nat) (test_dataset G) ->
  (0 < length (test_dataset G))%nat ->
  (0 < args_batch_size G)%nat ->
  ((args_batch_size G <= length (test_dataset G))%nat ->
   exists (w' : World) (losses : list R),
     test G epoch w = (Ok tt, w') /\
     stdout w'
     = stdout w
       ++ [TestSummary (sum_list losses / INR (length (test_dataset G)))] /\
     Forall2 (fun b l =>
                eval_loss (model w) b = Ok l /\
                forall g : Rng, batch_loss (model w') b g = Ok l)
             (test_batches G w) losses /\
     Permutation (test_dataset G) (concat (test_batches G w)) /\
     rng w' = snd (randperm (rng w) (length (test_dataset G))) /\
     tape w' = tape w /\
     grad_enabled w' = grad_enabled w /\
     training (model w') = false /\
     parameters (model w') = parameters (model w) /\
     grads w' = grads w /\
     optimizer w' = optimizer w /\
     train_losses w' = train_losses w)
  /\
  ((length (test_dataset G) < args_batch_size G)%nat ->
   exists w' : World,
     test G epoch w = (Raise RuntimeError, w') /\
     stdout w' = stdout w /\
     rng w' = snd (randperm (rng w) (length (test_dataset G))) /\
     tape w' = tape w /\
     grad_enabled w' = grad_enabled w).
Proof.
  intros Hs Hd Hpos Hbs. split.
  - intros Hn.
    pose proof (randperm_perm (rng w) (length (test_dataset G))) as Hp.
    assert (Hok : Forall batch_ok (test_batches G w)).
    { unfold test_batches. apply batches_of_ok; auto. }
    destruct (test_run epoch w Hs Hbs Hn Hd) as [losses [HF Hrun]].
    assert (HF' : Forall2
                    (fun b l =>
                       eval_loss (model w) b = Ok l /\
                       forall g : Rng,
                         batch_loss (set_training false (model w)) b g
                         = Ok l)
                    (test_batches G w) losses).
    { clear Hrun. induction HF as [|b l bs ls E _ IH]; constructor.
      - split; [exact E|]. intros g.
        inversion Hok as [|? ? Hb _]; subst.
        rewrite (batch_loss_inference (set_training false (model w)) b g
                   Hb eq_refl).
        exact E.
      - apply IH. inversion Hok; assumption. }
    eexists. exists losses. split; [exact Hrun|].
    split; [reflexivity|]. split; [exact HF'|].
    split; [unfold test_batches; apply batches_of_concat; auto|].
    cbn [rng tape grad_enabled model grads optimizer train_losses
         set_stdout set_grad_enabled test_world set_rng set_model].
    repeat split; auto.
  - intros Hlt.
    rewrite (test_short_run epoch w Hs (conj Hpos Hlt) Hd).
    eexists. split; [reflexivity|].
    cbn [stdout rng tape grad_enabled set_grad_enabled test_world set_rng
         set_model].
    repeat split; auto.
Qed.

End Evaluation.

Lemma example_test_size :
  (args_batch_size example_globals <= length (test_dataset example_globals))%nat.
Proof. simpl. lia. Qed.

Lemma example_test_nonempty :
  (0 < length (test_dataset example_globals))%nat.
Proof. simpl. lia. Qed.

Lemma test_reports_example :
  exists (w' : @World example_substrate) (losses : list R),
    @test example_substrate example_globals 1 example_world = (Ok tt, w') /\
    @stdout example_substrate w'
    = [TestSummary (sum_list losses / INR 16)] /\
    length losses = 4%nat /\
    @tape example_substrate w' = [].
Proof.
  destruct (proj1 (@test_reports_loss_per_example example_substrate
                     example_globals 1 example_world (zero_model_shape true)
                     example_dataset_rows example_test_nonempty
                     example_batch_size) example_test_size)
    as [w' [losses [Hrun [Hs [HF [_ [_ [Ht _]]]]]]]].
  exists w', losses. split; [exact Hrun|]. split; [exact Hs|].
  split; [|exact Ht].
  apply Forall2_length in HF. rewrite <- HF. reflexivity.
Defined.

Lemma short_test_set :
  (0 < length (test_dataset short_globals) < args_batch_size short_globals)%nat.
Proof. simpl. lia. Qed.

Lemma short_test_rows :
  Forall (fun r => length r = 784%nat) (test_dataset short_globals).
Proof. apply (zeros_shape 2 784). Qed.

(** C6, as the specification states it, fails: on a held-out set of two
    images, with batches of four, the loss over the set is there to be
    accumulated and divided by two, and the evaluation pass raises and
    reports no value. *)
Lemma test_reports_nothing_on_short_set :
  exists (w' : @World example_substrate) (loss : R),
    eval_loss (zero_model false)
      (test_dataset short_globals) = Ok loss /\
    @test example_substrate short_globals 1 example_world
    = (Raise RuntimeError, w') /\
    test_reports (@stdout example_substrate w') = [].
Proof.
  destruct (eval_loss_ok (zero_model false)
              (test_dataset short_globals)
              (conj (proj1 short_test_set) short_test_rows)
              (zero_model_shape false)) as [loss Hloss].
  eexists. exists loss. split; [exact Hloss|].
  split.
  - apply (@test_short_run example_substrate short_globals 1 example_world
             (zero_model_shape true) short_test_set short_test_rows).
  - reflexivity.
Qed.

(** ** An epoch whose summary is not the mean of its entries *)

Lemma dot_zero_l (n : nat) (r : list R) : dot (repeat 0 n) r = 0.
Proof.
  unfold dot. revert r. induction n as [|n IH]; intros [|a r]; simpl; auto.
  rewrite IH. lra.
Qed.

(** A layer with zero weights returns its bias on every row. *)
Lemma linear_zero_weights (n_in n_out : nat) (b : R) (t : tensor) :
  linear {| weight := zeros n_out n_in; bias := repeat b n_out |} t
  = map (fun _ => repeat b n_out) t.
Proof.
  unfold linear, zeros. cbn [weight bias]. apply map_ext. intros r.
  rewrite map2_repeat, dot_zero_l, Rplus_0_l. reflexivity.
Qed.

Lemma sum_list_repeat (v : R) (n : nat) : sum_list (repeat v n) = INR n * v.
Proof.
  induction n as [|n IH]; [simpl; lra|].
  cbn [repeat sum_list fold_right]. fold (sum_list (repeat v n)).
  rewrite IH, S_INR. lra.
Qed.

Lemma encode_bias_model (x : list R) :
  encode bias_model [x] = (zeros 1 ZDIMS, zeros 1 ZDIMS).
Proof.
  unfold encode, bias_model. cbn [fc1 fc21 fc22]. unfold zero_layer.
  rewrite !linear_zero_weights. reflexivity.
Qed.

Lemma decode_bias_model (z : tensor) :
  decode bias_model z = map (fun _ => repeat (sigmoid1 1) 784) z.
Proof.
  unfold decode, bias_model. cbn [fc3 fc4]. unfold zero_layer.
  rewrite !linear_zero_weights. unfold relu, sigmoid, tmap.
  rewrite !map_map. apply map_ext. intros _. apply map_repeat.
Qed.

Lemma one_minus_sigmoid1 (x : R) : 1 - sigmoid1 x = exp (- x) * sigmoid1 x.
Proof.
  unfold sigmoid1. pose proof (exp_pos (- x)). field. lra.
Qed.

Lemma ln_one_minus_sigmoid1 (x : R) :
  ln (1 - sigmoid1 x) = - x + ln (sigmoid1 x).
Proof.
  rewrite one_minus_sigmoid1, ln_mult, ln_exp.
  - reflexivity.
  - apply exp_pos.
  - apply sigmoid1_open_unit.
Qed.

Lemma bias_model_shape : VAE_shape bias_model.
Proof. repeat split; try apply zeros_shape; apply repeat_length. Qed.

Lemma sigmoid1_1_half : 1 / 2 < sigmoid1 1.
Proof.
  unfold sigmoid1. pose proof (exp_pos (-1)) as Hp.
  pose proof exp_minus_1_half as Hh.
  apply Rmult_lt_reg_r with (1 + exp (-1)); [lra|].
  unfold Rdiv at 2. rewrite Rmult_assoc, Rinv_l by lra. lra.
Qed.

(** At the output of the model the logarithm of the loss is not bounded. *)
Lemma bce_log_sigmoid1_1 :
  bce_log (sigmoid1 1) = ln (sigmoid1 1) /\
  bce_log (1 - sigmoid1 1) = ln (1 - sigmoid1 1).
Proof.
  pose proof sigmoid1_1_half as Hs. pose proof exp_minus_100_half as H100.
  split; apply bce_log_ln; [lra|].
  rewrite one_minus_sigmoid1.
  replace (exp (- (1))) with (exp (-1)) by (f_equal; lra).
  replace (-100) with (-99 + -1) by lra. rewrite exp_plus.
  pose proof (exp_pos (-1)) as Hp.
  assert (H99 : exp (-99) < exp (-1)) by (apply exp_increasing; lra).
  pose proof exp_minus_1_half as Hh.
  rewrite (Rmult_comm (exp (-99))).
  apply Rmult_le_compat_l; lra.
Qed.

(** The loss of one image all of whose intensities are [c]. *)
Lemma batch_loss_bias_model (c : R) (g : nat) :
  @batch_loss example_substrate bias_model [repeat c 784] g
  = Ok (INR 784 * - (c * ln (sigmoid1 1) + (1 - c) * ln (1 - sigmoid1 1))).
Proof.
  assert (Hd : batch_ok [repeat c 784]).
  { split; [simpl; lia|]. constructor; [apply repeat_length | constructor]. }
  unfold batch_loss.
  rewrite (@forward_batch example_substrate bias_model _ g Hd).
  rewrite encode_bias_model. cbn [fst snd].
  destruct (@reparameterize_out_shape example_substrate bias_model 1 ZDIMS
              (zeros 1 ZDIMS) (zeros 1 ZDIMS) g
              (zeros_shape 1 ZDIMS) (zeros_shape 1 ZDIMS)) as [Hz _].
  rewrite (loss_function_batch bias_model _ _ _ _ Hd bias_model_shape Hz).
  rewrite (KLD_zeros 1 ZDIMS), decode_bias_model.
  destruct (fst (@reparameterize example_substrate bias_model
                   (zeros 1 ZDIMS) (zeros 1 ZDIMS) g)) as [|z0 [|z1 zs]];
    try discriminate Hz.
  cbn [map]. unfold bce_sum, tmap2, tsum. cbn [map2 concat].
  rewrite map2_repeat, app_nil_r, sum_list_repeat.
  destruct bce_log_sigmoid1_1 as [-> ->].
  f_equal. lra.
Qed.

Lemma contrast_rows :
  Forall (fun r => length r = 784%nat) (train_dataset contrast_globals).
Proof. repeat constructor; apply repeat_length. Qed.

Lemma contrast_batch_size : (0 < args_batch_size contrast_globals)%nat.
Proof. simpl. lia. Qed.

Lemma contrast_log_interval : args_log_interval contrast_globals <> 0%Z.
Proof. discriminate. Qed.

Lemma contrast_batches :
  @train_batches example_substrate contrast_globals contrast_world
  = [[repeat 0 784]; [repeat 1 784]].
Proof. reflexivity. Qed.

(** The two entries that the epoch records. *)
Lemma contrast_entries :
  @entries_of_epoch example_substrate contrast_globals 1
    (@train_batches example_substrate contrast_globals contrast_world)
    (@train_start example_substrate contrast_globals contrast_world)
  = [INR 784 * - ln (1 - sigmoid1 1); INR 784 * - ln (sigmoid1 1)].
Proof.
  rewrite contrast_batches. unfold entries_of_epoch, entries_from.
  cbn [worlds_of_epoch map2].
  assert (Hd : batch_ok [repeat 0 784]).
  { split; [simpl; lia|]. constructor; [apply repeat_length | constructor]. }
  destruct (@train_batch_run example_substrate contrast_globals 1 0
              [repeat 0 784] 0
              (@train_start example_substrate contrast_globals contrast_world)
              Hd bias_model_shape eq_refl contrast_log_interval)
    as [loss [_ Hrun]].
  { unfold len_loader. simpl. lia. }
  rewrite Hrun. cbn [snd]. unfold entry.
  cbn [model rng train_start set_rng set_model contrast_world].
  change (fst (adam_step _ _ (set_training true bias_model))) with bias_model.
  change (set_training true bias_model) with bias_model.
  rewrite !batch_loss_bias_model. cbn [value length].
  f_equal; [|f_equal]; simpl INR; field_simplify; try lra.
Qed.

(** On the black and the white image the summary of the epoch is the entry
    of the second batch; the mean of the two entries is 392 above it. *)
Lemma train_summary_example :
  exists (w' : @World example_substrate) (v : R),
    @train example_substrate contrast_globals 1 contrast_world = (Ok tt, w') /\
    last (@stdout example_substrate w') (TestSummary 0) = TrainSummary 1 v /\
    last (@train_losses example_substrate w') 0 = v /\
    length (@train_losses example_substrate w') = 2%nat /\
    sum_list (@train_losses example_substrate w')
    / INR (length (@train_losses example_substrate w'))
    = v + 392.
Proof.
  assert (Hne : train_dataset contrast_globals <> []) by discriminate.
  destruct (@train_summary_is_last_batch example_substrate contrast_globals
              1 contrast_world
              contrast_batch_size contrast_rows contrast_log_interval
              bias_model_shape eq_refl Hne)
    as [w' [logs [front [d [ws [wl [loss [Hrun [Hs [_ [_ [_ Hl]]]]]]]]]]]].
  destruct (@train_run example_substrate contrast_globals 1 contrast_world
              contrast_batch_size contrast_rows contrast_log_interval
              bias_model_shape eq_refl)
    as [w2 [logs2 [Hrun2 [Hl2 _]]]].
  rewrite Hrun in Hrun2. injection Hrun2 as <-.
  rewrite contrast_entries in Hl2. cbn [train_losses contrast_world app] in Hl2.
  exists w', (loss / INR (length d)).
  split; [exact Hrun|]. split; [rewrite Hs, app_assoc; apply last_last|].
  split; [exact Hl|].
  rewrite <- Hl, Hl2. split; [reflexivity|].
  cbn [last length sum_list fold_right].
  rewrite ln_one_minus_sigmoid1.
  replace (INR 784) with 784 by (simpl; lra).
  replace (INR 2) with 2 by (simpl; lra).
  lra.
Defined.

(** ** How the program starts and where [test] stops *)

Section Start.
Context `{Substrate}.
Variable G : Globals.

(** The loop of [__main__] starts with parameters of the shapes of [VAE()],
    in training mode, with gradient tracking on and an empty history. *)
Lemma initial_world_ready :
  VAE_shape (model (initial_world G)) /\
  training (model (initial_world G)) = true /\
  grad_enabled (initial_world G) = true /\
  train_losses (initial_world G) = [].
Proof.
  unfold initial_world.
  pose proof (init_parameters_shape (manual_seed (args_seed G))) as Hs.
  pose proof (init_parameters_training (manual_seed (args_seed G))) as Ht.
  destruct (init_parameters (manual_seed (args_seed G))) as [m g'].
  cbn [model grad_enabled train_losses fst] in *. auto.
Qed.

(** X15.  On a held-out set that does not fill one batch, [test] raises at its
    first batch, where the reconstructions are viewed as [args.batch_size]
    images, and reports nothing. *)
Lemma test_raises_on_short_set (epoch : nat) (w : World) :
  VAE_shape (model w) ->
  (0 < length (test_dataset G) < args_batch_size G)%nat ->
  Forall (fun r => length r = 784%nat) (test_dataset G) ->
  exists w' : World,
    test G epoch w = (Raise RuntimeError, w') /\ stdout w' = stdout w.
Proof.
  intros Hs Hn Hd. rewrite (test_short_run G epoch w Hs Hn Hd).
  eexists. split; reflexivity.
Qed.

End Start.

(** ** Examples of the loss and of the decoder *)

Lemma full_shape (n d : nat) (c : R) : shape n d (full n d c).
Proof.
  unfold full. split.
  - apply repeat_length.
  - apply Forall_forall. intros r Hr. apply repeat_spec in Hr. subst.
    apply repeat_length.
Qed.

Lemma full_all (P : R -> Prop) (n d : nat) (c : R) :
  P c -> Forall (Forall P) (full n d c).
Proof.
  intros Hc. unfold full. apply Forall_forall. intros r Hr.
  apply repeat_spec in Hr. subst r. apply Forall_forall. intros v Hv.
  apply repeat_spec in Hv. subst v. exact Hc.
Qed.

Lemma full_none (P : R -> Prop) (n d : nat) (c : R) :
  ~ P c -> ~ Forall (Forall P) (full (S n) (S d) c).
Proof.
  intros Hc HF. unfold full in HF. cbn [repeat] in HF.
  inversion HF as [|? ? Hrow _]; subst.
  inversion Hrow as [|? ? Hv _]; subst. contradiction.
Qed.

Lemma at2_full (n d : nat) (c : R) (i j : nat) :
  (i < n)%nat -> (j < d)%nat -> at2 (full n d c) i j = c.
Proof.
  intros Hi Hj. unfold at2, full.
  rewrite (nth_indep _ [] (repeat c d)) by (rewrite repeat_length; lia).
  rewrite nth_repeat_default.
  rewrite (nth_indep _ 0 c) by (rewrite repeat_length; lia).
  apply nth_repeat_default.
Qed.

(** The sum of the log-likelihood on tensors all of whose elements are the
    same. *)
Lemma log_likelihood_with_full (log : R -> R) (N D : nat) (p x : R) :
  log_likelihood_with log N D (full N D p) (full N D x)
  = INR N * (INR D * (x * log p + (1 - x) * log (1 - p))).
Proof.
  unfold log_likelihood_with. rewrite <- !Sigma_const.
  apply Sigma_ext. intros n Hn. apply Sigma_ext. intros d Hd.
  rewrite !at2_full by assumption. reflexivity.
Qed.

Lemma KL_term_zeros (N Zd : nat) : KL_term N Zd (zeros N Zd) (zeros N Zd) = 0.
Proof.
  rewrite <- (KLD_Sigma N Zd) by apply zeros_shape. apply KLD_zeros.
Qed.

Lemma half_in_range :
  exp (-100) <= 1 / 2 <= 1 - exp (-100).
Proof. pose proof exp_minus_100_half. lra. Qed.

Lemma loss_function_example :
  loss_function (full 1 784 (1 / 2)) (zeros 1 784)
    (zeros 1 ZDIMS) (zeros 1 ZDIMS)
  = Ok (- (log_likelihood 1 784 (full 1 784 (1 / 2)) (zeros 1 784)
           + KL_term 1 ZDIMS (zeros 1 ZDIMS) (zeros 1 ZDIMS)))
  /\
  loss_function (full 1 784 2) (zeros 1 784)
    (zeros 1 ZDIMS) (zeros 1 ZDIMS)
  = Raise RuntimeError.
Proof.
  split.
  - apply (proj1 (proj2
             (loss_function_is_minus_ELBO 1 ZDIMS
                (full 1 784 (1 / 2)) (zeros 1 784)
                (zeros 1 ZDIMS) (zeros 1 ZDIMS)
                (full_shape 1 784 (1 / 2)) (zeros_shape 1 784)
                (zeros_shape 1 ZDIMS) (zeros_shape 1 ZDIMS)))).
    apply full_all. exact half_in_range.
  - apply (proj2 (proj2
             (loss_function_is_minus_ELBO 1 ZDIMS
                (full 1 784 2) (zeros 1 784)
                (zeros 1 ZDIMS) (zeros 1 ZDIMS)
                (full_shape 1 784 2) (zeros_shape 1 784)
                (zeros_shape 1 ZDIMS) (zeros_shape 1 ZDIMS)))).
    apply (full_none (fun v => 0 <= v <= 1) 0 783 2). lra.
Defined.

Lemma bce_log_faint : bce_log (exp (-200)) = -100.
Proof.
  unfold bce_log. pose proof (exp_pos (-200)) as Hp.
  destruct (Rlt_dec 0 (exp (-200))) as [_ | Hn]; [|contradiction].
  rewrite ln_exp. apply Rmax_right. lra.
Qed.

(** C1, as the specification states it, fails: on a white image and a
    reconstruction all of whose elements are [exp (-200)], with means and
    log-variances 0, [loss_function] returns 78400, and the negation of the
    ELBO of the natural logarithm is 156800. *)
Lemma loss_function_bounds_the_logarithm :
  loss_function (full 1 784 (exp (-200))) (full 1 784 1)
    (zeros 1 ZDIMS) (zeros 1 ZDIMS)
  = Ok 78400
  /\
  - (log_likelihood 1 784 (full 1 784 (exp (-200))) (full 1 784 1)
     + KL_term 1 ZDIMS (zeros 1 ZDIMS) (zeros 1 ZDIMS))
  = 156800.
Proof.
  assert (H784 : INR 784 = 784) by (rewrite INR_IZR_INZ; reflexivity).
  assert (H1 : INR 1 = 1) by reflexivity.
  split.
  - rewrite (loss_function_shape 1 ZDIMS)
      by (try apply full_shape; try apply zeros_shape;
          apply full_all; pose proof (exp_pos (-200));
          pose proof (exp_increasing (-200) 0 ltac:(lra)) as Hi;
          rewrite exp_0 in Hi; lra).
    f_equal. unfold bounded_ELBO, bounded_log_likelihood.
    rewrite log_likelihood_with_full, KL_term_zeros, bce_log_faint, H784, H1.
    lra.
  - unfold log_likelihood.
    rewrite log_likelihood_with_full, KL_term_zeros, ln_exp, H784, H1.
    lra.
Qed.

(** The generation step decodes 64 latent vectors drawn from the standard
    normal distribution. *)
Lemma generate_range `{Substrate} (w : World) :
  exists out : tensor,
    fst (generate w) = Ok out /\
    length out = 64%nat /\
    Forall (Forall (fun v => 0 < v < 1)) out /\
    (VAE_shape (model w) -> shape 64 784 out).
Proof.
  unfold generate, no_grad. cbn [set_grad_enabled rng model].
  pose proof (randn_shape 64 20 (rng w)) as [Hl _].
  destruct (randn 64 20 (rng w)) as [sample g'].
  cbn [fst] in *. exists (decode (model w) sample).
  split; [reflexivity|].
  assert (Hlen : length (decode (model w) sample) = 64%nat).
  { unfold decode, sigmoid, relu.
    rewrite tmap_length, linear_length, tmap_length, linear_length.
    exact Hl. }
  split; [exact Hlen|]. split; [apply decode_open_unit|].
  intros Hs. pose proof (decode_shape (model w) sample Hs) as Hd.
  rewrite Hl in Hd. exact Hd.
Qed.

(** C3, as the program has it.  In exact arithmetic every element of the
    output of the decoder lies strictly between 0 and 1, because the final
    activation is a sigmoid; so do the 64 samples of the generation step.
    In binary32, the arithmetic of the tensors, the sigmoid is rounded and
    saturates: on a finite latent vector, the decoder with the bias 100 on
    its output units returns exactly 1.0 in every element, and with the bias
    -100 exactly 0.0. *)
Theorem decode_range :
  (forall (self : VAE) (z : tensor),
     Forall (Forall (fun v => 0 < v < 1)) (decode self z))
  /\
  (forall (S : Substrate) (w : @World S),
     exists out : tensor,
       fst (generate w) = Ok out /\ length out = 64%nat /\
       Forall (Forall (fun v => 0 < v < 1)) out)
  /\
  Forall (Forall (fun v => Binary32.is_finite v = true)) Binary32.z_zero
  /\
  Binary32.decode Binary32.exp32 Binary32.fc3_zero
    (Binary32.fc4_bias (Binary32.of_Z 100)) Binary32.z_zero
  = [repeat Binary32.one 784]
  /\
  Binary32.decode Binary32.exp32 Binary32.fc3_zero
    (Binary32.fc4_bias (Binary32.of_Z (-100))) Binary32.z_zero
  = [repeat Binary32.zero 784].
Proof.
  split; [exact decode_open_unit|].
  split.
  { intros S w. destruct (@generate_range S w) as [out [H1 [H2 [H3 _]]]].
    exists out. auto. }
  split; [repeat constructor|].
  split; [exact decode32_saturated | exact decode32_saturated_low].
Qed.

(** C3, as the specification states it, fails in binary32.  On the latent
    vector 0, a decoder whose parameters are all finite (output bias 100)
    returns 784 values none of which is below 1.0, and another (output bias
    -100) returns 784 values none of which is above 0.0.  With weights as
    [VAE()] may draw them, the decoder returns 784 values none of which is
    below 1.0 on the finite latent vector of components [2^20]. *)
Lemma decode32_saturates :
  Forall (Forall (fun v => Binary32.is_finite v = true)) Binary32.z_zero
  /\
  Forall (Forall (fun v => Binary32.ltb v Binary32.one = false))
    (Binary32.decode Binary32.exp32 Binary32.fc3_zero
       (Binary32.fc4_bias (Binary32.of_Z 100)) Binary32.z_zero)
  /\
  Forall (Forall (fun v => Binary32.ltb Binary32.zero v = false))
    (Binary32.decode Binary32.exp32 Binary32.fc3_zero
       (Binary32.fc4_bias (Binary32.of_Z (-100))) Binary32.z_zero)
  /\
  length (concat (Binary32.decode Binary32.exp32 Binary32.fc3_zero
                    (Binary32.fc4_bias (Binary32.of_Z 100))
                    Binary32.z_zero)) = 784%nat
  /\
  Forall (Forall (fun v => Binary32.is_finite v = true)) Binary32.z_large
  /\
  Forall (Forall (fun v => Binary32.ltb v Binary32.one = false))
    (Binary32.decode Binary32.exp32 Binary32.fc3_eighths
       Binary32.fc4_thirty_seconds Binary32.z_large).
Proof.
  assert (Hones : Forall (Forall (fun v => Binary32.ltb v Binary32.one
                                           = false))
                    [repeat Binary32.one 784]).
  { constructor; [|constructor].
    apply Forall_forall. intros v Hv. apply repeat_spec in Hv. subst v.
    reflexivity. }
  split; [repeat constructor|].
  rewrite decode32_saturated, decode32_saturated_low,
    decode32_saturated_large.
  split; [exact Hones|]. split; [|split; [|split; [|exact Hones]]].
  - constructor; [|constructor].
    apply Forall_forall. intros v Hv. apply repeat_spec in Hv. subst v.
    reflexivity.
  - cbn [concat]. rewrite app_nil_r. apply repeat_length.
  - repeat constructor.
Qed.

(** ** The forward pass on a batch *)

Lemma chunks_fuel_exact (d : nat) :
  (0 < d)%nat ->
  forall (fuel N : nat) (l : list R),
    length l = (N * d)%nat -> (N <= fuel)%nat ->
    shape N d (chunks_fuel fuel d l).
Proof.
  intros Hd. induction fuel as [|fuel IH]; intros N l Hl Hf.
  - assert (N = 0%nat) by lia. subst N. split; [reflexivity | constructor].
  - destruct l as [|a l'].
    + cbn [length] in Hl. assert (N = 0%nat) by nia. subst N.
      split; [reflexivity | constructor].
    + destruct N as [|N']; [cbn [length] in Hl; lia|].
      cbn [chunks_fuel].
      assert (Hs : length (skipn d (a :: l')) = (N' * d)%nat)
        by (rewrite length_skipn, Hl; lia).
      destruct (IH N' (skipn d (a :: l')) Hs ltac:(lia)) as [IH1 IH2].
      split.
      * cbn [length]. rewrite IH1. reflexivity.
      * constructor; [|exact IH2].
        apply firstn_length_le. rewrite Hl. lia.
Qed.

(** A tensor of [N * 784] values is viewed as [N] rows of 784, the values
    in the order they had. *)
Lemma view784_regroups (N : nat) (x : tensor) :
  length (concat x) = (N * 784)%nat ->
  view784 x = Ok (chunks 784 (concat x)) /\
  shape N 784 (chunks 784 (concat x)) /\
  concat (chunks 784 (concat x)) = concat x.
Proof.
  intros Hl. unfold view784. rewrite Hl, Nat.Div0.mod_mul.
  split; [reflexivity|]. split.
  - unfold chunks. apply chunks_fuel_exact; [lia | exact Hl | nia].
  - unfold chunks. apply chunks_fuel_concat_inv; lia.
Qed.

Section ForwardPass.
Context `{Substrate}.

(** X1.  A model of the shapes of [VAE()] takes a batch of [N] images, given as
    any tensor of [N * 784] values, to [N] reconstructions of 784 values
    and [N] means and log-variances of [ZDIMS] values, in training mode as
    in inference mode; in inference mode the reconstructions are the
    decoder's output on the means and the generator is left as it is. *)
Theorem forward_shapes (self : VAE) (x : tensor) (N : nat) (g : Rng) :
  VAE_shape self ->
  (0 < N)%nat ->
  length (concat x) = (N * 784)%nat ->
  exists (recon mu logvar : tensor) (g' : Rng),
    forward self x g = (Ok (recon, mu, logvar), g') /\
    shape N 784 recon /\
    shape N ZDIMS mu /\
    shape N ZDIMS logvar /\
    (training self = false -> recon = decode self mu /\ g' = g).
Proof.
  intros Hs _ Hl.
  destruct (view784_regroups N x Hl) as [Hv [[Hn Hrows] _]].
  unfold forward. rewrite Hv.
  set (x' := chunks 784 (concat x)) in *.
  destruct (encode_shape self x' Hs) as [Hmu Hlv]. rewrite Hn in Hmu, Hlv.
  destruct (encode self x') as [mu logvar]. cbn [fst snd] in Hmu, Hlv.
  pose proof (reparameterize_out_shape self N ZDIMS mu logvar g Hmu Hlv)
    as Hz.
  assert (Hm : training self = false ->
               reparameterize self mu logvar g = (mu, g)).
  { intros Ht. unfold reparameterize. rewrite Ht. reflexivity. }
  destruct (reparameterize self mu logvar g) as [z g'].
  cbn [fst] in Hz.
  exists (decode self z), mu, logvar, g'.
  split; [reflexivity|]. split.
  - pose proof (decode_shape self z Hs) as Hd.
    destruct Hz as [Hz _]. rewrite Hz in Hd. exact Hd.
  - split; [exact Hmu|]. split; [exact Hlv|].
    intros Ht. specialize (Hm Ht). injection Hm as -> ->. auto.
Qed.

(** X2.  On a tensor whose number of values is not a multiple of 784 the forward
    pass raises at its first step, [x.view(-1, 784)], before any noise is
    drawn: the call of the model leaves the state of the program, generator
    included, as it was.  [loss_function] raises on such a target too. *)
Theorem forward_rejects_partial_images (self : VAE) (x : tensor) (g : Rng) :
  (length (concat x) mod 784 <> 0)%nat ->
  forward self x g = (Raise RuntimeError, g) /\
  (forall w : World, model_call x w = (Raise RuntimeError, w)) /\
  (forall recon mu logvar : tensor,
     loss_function recon x mu logvar = Raise RuntimeError).
Proof.
  intros Hm.
  assert (Hv : view784 x = Raise RuntimeError).
  { unfold view784.
    destruct (Nat.eqb_spec (length (concat x) mod 784) 0) as [E | _];
      [contradiction | reflexivity]. }
  split; [|split].
  - unfold forward. rewrite Hv. reflexivity.
  - intros w. unfold model_call, forward. rewrite Hv.
    rewrite set_rng_same. reflexivity.
  - intros recon mu logvar. unfold loss_function. rewrite Hv. reflexivity.
Qed.

End ForwardPass.

Lemma forward_shapes_example :
  exists (recon mu logvar : tensor) (g' : nat),
    @forward example_substrate (zero_model true) image_28x28 0%nat
    = (Ok (recon, mu, logvar), g') /\
    shape 1 784 recon /\ shape 1 ZDIMS mu /\ shape 1 ZDIMS logvar.
Proof.
  destruct (@forward_shapes example_substrate (zero_model true) image_28x28
              1 0%nat (zero_model_shape true) Nat.lt_0_1 eq_refl)
    as [recon [mu [logvar [g' [Hf [Hr [Hm [Hl _]]]]]]]].
  exists recon, mu, logvar, g'. auto.
Defined.

Lemma forward_rejects_example :
  @forward example_substrate (zero_model true) three_values 0%nat
  = (Raise RuntimeError, 0%nat).
Proof.
  apply (@forward_rejects_partial_images example_substrate (zero_model true)
           three_values 0%nat).
  cbv. discriminate.
Defined.

(** ** The sign of the loss *)

Lemma sum_list_nonpos (l : list R) :
  Forall (fun v => v <= 0) l -> sum_list l <= 0.
Proof.
  induction 1 as [|v l Hv _ IH]; simpl; lra.
Qed.

Lemma sum_list_nonpos_zero (l : list R) :
  Forall (fun v => v <= 0) l -> sum_list l = 0 -> Forall (fun v => v = 0) l.
Proof.
  induction 1 as [|v l Hv Hl IH]; simpl; intros E; constructor.
  - pose proof (sum_list_nonpos l Hl). lra.
  - apply IH. pose proof (sum_list_nonpos l Hl). lra.
Qed.

Lemma Sigma_terms (n : nat) (f : nat -> R) (P : R -> Prop) :
  (forall i, (i < n)%nat -> P (f i)) -> Forall P (map f (seq 0 n)).
Proof.
  intros Hf. apply Forall_map, Forall_forall. intros i Hi.
  apply in_seq in Hi. apply Hf. lia.
Qed.

Lemma Sigma_nonpos (n : nat) (f : nat -> R) :
  (forall i, (i < n)%nat -> f i <= 0) -> Sigma n f <= 0.
Proof.
  intros Hf. rewrite Sigma_sum_list. apply sum_list_nonpos.
  apply (Sigma_terms n f (fun v => v <= 0) Hf).
Qed.

Lemma Sigma_nonpos_zero (n : nat) (f : nat -> R) :
  (forall i, (i < n)%nat -> f i <= 0) -> Sigma n f = 0 ->
  forall i, (i < n)%nat -> f i = 0.
Proof.
  intros Hf E i Hi. rewrite Sigma_sum_list in E.
  apply sum_list_nonpos_zero in E;
    [|apply (Sigma_terms n f (fun v => v <= 0) Hf)].
  rewrite Forall_forall in E. apply E. apply in_map, in_seq. lia.
Qed.

(** One term of the sum of [KLD]. *)
Lemma KL_summand_nonpos (m lv : R) : 1 + lv - m ^ 2 - exp lv <= 0.
Proof.
  pose proof (exp_ineq1_le lv). pose proof (pow2_ge_0 m). lra.
Qed.

Lemma KL_summand_zero (m lv : R) :
  1 + lv - m ^ 2 - exp lv = 0 -> m = 0 /\ lv = 0.
Proof.
  intros E. pose proof (exp_ineq1_le lv) as He.
  pose proof (pow2_ge_0 m) as Hm.
  assert (Hm0 : m ^ 2 = 0) by lra.
  assert (Hl0 : exp lv = 1 + lv) by lra.
  split.
  - destruct (Req_dec m 0) as [E0 | N0]; [exact E0|].
    exfalso. apply (pow_nonzero m 2) in N0. contradiction.
  - destruct (Req_dec lv 0) as [E0 | N0]; [exact E0|].
    pose proof (exp_ineq1 lv N0). lra.
Qed.

Lemma KL_term_nonpos (N Zd : nat) (mu logvar : tensor) :
  KL_term N Zd mu logvar <= 0.
Proof.
  unfold KL_term.
  assert (Sigma N (fun n => Sigma Zd (fun k =>
            1 + at2 logvar n k - at2 mu n k ^ 2 - exp (at2 logvar n k)))
          <= 0); [|lra].
  apply Sigma_nonpos. intros n _. apply Sigma_nonpos. intros k _.
  apply KL_summand_nonpos.
Qed.

Lemma shape_all_zero (N D : nat) (t : tensor) :
  shape N D t ->
  (forall n d, (n < N)%nat -> (d < D)%nat -> at2 t n d = 0) ->
  t = zeros N D.
Proof.
  intros Hs Hz. pose proof Hs as [HN HD]. unfold zeros.
  apply (nth_ext _ _ [] []).
  - rewrite repeat_length. exact HN.
  - intros n Hn. rewrite HN in Hn.
    pose proof (shape_nth N D t n Hs Hn) as Hl.
    rewrite (nth_indep (repeat (repeat 0 D) N) [] (repeat 0 D))
      by (rewrite repeat_length; exact Hn).
    rewrite nth_repeat_default.
    apply (nth_ext _ _ 0 0).
    + rewrite repeat_length. exact Hl.
    + intros d Hd. rewrite Hl in Hd. rewrite nth_repeat_default.
      apply (Hz n d Hn Hd).
Qed.

Lemma tsum_tmap2_nonneg (P Q : R -> Prop) (f : R -> R -> R) :
  (forall u v, P u -> Q v -> 0 <= f u v) ->
  forall a b : tensor,
    Forall (Forall P) a -> Forall (Forall Q) b ->
    0 <= tsum (tmap2 f a b).
Proof.
  intros Hf.
  assert (Hrow : forall r s, Forall P r -> Forall Q s ->
                             0 <= sum_list (map2 f r s)).
  { induction r as [|u r IH]; intros [|v s] Hr Hs; simpl; try lra.
    inversion Hr; inversion Hs; subst.
    pose proof (Hf u v ltac:(assumption) ltac:(assumption)).
    pose proof (IH s ltac:(assumption) ltac:(assumption)). lra. }
  unfold tsum, tmap2.
  induction a as [|r a IH]; intros [|s b] Ha Hb; simpl; try lra.
  inversion Ha; inversion Hb; subst.
  rewrite sum_list_app.
  pose proof (Hrow r s ltac:(assumption) ltac:(assumption)).
  pose proof (IH b ltac:(assumption) ltac:(assumption)). lra.
Qed.

(** X5.  In exact arithmetic the expression that [loss_function] calls
    [KLD] is never positive: it is minus the divergence of the code
    distribution from the prior.  In exact arithmetic, on means and
    log-variances of one shape, it is 0 only where every mean and every
    log-variance is 0.  In binary32 it is 0 elsewhere too: at the mean
    [2^-13] with the log-variance 0 it is exactly +0. *)
Theorem KLD_nonpositive (N Zd : nat) (mu logvar : tensor) :
  shape N Zd mu -> shape N Zd logvar ->
  KLD mu logvar <= 0 /\
  (KLD mu logvar = 0 -> mu = zeros N Zd /\ logvar = zeros N Zd) /\
  Binary32.KLD Binary32.exp32 Binary32.mean_small Binary32.logvar_zero
  = Binary32.zero /\
  Binary32.mean_small <> Binary32.zeros 1 1.
Proof.
  intros Hm Hl. rewrite (KLD_Sigma N Zd mu logvar Hm Hl).
  split; [apply KL_term_nonpos|].
  split; [|split; [vm_compute; reflexivity | discriminate]].
  intros E. unfold KL_term in E.
  assert (E0 : Sigma N (fun n => Sigma Zd (fun k =>
                 1 + at2 logvar n k - at2 mu n k ^ 2
                 - exp (at2 logvar n k))) = 0) by lra.
  assert (Hz : forall n k, (n < N)%nat -> (k < Zd)%nat ->
                 at2 mu n k = 0 /\ at2 logvar n k = 0).
  { intros n k Hn Hk. apply KL_summand_zero.
    pose proof (Sigma_nonpos_zero N
                  (fun n => Sigma Zd (fun k =>
                     1 + at2 logvar n k - at2 mu n k ^ 2
                     - exp (at2 logvar n k)))) as Hrow.
    cbv beta in Hrow.
    assert (Erow : Sigma Zd (fun k =>
                     1 + at2 logvar n k - at2 mu n k ^ 2
                     - exp (at2 logvar n k)) = 0).
    { apply Hrow; [|exact E0 | exact Hn].
      intros i _. apply Sigma_nonpos. intros j _. apply KL_summand_nonpos. }
    pose proof (Sigma_nonpos_zero Zd
                  (fun k => 1 + at2 logvar n k - at2 mu n k ^ 2
                            - exp (at2 logvar n k))) as Hcol.
    cbv beta in Hcol.
    apply Hcol; [|exact Erow | exact Hk].
    intros i _. apply KL_summand_nonpos. }
  split; apply shape_all_zero; auto; intros n d Hn Hd; apply (Hz n d Hn Hd).
Qed.

Section LossSign.
Context `{Substrate}.

(** X6.  The loss of a forward pass is never negative on images whose
    intensities lie between 0 and 1: the logarithm that the cross entropy
    takes is not positive between 0 and 1, and the expression [KLD] is not
    positive.  The plot of the history starts its vertical axis at 0. *)
Theorem batch_loss_nonnegative (m : VAE) (data : tensor) (g : Rng) :
  VAE_shape m ->
  batch_ok data ->
  Forall (Forall (fun v => 0 <= v <= 1)) data ->
  exists loss : R, batch_loss m data g = Ok loss /\ 0 <= loss.
Proof.
  intros Hs Hd Hrange. unfold batch_loss.
  rewrite (forward_batch m data g Hd).
  rewrite (loss_function_batch m _ data _ _ Hd Hs (sampled_length m data g Hs)).
  eexists. split; [reflexivity|].
  destruct (encode_shape m data Hs) as [Hmu Hlv].
  pose proof (KL_term_nonpos (length data) ZDIMS (fst (encode m data))
                (snd (encode m data))) as HK.
  rewrite <- (KLD_Sigma _ _ _ _ Hmu Hlv) in HK.
  assert (HB : 0 <= bce_sum
                      (decode m (fst (reparameterize m (fst (encode m data))
                                        (snd (encode m data)) g)))
                      data).
  { unfold bce_sum.
    apply (tsum_tmap2_nonneg (fun v => 0 < v < 1) (fun v => 0 <= v <= 1)).
    - intros xh x Hxh Hx.
      pose proof (bce_log_nonpos xh ltac:(lra)).
      pose proof (bce_log_nonpos (1 - xh) ltac:(lra)).
      assert (0 <= x * - bce_log xh)
        by (apply Rmult_le_pos; lra).
      assert (0 <= (1 - x) * - bce_log (1 - xh))
        by (apply Rmult_le_pos; lra).
      lra.
    - apply decode_open_unit.
    - exact Hrange. }
  lra.
Qed.

End LossSign.

Lemma one_row_shape (r : list R) : shape 1 (length r) [r].
Proof. split; [reflexivity | repeat constructor]. Qed.

Lemma KLD_nonpositive_example : KLD [[1; 0]] [[0; 0]] <= 0.
Proof.
  apply (proj1 (KLD_nonpositive 1 2 [[1; 0]] [[0; 0]]
                  (one_row_shape [1; 0]) (one_row_shape [0; 0]))).
Defined.

Lemma black_images_in_range (n : nat) :
  Forall (Forall (fun v => 0 <= v <= 1)) (zeros n 784).
Proof.
  unfold zeros. apply Forall_forall. intros r Hr. apply repeat_spec in Hr.
  subst r. apply Forall_forall. intros v Hv. apply repeat_spec in Hv. lra.
Qed.

Lemma black_batch_ok : batch_ok (zeros 1 784).
Proof. split; [simpl; lia | apply (zeros_shape 1 784)]. Qed.

Lemma batch_loss_nonnegative_example :
  exists loss : R,
    @batch_loss example_substrate (zero_model true) (zeros 1 784) 0%nat
    = Ok loss /\ 0 <= loss.
Proof.
  apply (@batch_loss_nonnegative example_substrate (zero_model true)
           (zeros 1 784) 0%nat (zero_model_shape true) black_batch_ok
           (black_images_in_range 1)).
Defined.

(** ** What the loops keep *)

Section FrameOf.
Context `{Substrate}.
Variable G : Globals.
Context {X : Type} (proj : World -> X) (Q : X -> X -> Prop).
Hypothesis Q_refl : forall x, Q x x.
Hypothesis Q_trans : forall x y z, Q x y -> Q y z -> Q x z.
Hypothesis Q_rng : forall g w, Q (proj w) (proj (set_rng g w)).
Hypothesis Q_tape : forall t w, Q (proj w) (proj (set_tape t w)).
Hypothesis Q_grads : forall g w, Q (proj w) (proj (set_grads g w)).
Hypothesis Q_step : preserves proj Q optimizer_step.
Hypothesis Q_append : forall v, preserves proj Q (train_losses_append v).
Hypothesis Q_log : forall epoch seen total percent loss,
  preserves proj Q (print (TrainLog epoch seen total percent loss)).

Lemma model_call_frame (data : tensor) : preserves proj Q (model_call data).
Proof.
  intros w. unfold model_call.
  destruct (forward (model w) data (rng w)) as [[out | e] g'];
    [|apply Q_rng].
  destruct (grad_enabled w); [|apply Q_rng].
  cbn [snd]. eapply Q_trans; [apply Q_tape | apply Q_rng].
Qed.

Lemma loader_iter_frame (bs : nat) (dataset : list (list R)) :
  preserves proj Q (loader_iter bs dataset).
Proof.
  intros w. unfold loader_iter.
  destruct (randperm (rng w) (length dataset)). apply Q_rng.
Qed.

Lemma loss_backward_frame (graph : option Graph) :
  preserves proj Q (loss_backward graph).
Proof.
  intros w. destruct graph as [[[m d] g]|]; [apply Q_grads | apply Q_refl].
Qed.

Lemma train_batch_frame (epoch i : nat) (data : tensor) (tl : R) :
  preserves proj Q (train_batch G epoch i data tl).
Proof.
  unfold train_batch.
  apply preserves_bind; auto; [intros w; apply Q_grads|].
  intros _.
  apply preserves_bind; auto; [apply model_call_frame|].
  intros [[[recon mu] logvar] graph].
  apply preserves_bind; auto; [apply preserves_lift; auto|].
  intros loss.
  apply preserves_bind; auto; [apply loss_backward_frame|].
  intros _.
  apply preserves_bind; auto; [apply preserves_lift; auto|].
  intros train_loss.
  apply preserves_bind; auto.
  intros _.
  apply preserves_bind; auto.
  intros _.
  apply preserves_bind; auto; [|intros; apply preserves_ret; auto].
  destruct (Z.eqb (args_log_interval G) 0); [apply preserves_raise; auto|].
  destruct (Z.eqb _ 0); [|apply preserves_ret; auto].
  apply preserves_bind; auto; [apply preserves_lift; auto|].
  intros percent.
  apply preserves_bind; auto. apply preserves_lift; auto.
Qed.

Hypothesis Q_print : forall l, preserves proj Q (print l).

(** [train] after [model.train()] *)
Lemma train_loop_frame (epoch : nat) :
  preserves proj Q
    (batches <- loader_iter (args_batch_size G) (train_dataset G) ;;
     train_loss <- for_enumerate (train_batch G epoch) 0 batches 0 ;;
     print (TrainSummary epoch train_loss)).
Proof.
  apply preserves_bind; auto; [apply loader_iter_frame|].
  intros batches.
  apply preserves_bind; auto.
  apply preserves_for_enumerate; auto. apply train_batch_frame.
Qed.

Hypothesis Q_train_mode : preserves proj Q model_train.

Lemma train_frame (epoch : nat) : preserves proj Q (train G epoch).
Proof.
  unfold train. apply preserves_bind; auto.
  intros _. apply train_loop_frame.
Qed.

Hypothesis Q_no_grad : forall (A : Type) (m : M A),
  preserves proj Q m -> preserves proj Q (no_grad m).

Lemma test_batch_frame (i : nat) (data : tensor) (acc : R) :
  preserves proj Q (test_batch G i data acc).
Proof.
  unfold test_batch.
  apply preserves_bind; auto; [apply model_call_frame|].
  intros [[[recon mu] logvar] graph].
  apply preserves_bind; auto; [apply preserves_lift; auto|].
  intros loss.
  apply preserves_bind; auto; [|intros; apply preserves_ret; auto].
  destruct (Nat.eqb i 0); [|apply preserves_ret; auto].
  destruct (Nat.eqb _ _); [apply preserves_ret | apply preserves_raise]; auto.
Qed.

(** [test] after [model.eval()] *)
Lemma test_loop_frame :
  preserves proj Q
    (test_loss <- no_grad
       (batches <- loader_iter (args_batch_size G) (test_dataset G) ;;
        for_enumerate (test_batch G) 0 batches 0) ;;
     test_loss <- lift (py_div test_loss (length (test_dataset G))) ;;
     print (TestSummary test_loss)).
Proof.
  apply preserves_bind; auto.
  - apply Q_no_grad.
    apply preserves_bind; auto; [apply loader_iter_frame|].
    intros batches.
    apply preserves_for_enumerate; auto. apply test_batch_frame.
  - intros acc.
    apply preserves_bind; auto. apply preserves_lift; auto.
Qed.

Hypothesis Q_eval_mode : preserves proj Q model_eval.

Lemma test_frame (epoch : nat) : preserves proj Q (test G epoch).
Proof.
  unfold test. apply preserves_bind; auto.
  intros _. apply test_loop_frame.
Qed.

Lemma generate_frame : preserves proj Q generate.
Proof.
  unfold generate. apply Q_no_grad.
  intros w. destruct (randn 64 20 (rng w)). apply Q_rng.
Qed.

Lemma main_loop_frame (n : nat) :
  forall epoch, preserves proj Q (main_loop G epoch n).
Proof.
  induction n as [|n IH]; intros epoch; simpl.
  - apply preserves_ret; auto.
  - apply preserves_bind; auto; [apply test_frame|].
    intros _.
    apply preserves_bind; auto; [apply train_frame|].
    intros _.
    apply preserves_bind; auto. apply generate_frame.
Qed.

End FrameOf.

Lemma extends_refl {A : Type} (a : list A) : extends a a.
Proof. exists []. symmetry. apply app_nil_r. Qed.

Lemma extends_trans {A : Type} (a b c : list A) :
  extends a b -> extends b c -> extends a c.
Proof.
  intros [l ->] [l' ->]. exists (l ++ l'). symmetry. apply app_assoc.
Qed.

(** Side conditions of the frame lemmas for a part of the state that a step
    leaves as it is. *)
Ltac frame_eq :=
  first [ solve [intros; reflexivity]
        | solve [intros; congruence]
        | solve [intros w0; reflexivity]
        | solve [intros a w0; reflexivity]
        | solve [intros a b c d e w0; reflexivity] ].

Ltac frame_extends :=
  first [ solve [intros; apply extends_refl]
        | solve [intros w0; apply extends_refl]
        | solve [intros a w0; apply extends_refl]
        | solve [intros a b c d e w0; apply extends_refl]
        | solve [apply extends_trans] ].

Section Invariants.
Context `{Substrate}.
Variable G : Globals.

Lemma no_grad_frame {X A : Type} (proj : World -> X) (Q : X -> X -> Prop)
    (m : M A) :
  (forall b w, proj (set_grad_enabled b w) = proj w) ->
  preserves proj Q m -> preserves proj Q (no_grad m).
Proof. intros Hp Hm. apply preserves_no_grad; assumption. Qed.

Lemma optimizer_step_mode :
  preserves (fun w => training (model w)) eq optimizer_step.
Proof.
  intros w. unfold optimizer_step.
  pose proof (adam_step_training (optimizer w) (grads w) (model w)) as Ht.
  destruct (adam_step (optimizer w) (grads w) (model w)) as [m' o'].
  cbn [fst] in Ht. cbn [snd set_optimizer set_model model]. congruence.
Qed.

(** X11.  [train] leaves the model in training mode and [test] leaves it in
    inference mode, whether they return or raise: neither puts back the
    mode it found.  The generation step does not touch the mode. *)
Theorem mode_after_train_and_test (epoch : nat) (w : World) :
  training (model (snd (train G epoch w))) = true /\
  training (model (snd (test G epoch w))) = false /\
  training (model (snd (generate w))) = training (model w).
Proof.
  assert (Hno : forall (A : Type) (m : M A),
             preserves (fun w => training (model w)) eq m ->
             preserves (fun w => training (model w)) eq (no_grad m)).
  { intros A m. apply no_grad_frame. reflexivity. }
  split; [|split].
  - assert (Hl : preserves (fun w => training (model w)) eq
                   (batches <- loader_iter (args_batch_size G)
                                 (train_dataset G) ;;
                    train_loss <- for_enumerate (train_batch G epoch) 0
                                    batches 0 ;;
                    print (TrainSummary epoch train_loss))).
    { apply train_loop_frame; try frame_eq. apply optimizer_step_mode. }
    unfold train, bind at 1, model_train.
    rewrite <- (Hl (set_model (set_training true (model w)) w)).
    reflexivity.
  - assert (Hl : preserves (fun w => training (model w)) eq
                   (test_loss <- no_grad
                      (batches <- loader_iter (args_batch_size G)
                                    (test_dataset G) ;;
                       for_enumerate (test_batch G) 0 batches 0) ;;
                    test_loss <- lift (py_div test_loss
                                         (length (test_dataset G))) ;;
                    print (TestSummary test_loss))).
    { apply test_loop_frame; first [exact Hno | frame_eq]. }
    unfold test, bind at 1, model_eval.
    rewrite <- (Hl (set_model (set_training false (model w)) w)).
    reflexivity.
  - symmetry.
    apply (generate_frame (fun w => training (model w)) eq);
      first [exact Hno | frame_eq].
Qed.

Lemma no_grad_restores {A : Type} (m : M A) :
  preserves grad_enabled eq (no_grad m).
Proof.
  intros w. unfold no_grad.
  destruct (m (set_grad_enabled false w)) as [r w']. reflexivity.
Qed.

Lemma optimizer_step_grad_mode : preserves grad_enabled eq optimizer_step.
Proof.
  intros w. unfold optimizer_step.
  destruct (adam_step (optimizer w) (grads w) (model w)) as [m' o'].
  reflexivity.
Qed.

(** X12.  Gradient tracking is on or off after [test], [train], the generation
    step and the whole loop of [__main__] as it was before, whether they
    return or raise: [torch.no_grad()] puts the setting back when its block
    is left, also by an exception. *)
Theorem grad_mode_restored (epoch : nat) (w : World) :
  grad_enabled (snd (test G epoch w)) = grad_enabled w /\
  grad_enabled (snd (generate w)) = grad_enabled w /\
  grad_enabled (snd (train G epoch w)) = grad_enabled w /\
  grad_enabled (snd (main G w)) = grad_enabled w.
Proof.
  assert (Hno : forall (A : Type) (m : M A),
             preserves grad_enabled eq m ->
             preserves grad_enabled eq (no_grad m)).
  { intros A m _. apply no_grad_restores. }
  split; [|split; [|split]]; symmetry.
  - apply (test_frame G grad_enabled eq); first [exact Hno | frame_eq].
  - apply no_grad_restores.
  - apply (train_frame G grad_enabled eq); try frame_eq.
    apply optimizer_step_grad_mode.
  - unfold main.
    apply (main_loop_frame G grad_enabled eq);
      first [exact Hno | apply optimizer_step_grad_mode | frame_eq].
Qed.

Lemma optimizer_step_train_losses :
  preserves train_losses eq optimizer_step.
Proof.
  intros w. unfold optimizer_step.
  destruct (adam_step (optimizer w) (grads w) (model w)) as [m' o'].
  reflexivity.
Qed.

Lemma optimizer_step_stdout : preserves stdout eq optimizer_step.
Proof.
  intros w. unfold optimizer_step.
  destruct (adam_step (optimizer w) (grads w) (model w)) as [m' o'].
  reflexivity.
Qed.

Lemma eq_extends {X A : Type} (proj : World -> list X) (m : M A) :
  preserves proj eq m -> preserves proj extends m.
Proof. intros Hm w. rewrite <- (Hm w). apply extends_refl. Qed.

(** X13.  The loss history is append-only.  [test] and the generation step leave
    it as it is; [train] and the whole loop of [__main__] keep every entry
    that it holds, in place, and only add entries after them, whether they
    return or raise. *)
Theorem train_losses_append_only (epoch : nat) (w : World) :
  train_losses (snd (test G epoch w)) = train_losses w /\
  train_losses (snd (generate w)) = train_losses w /\
  extends (train_losses w) (train_losses (snd (train G epoch w))) /\
  extends (train_losses w) (train_losses (snd (main G w))).
Proof.
  assert (Hno : forall (Q : list R -> list R -> Prop) (A : Type) (m : M A),
             preserves train_losses Q m ->
             preserves train_losses Q (no_grad m)).
  { intros Q A m. apply no_grad_frame. reflexivity. }
  assert (Happ : forall v, preserves train_losses extends
                             (train_losses_append v)).
  { intros v w0. exists [v]. reflexivity. }
  split; [|split; [|split]].
  - symmetry. apply (test_frame G train_losses eq);
      first [exact (Hno eq) | frame_eq].
  - symmetry. apply (generate_frame train_losses eq);
      first [exact (Hno eq) | frame_eq].
  - apply (train_frame G train_losses extends);
      first [exact Happ | apply eq_extends, optimizer_step_train_losses
            | frame_extends].
  - unfold main.
    apply (main_loop_frame G train_losses extends);
      first [exact Happ | exact (Hno extends)
            | apply eq_extends, optimizer_step_train_losses
            | frame_extends].
Qed.

End Invariants.

(** ** More about the loop of [train] *)

Section MoreTraining.
Context `{Substrate}.
Variable G : Globals.

(** X7.  [train] never uses gradients that it finds: every round of its
    loop starts with [optimizer.zero_grad()].  The result of a round and
    the state that it leaves do not depend on the gradients that the
    parameters held before, and neither do, with at least one batch, those
    of [train]. *)
Theorem train_ignores_stale_gradients (epoch : nat) (g : Grads) (w : World) :
  (forall (i : nat) (data : tensor) (tl : R),
     train_batch G epoch i data tl (set_grads g w)
     = train_batch G epoch i data tl w) /\
  (train_batches G w <> [] ->
   train G epoch (set_grads g w) = train G epoch w).
Proof.
  split; [intros i data tl; reflexivity|].
  unfold train_batches, train, bind, model_train, loader_iter.
  cbn [rng set_model set_grads].
  destruct (randperm (rng w) (length (train_dataset G))) as [perm g'].
  cbn [fst].
  destruct (batches_of (args_batch_size G) (train_dataset G) perm)
    as [|data rest]; [intros Hne; contradiction | intros _].
  cbn [for_enumerate]. unfold bind.
  match goal with
  | |- context [train_batch G epoch 0 data 0
                  (set_rng g' (set_model ?m (set_grads g w)))] =>
      change (train_batch G epoch 0 data 0
                (set_rng g' (set_model m (set_grads g w))))
        with (train_batch G epoch 0 data 0
                (set_rng g' (set_model (set_training true (model w)) w)))
  end.
  reflexivity.
Qed.

Lemma train_batch_unlogged (epoch i : nat) (data : tensor) (tl : R)
    (w : World) :
  batch_ok data ->
  VAE_shape (model w) ->
  grad_enabled w = true ->
  args_log_interval G = 0%Z ->
  exists loss,
    batch_loss (model w) data (rng w) = Ok loss /\
    train_batch G epoch i data tl w
    = (Raise ZeroDivisionError,
       {| model := fst (adam_step (optimizer w)
                          (autograd (model w) data (rng w) zero_grads)
                          (model w));
          grads := autograd (model w) data (rng w) zero_grads;
          optimizer := snd (adam_step (optimizer w)
                              (autograd (model w) data (rng w) zero_grads)
                              (model w));
          rng := snd (forward (model w) data (rng w));
          grad_enabled := true;
          train_losses := train_losses w ++ [loss / INR (length data)];
          stdout := stdout w;
          tape := tape w ++ [(model w, data, rng w)] |}).
Proof.
  intros Hd Hsh Hg Hlog.
  destruct (batch_loss_ok (model w) data (rng w) Hd Hsh) as [loss Hloss].
  exists loss. split; [exact Hloss|].
  unfold batch_loss in Hloss.
  unfold train_batch, bind, optimizer_zero_grad, model_call.
  cbn [model rng grads set_grads grad_enabled].
  destruct (forward (model w) data (rng w)) as [[[[recon mu] logvar]|e] g']
    eqn:Ef; [|discriminate Hloss].
  rewrite Hg. unfold lift. rewrite Hloss.
  unfold loss_backward.
  destruct Hd as [Hn Hrows].
  rewrite !(py_div_pos _ _ Hn).
  unfold optimizer_step, train_losses_append, print, ret, raise.
  unfold set_grads, set_rng, set_tape.
  cbn [model rng grads optimizer grad_enabled train_losses stdout tape].
  destruct (adam_step (optimizer w)
              (autograd (model w) data (rng w) zero_grads) (model w))
    as [m' o'] eqn:Ea.
  unfold set_model, set_optimizer, set_train_losses.
  cbn [model rng grads optimizer grad_enabled train_losses stdout tape
       fst snd].
  rewrite Hlog. cbn [Z.eqb]. rewrite Hg. reflexivity.
Qed.

Lemma batches_nonempty (bs : nat) (dataset : list (list R))
    (perm : list nat) :
  (0 < bs)%nat -> dataset <> [] ->
  Permutation (seq 0 (length dataset)) perm ->
  batches_of bs dataset perm <> [].
Proof.
  intros Hbs Hne Hp E. apply (f_equal (@length tensor)) in E.
  rewrite batches_of_length in E by auto.
  destruct dataset as [|x l]; [contradiction|].
  cbn [length] in E.
  assert (1 <= (S (length l) + bs - 1) / bs)%nat; [|lia].
  apply Nat.div_le_lower_bound; lia.
Qed.

(** X8.  With [--log-interval 0] the first round of the loop of [train] raises
    where it computes [batch_idx % args.log_interval], after the
    optimizer has made its step and the loss of the batch has been
    recorded: one entry is added to the history, the parameters are those
    of one step, and nothing is printed. *)
Theorem train_stops_at_zero_log_interval (epoch : nat) (w : World) :
  (0 < args_batch_size G)%nat ->
  Forall (fun r => length r = 784%nat) (train_dataset G) ->
  train_dataset G <> [] ->
  args_log_interval G = 0%Z ->
  VAE_shape (model w) ->
  grad_enabled w = true ->
  exists (w' : World) (data : tensor) (rest : list tensor) (loss : R),
    train G epoch w = (Raise ZeroDivisionError, w') /\
    train_batches G w = data :: rest /\
    batch_loss (model (train_start G w)) data (rng (train_start G w))
    = Ok loss /\
    train_losses w' = train_losses w ++ [loss / INR (length data)] /\
    model w'
    = fst (adam_step (optimizer w) (grads w') (model (train_start G w))) /\
    stdout w' = stdout w.
Proof.
  intros Hbs Hd Hne Hlog Hsh Hg.
  pose proof (randperm_perm (rng w) (length (train_dataset G))) as Hp.
  pose proof (batches_of_ok _ _ _ Hbs Hd Hp) as Hok.
  pose proof (batches_nonempty _ _ _ Hbs Hne Hp) as Hb.
  unfold train_batches, train_start.
  unfold train, bind at 1, model_train.
  unfold bind at 1, loader_iter. cbn [set_model rng].
  destruct (randperm (rng w) (length (train_dataset G))) as [perm g'] eqn:Er.
  cbn [fst snd] in *.
  destruct (batches_of (args_batch_size G) (train_dataset G) perm)
    as [|data rest]; [contradiction|].
  inversion Hok as [|? ? Hdata _]; subst.
  destruct (train_batch_unlogged epoch 0 data 0
              (set_rng g' (set_model (set_training true (model w)) w))
              Hdata Hsh Hg Hlog) as [loss [Hloss Hrun]].
  unfold bind at 1. cbn [for_enumerate]. unfold bind at 1.
  rewrite Hrun.
  eexists. exists data, rest, loss.
  split; [reflexivity|]. split; [reflexivity|].
  split; [exact Hloss|]. repeat split.
Qed.

(** What [train] prints: lines of progress during its loop, and its summary
    line when the loop has come to its end and not otherwise. *)
Lemma train_batch_logs (epoch i : nat) (data : tensor) (tl : R) :
  preserves stdout
    (fun a b => exists l, b = a ++ l /\ Forall is_train_log l)
    (train_batch G epoch i data tl).
Proof.
  apply (train_batch_frame G stdout
           (fun a b => exists l, b = a ++ l /\ Forall is_train_log l)).
  - intros a. exists []. rewrite app_nil_r. auto.
  - intros a b c [l [-> Hl]] [l' [-> Hl']]. exists (l ++ l').
    rewrite app_assoc. split; [reflexivity | apply Forall_app; auto].
  - intros g w. exists []. rewrite app_nil_r. auto.
  - intros t w. exists []. rewrite app_nil_r. auto.
  - intros g w. exists []. rewrite app_nil_r. auto.
  - intros w. rewrite <- (optimizer_step_stdout w).
    exists []. rewrite app_nil_r. auto.
  - intros v w. exists []. cbn. rewrite app_nil_r. auto.
  - intros e s t p l w. exists [TrainLog e s t p l]. cbn.
    split; [reflexivity | repeat constructor].
Qed.

Lemma train_prints (epoch : nat) (w : World) (r : result unit)
    (w' : World) :
  train G epoch w = (r, w') ->
  exists logs : list line,
    Forall is_train_log logs /\
    match r with
    | Ok _ => exists v : R,
        stdout w' = stdout w ++ logs ++ [TrainSummary epoch v]
    | Raise _ => stdout w' = stdout w ++ logs
    end.
Proof.
  pose proof (fun batches =>
    preserves_for_enumerate stdout
      (fun a b => exists l, b = a ++ l /\ Forall is_train_log l)
      (fun a => ex_intro _ [] (conj (eq_sym (app_nil_r a)) (Forall_nil _)))
      ltac:(intros a b c [l [-> Hl]] [l' [-> Hl']]; exists (l ++ l');
            rewrite app_assoc; split;
            [reflexivity | apply Forall_app; auto])
      (train_batch G epoch) batches (train_batch_logs epoch) 0%nat 0)
    as Hloop.
  unfold train, bind at 1, model_train.
  unfold bind at 1, loader_iter. cbn [set_model rng].
  destruct (randperm (rng w) (length (train_dataset G))) as [perm g'].
  unfold bind.
  specialize (Hloop (batches_of (args_batch_size G) (train_dataset G) perm)
                (set_rng g' (set_model (set_training true (model w)) w))).
  destruct (for_enumerate (train_batch G epoch) 0
              (batches_of (args_batch_size G) (train_dataset G) perm) 0
              (set_rng g' (set_model (set_training true (model w)) w)))
    as [[tl | e] w2]; cbn [snd fst] in Hloop;
    destruct Hloop as [logs [Hs Hl]]; intros E; injection E as <- <-;
    exists logs; (split; [exact Hl|]).
  - exists tl. cbn [set_stdout stdout]. rewrite Hs.
    cbn [set_rng stdout set_model]. rewrite <- app_assoc. reflexivity.
  - rewrite Hs. reflexivity.
Qed.

End MoreTraining.

(** ** More about the evaluation pass *)

Lemma sum_list_perm (l l' : list R) :
  Permutation l l' -> sum_list l = sum_list l'.
Proof.
  induction 1 as [| x l l' _ IH | x y l | l l' l'' _ IH1 _ IH2]; simpl;
    try lra.
Qed.

Lemma sum_list_concat_map (f : tensor -> R) (g : list R -> R)
    (parts : list tensor) :
  (forall b, In b parts -> f b = sum_list (map g b)) ->
  sum_list (map f parts) = sum_list (map g (concat parts)).
Proof.
  induction parts as [|b parts IH]; intros Hf; simpl; [reflexivity|].
  rewrite map_app, sum_list_app, (Hf b) by (left; reflexivity).
  rewrite IH; [reflexivity|]. intros b' Hb'. apply Hf. right. exact Hb'.
Qed.

Lemma encode_app (m : VAE) (a b : tensor) :
  encode m (a ++ b)
  = (fst (encode m a) ++ fst (encode m b),
     snd (encode m a) ++ snd (encode m b)).
Proof.
  unfold encode, relu, linear, tmap. cbn [fst snd].
  rewrite !map_app. reflexivity.
Qed.

Lemma decode_app (m : VAE) (a b : tensor) :
  decode m (a ++ b) = decode m a ++ decode m b.
Proof.
  unfold decode, sigmoid, relu, linear, tmap. rewrite !map_app. reflexivity.
Qed.

Lemma decode_length (m : VAE) (z : tensor) : length (decode m z) = length z.
Proof.
  unfold decode, sigmoid, relu.
  rewrite tmap_length, linear_length, tmap_length, linear_length.
  reflexivity.
Qed.

Lemma encode_length_snd (m : VAE) (x : tensor) :
  length (snd (encode m x)) = length x.
Proof.
  unfold encode, relu. cbn [snd].
  rewrite linear_length, tmap_length, linear_length. reflexivity.
Qed.

Lemma KLD_app (mu mu' logvar logvar' : tensor) :
  length mu = length logvar ->
  KLD (mu ++ mu') (logvar ++ logvar') = KLD mu logvar + KLD mu' logvar'.
Proof.
  intros Hl. unfold KLD, tmap2, tmap, tsum.
  rewrite !map_app.
  rewrite (map2_app (map2 Rminus)) by (rewrite !length_map; congruence).
  rewrite (map2_app (map2 Rminus))
    by (rewrite map2_length, !length_map; rewrite ?length_map; congruence).
  rewrite concat_app, sum_list_app. lra.
Qed.

Section EvaluationLoss.
Context `{Substrate}.

Lemma bce_sum_app (a a' b b' : tensor) :
  length a = length b ->
  bce_sum (a ++ a') (b ++ b') = bce_sum a b + bce_sum a' b'.
Proof.
  intros Hl. unfold bce_sum, tmap2, tsum.
  rewrite map2_app by exact Hl.
  rewrite concat_app, sum_list_app. reflexivity.
Qed.

Lemma eval_loss_value (m : VAE) (data : tensor) :
  VAE_shape m ->
  Forall (fun r => length r = 784%nat) data ->
  eval_loss m data
  = Ok (- (- bce_sum (decode m (fst (encode m data))) data
           + KLD (fst (encode m data)) (snd (encode m data)))).
Proof.
  intros Hs Hd. unfold eval_loss.
  pose proof (encode_length m data) as Hl.
  destruct (encode m data) as [mu logvar]. cbn [fst snd] in *.
  unfold loss_function.
  rewrite (view784_shape (length data) data (conj eq_refl Hd)).
  rewrite (binary_cross_entropy_ok (length data) 784).
  - reflexivity.
  - rewrite <- Hl. apply decode_shape. exact Hs.
  - split; [reflexivity | exact Hd].
  - apply decode_unit_interval.
Qed.

(** The loss of an evaluation pass over examples put together is the sum
    of the losses over the parts: the encoder and the decoder treat every
    row by itself. *)
Lemma eval_loss_app (m : VAE) (a b : tensor) :
  VAE_shape m ->
  Forall (fun r => length r = 784%nat) a ->
  Forall (fun r => length r = 784%nat) b ->
  value 0 (eval_loss m (a ++ b))
  = value 0 (eval_loss m a) + value 0 (eval_loss m b).
Proof.
  intros Hs Ha Hb.
  rewrite (eval_loss_value m (a ++ b) Hs) by (apply Forall_app; auto).
  rewrite (eval_loss_value m a Hs Ha), (eval_loss_value m b Hs Hb).
  cbn [value]. rewrite encode_app. cbn [fst snd].
  rewrite decode_app.
  rewrite bce_sum_app
    by (rewrite decode_length; apply encode_length).
  rewrite KLD_app by (rewrite encode_length, encode_length_snd; reflexivity).
  lra.
Qed.

Lemma eval_loss_nil (m : VAE) : VAE_shape m -> value 0 (eval_loss m []) = 0.
Proof.
  intros Hs. rewrite (eval_loss_value m [] Hs) by constructor.
  cbn [value]. unfold bce_sum, KLD, tsum. simpl. lra.
Qed.

Lemma eval_loss_examples (m : VAE) (data : tensor) :
  VAE_shape m ->
  Forall (fun r => length r = 784%nat) data ->
  value 0 (eval_loss m data) = sum_list (map (example_loss m) data).
Proof.
  intros Hs. induction data as [|x d IH]; intros Hd.
  - apply eval_loss_nil. exact Hs.
  - inversion Hd as [|? ? Hx Hrest]; subst.
    change (x :: d) with ([x] ++ d) at 1.
    rewrite eval_loss_app by (auto; repeat constructor; exact Hx).
    rewrite (IH Hrest). reflexivity.
Qed.

Variable G : Globals.

Lemma test_mean_run (epoch : nat) (w : World) :
  VAE_shape (model w) ->
  (0 < args_batch_size G)%nat ->
  (args_batch_size G <= length (test_dataset G))%nat ->
  Forall (fun r => length r = 784%nat) (test_dataset G) ->
  exists w' : World,
    test G epoch w = (Ok tt, w') /\
    stdout w'
    = stdout w
      ++ [TestSummary
            (sum_list (map (example_loss (model w)) (test_dataset G))
             / INR (length (test_dataset G)))] /\
    model w' = set_training false (model w) /\
    grad_enabled w' = grad_enabled w /\
    train_losses w' = train_losses w.
Proof.
  intros Hs Hbs Hn Hd.
  destruct (test_run G epoch w Hs Hbs Hn Hd) as [losses [HF Hrun]].
  pose proof (randperm_perm (rng w) (length (test_dataset G))) as Hp.
  assert (Hok : Forall batch_ok (test_batches G w)).
  { unfold test_batches. apply batches_of_ok; auto. }
  assert (Hperm : Permutation (test_dataset G) (concat (test_batches G w))).
  { unfold test_batches. apply batches_of_concat; auto. }
  assert (Hl : losses
               = map (fun b => value 0 (eval_loss (model w) b))
                   (test_batches G w)).
  { clear -HF. induction HF as [|b l bs ls E _ IH]; [reflexivity|].
    cbn [map]. rewrite E, IH. reflexivity. }
  assert (Hsum : sum_list losses
                 = sum_list (map (example_loss (model w)) (test_dataset G))).
  { rewrite Hl.
    rewrite (sum_list_concat_map _ (example_loss (model w))).
    - apply sum_list_perm, Permutation_map, Permutation_sym, Hperm.
    - intros b Hb. apply eval_loss_examples; [exact Hs|].
      rewrite Forall_forall in Hok. apply (Hok b Hb). }
  eexists. split; [exact Hrun|].
  cbn [stdout set_stdout]. rewrite Hsum. repeat split.
Qed.

(** X14.  What [test] reports does not depend on the order in which the loader
    visits the held-out set, nor on the size of the batches: it is the sum
    of the losses of the examples of the set, each evaluated by itself,
    divided by their number (in exact arithmetic). *)
Theorem test_loss_is_dataset_mean (epoch : nat) (w : World) :
  VAE_shape (model w) ->
  (0 < args_batch_size G)%nat ->
  (args_batch_size G <= length (test_dataset G))%nat ->
  Forall (fun r => length r = 784%nat) (test_dataset G) ->
  exists w' : World,
    test G epoch w = (Ok tt, w') /\
    stdout w'
    = stdout w
      ++ [TestSummary
            (sum_list (map (example_loss (model w)) (test_dataset G))
             / INR (length (test_dataset G)))].
Proof.
  intros Hs Hbs Hn Hd.
  destruct (test_mean_run epoch w Hs Hbs Hn Hd) as [w' [Hrun [Hout _]]].
  exists w'. split; assumption.
Qed.

(** What [test] prints, whether it returns or raises. *)
Lemma test_prints (epoch : nat) (w : World) (r : result unit) (w' : World) :
  test G epoch w = (r, w') ->
  match r with
  | Ok _ => exists v : R, stdout w' = stdout w ++ [TestSummary v]
  | Raise _ => stdout w' = stdout w
  end.
Proof.
  assert (Hloop : preserves stdout eq
                    (no_grad
                       (batches <- loader_iter (args_batch_size G)
                                     (test_dataset G) ;;
                        for_enumerate (test_batch G) 0 batches 0))).
  { apply preserves_no_grad; [reflexivity|].
    apply preserves_bind; try congruence.
    - apply loader_iter_frame; frame_eq.
    - intros batches. apply preserves_for_enumerate; try congruence.
      intros i a s. apply test_batch_frame; frame_eq. }
  unfold test, bind at 1, model_eval. unfold bind at 1.
  specialize (Hloop (set_model (set_training false (model w)) w)).
  destruct (no_grad
              (batches <- loader_iter (args_batch_size G) (test_dataset G) ;;
               for_enumerate (test_batch G) 0 batches 0)
              (set_model (set_training false (model w)) w))
    as [[acc | e] w2]; cbn [snd] in Hloop.
  - unfold bind, lift.
    destruct (py_div acc (length (test_dataset G))) as [v | e];
      intros E; injection E as <- <-.
    + exists v. cbn [print set_stdout stdout snd]. rewrite <- Hloop.
      reflexivity.
    + rewrite <- Hloop. reflexivity.
  - intros E; injection E as <- <-. rewrite <- Hloop. reflexivity.
Qed.

End EvaluationLoss.

(** ** The whole run *)

Lemma summary_epochs_app (a b : list line) :
  summary_epochs (a ++ b) = summary_epochs a ++ summary_epochs b.
Proof. unfold summary_epochs. apply flat_map_app. Qed.

Lemma test_reports_app (a b : list line) :
  test_reports (a ++ b) = test_reports a ++ test_reports b.
Proof. unfold test_reports. apply flat_map_app. Qed.

Lemma train_logs_no_summary (logs : list line) :
  Forall is_train_log logs ->
  summary_epochs logs = [] /\ test_reports logs = [].
Proof.
  induction 1 as [|l logs Hl _ [IH1 IH2]]; [split; reflexivity|].
  destruct l; try contradiction. cbn. auto.
Qed.

Section WholeRun.
Context `{Substrate}.
Variable G : Globals.

Lemma generate_run (w : World) :
  exists (sample : tensor) (g' : Rng),
    generate w = (Ok sample, set_rng g' w).
Proof.
  unfold generate, no_grad. cbn [set_grad_enabled rng model].
  destruct (randn 64 20 (rng w)) as [sample g'].
  exists (decode (model w) sample), g'. reflexivity.
Qed.

Hypothesis batch_size_pos : (0 < args_batch_size G)%nat.
Hypothesis train_images :
  Forall (fun r => length r = 784%nat) (train_dataset G).
Hypothesis test_images :
  Forall (fun r => length r = 784%nat) (test_dataset G).
Hypothesis test_fills_a_batch :
  (args_batch_size G <= length (test_dataset G))%nat.
Hypothesis log_interval_nonzero : args_log_interval G <> 0%Z.

Lemma main_loop_run (n : nat) :
  forall (epoch : nat) (w : World),
    VAE_shape (model w) ->
    grad_enabled w = true ->
    exists (w' : World) (out : list line),
      main_loop G epoch n w = (Ok tt, w') /\
      stdout w' = stdout w ++ out /\
      summary_epochs out = seq epoch n /\
      length (test_reports out) = n /\
      length (train_losses w')
      = (length (train_losses w)
         + n * len_loader (args_batch_size G) (train_dataset G))%nat /\
      ((0 < n)%nat ->
       exists rest : list line,
         out = TestSummary
                 (sum_list (map (example_loss (model w)) (test_dataset G))
                  / INR (length (test_dataset G))) :: rest).
Proof.
  induction n as [|n IH]; intros epoch w Hsh Hg.
  - exists w, []. cbn [main_loop]. unfold ret.
    rewrite app_nil_r. repeat split; try reflexivity; try lia.
  - destruct (test_mean_run G epoch w Hsh batch_size_pos test_fills_a_batch
                test_images) as [w1 [Ht [Hs1 [Hm1 [Hg1 Hl1]]]]].
    assert (Hsh1 : VAE_shape (model w1)) by (rewrite Hm1; exact Hsh).
    assert (Hge1 : grad_enabled w1 = true) by congruence.
    destruct (train_run G epoch w1 batch_size_pos train_images
                log_interval_nonzero Hsh1 Hge1)
      as [w2 [logs0 [Hr [Hl2 [_ [Hg2 Hsh2]]]]]].
    destruct (train_prints G epoch w1 _ _ Hr) as [logs [Hlogs [v Hs2]]].
    destruct (generate_run w2) as [sample [g' Hgen]].
    destruct (IH (S epoch) (set_rng g' w2) Hsh2 Hg2)
      as [w' [out [Hrun [Hs' [Hse [Htr [Hlen _]]]]]]].
    exists w'.
    exists (TestSummary
              (sum_list (map (example_loss (model w)) (test_dataset G))
               / INR (length (test_dataset G)))
            :: logs ++ [TrainSummary epoch v] ++ out).
    destruct (train_logs_no_summary logs Hlogs) as [Hn1 Hn2].
    split; [|split; [|split; [|split; [|split]]]].
    + cbn [main_loop]. unfold bind at 1. rewrite Ht.
      unfold bind at 1. rewrite Hr.
      unfold bind at 1. rewrite Hgen. exact Hrun.
    + rewrite Hs'. cbn [set_rng stdout]. rewrite Hs2, Hs1.
      rewrite <- !app_assoc. reflexivity.
    + change (TestSummary ?x :: ?l) with ([TestSummary x] ++ l).
      rewrite !summary_epochs_app, Hn1, Hse. reflexivity.
    + change (TestSummary ?x :: ?l) with ([TestSummary x] ++ l).
      rewrite !test_reports_app, Hn2, !length_app, Htr. reflexivity.
    + rewrite Hlen. cbn [set_rng train_losses]. rewrite Hl2, length_app.
      unfold entries_of_epoch. rewrite entries_from_length.
      unfold train_batches.
      rewrite <- (len_loader_batches _ _ _ batch_size_pos
                    (randperm_perm (rng w1) (length (train_dataset G)))).
      rewrite Hl1. lia.
    + intros _. eexists. reflexivity.
Qed.

End WholeRun.

Section WholeRunProperties.
Context `{Substrate}.
Variable G : Globals.

Lemma initial_world_output : stdout (initial_world G) = [].
Proof.
  unfold initial_world.
  destruct (init_parameters (manual_seed (args_seed G))) as [m g'].
  reflexivity.
Qed.

(** X16.  With a positive batch size, images of 784 values, a held-out set
    that fills at least one batch and a logging interval other than 0, no
    view, division or forward pass of the run raises: every one of the
    [args.epochs] rounds of the loop of [__main__] evaluates, trains and
    generates (plots and image files are not part of the embedding).  The
    history then holds one entry per batch and epoch, and the summary
    lines of [train] are those of the epochs 1, 2, ... in order, with one
    report of [test] for each. *)
Theorem main_runs_all_epochs :
  (0 < args_batch_size G)%nat ->
  Forall (fun r => length r = 784%nat) (train_dataset G) ->
  Forall (fun r => length r = 784%nat) (test_dataset G) ->
  (args_batch_size G <= length (test_dataset G))%nat ->
  args_log_interval G <> 0%Z ->
  exists w' : World,
    main G (initial_world G) = (Ok tt, w') /\
    length (train_losses w')
    = (args_epochs G
       * len_loader (args_batch_size G) (train_dataset G))%nat /\
    summary_epochs (stdout w') = seq 1 (args_epochs G) /\
    length (test_reports (stdout w')) = args_epochs G.
Proof.
  intros Hbs Htr Hte Hn Hlog.
  destruct (initial_world_ready G) as [Hsh [_ [Hg Hl]]].
  destruct (main_loop_run G Hbs Htr Hte Hn Hlog (args_epochs G) 1
              (initial_world G) Hsh Hg)
    as [w' [out [Hrun [Hs [Hse [Htest [Hlen _]]]]]]].
  exists w'. unfold main.
  rewrite initial_world_output in Hs. cbn [app] in Hs.
  rewrite Hl in Hlen. cbn [length] in Hlen.
  rewrite Hs. repeat split; assumption.
Qed.

(** X17.  The loop of [__main__] calls [test] before [train]: the first
    line that the program prints is the loss of the model as [VAE()] has
    initialised it, over the held-out set. *)
Theorem first_report_is_of_initial_model :
  (0 < args_batch_size G)%nat ->
  Forall (fun r => length r = 784%nat) (train_dataset G) ->
  Forall (fun r => length r = 784%nat) (test_dataset G) ->
  (args_batch_size G <= length (test_dataset G))%nat ->
  args_log_interval G <> 0%Z ->
  (0 < args_epochs G)%nat ->
  exists (w' : World) (rest : list line),
    main G (initial_world G) = (Ok tt, w') /\
    stdout w'
    = TestSummary
        (sum_list (map (example_loss (model (initial_world G)))
                     (test_dataset G))
         / INR (length (test_dataset G))) :: rest.
Proof.
  intros Hbs Htr Hte Hn Hlog He.
  destruct (initial_world_ready G) as [Hsh [_ [Hg Hl]]].
  destruct (main_loop_run G Hbs Htr Hte Hn Hlog (args_epochs G) 1
              (initial_world G) Hsh Hg)
    as [w' [out [Hrun [Hs [_ [_ [_ Hfirst]]]]]]].
  destruct (Hfirst He) as [rest ->].
  exists w', rest. unfold main. split; [exact Hrun|].
  rewrite Hs, initial_world_output. reflexivity.
Qed.

(** X10.  [train] prints its summary line, and [test] its report, when they
    return and not when they raise.  Before its summary, [train] prints
    lines of progress only; [test] prints nothing but its report. *)
Theorem summaries_are_printed_on_return (epoch : nat) (w : World) :
  (exists logs : list line,
     Forall is_train_log logs /\
     match fst (train G epoch w) with
     | Ok _ => exists v : R,
         stdout (snd (train G epoch w))
         = stdout w ++ logs ++ [TrainSummary epoch v]
     | Raise _ => stdout (snd (train G epoch w)) = stdout w ++ logs
     end)
  /\
  match fst (test G epoch w) with
  | Ok _ => exists v : R,
      stdout (snd (test G epoch w)) = stdout w ++ [TestSummary v]
  | Raise _ => stdout (snd (test G epoch w)) = stdout w
  end.
Proof.
  split.
  - destruct (train G epoch w) as [r w'] eqn:E.
    apply (train_prints G epoch w r w' E).
  - destruct (test G epoch w) as [r w'] eqn:E.
    apply (test_prints G epoch w r w' E).
Qed.

End WholeRunProperties.

Lemma example_test_rows :
  Forall (fun r => length r = 784%nat) (test_dataset example_globals).
Proof. apply (zeros_shape 16 784). Qed.

Lemma example_epochs : (0 < args_epochs example_globals)%nat.
Proof. simpl. lia. Qed.

Lemma main_runs_example :
  exists w' : @World example_substrate,
    @main example_substrate example_globals
      (@initial_world example_substrate example_globals)
    = (Ok tt, w') /\
    length (@train_losses example_substrate w') = 8%nat /\
    summary_epochs (@stdout example_substrate w') = [1; 2]%nat.
Proof.
  destruct (@main_runs_all_epochs example_substrate example_globals
              example_batch_size example_dataset_rows example_test_rows
              example_test_size example_log_interval)
    as [w' [Hrun [Hlen [Hse _]]]].
  exists w'. split; [exact Hrun|]. split; [exact Hlen | exact Hse].
Defined.

Lemma first_report_example :
  exists (w' : @World example_substrate) (rest : list line),
    @main example_substrate example_globals
      (@initial_world example_substrate example_globals)
    = (Ok tt, w') /\
    @stdout example_substrate w'
    = TestSummary
        (sum_list (map (example_loss (zero_model true))
                     (zeros 16 784))
         / INR 16) :: rest.
Proof.
  apply (@first_report_is_of_initial_model example_substrate example_globals
           example_batch_size example_dataset_rows example_test_rows
           example_test_size example_log_interval example_epochs).
Defined.

(** ** The pictures of the hidden units *)

Lemma show_feature_row (a : list (list R)) (x y count : nat)
    (shown : list (nat * nat * list (list R))) :
  shape 400 784 a ->
  (count + 1 < 400)%nat ->
  show_feature a x y (count, shown)
  = inr ((count + 1)%nat,
         shown ++ [(x, y, chunks 28 (nth (count + 1) a []))]).
Proof.
  intros Ha Hc. unfold show_feature, index_row. cbn [fst snd].
  pose proof Ha as [Hlen _].
  rewrite (nth_error_nth' a []) by (rewrite Hlen; exact Hc).
  unfold view28. rewrite (shape_nth 400 784 a _ Ha Hc), Nat.eqb_refl.
  reflexivity.
Qed.

(** X18.  For a model of the shapes of [VAE()] the grid of pictures never
    raises.  Its 16 axes show, row by row, the weight rows 1 to 16 of the
    first layer, each as 28 rows of 28 values in the order of the weights:
    the counter is incremented before it is used, so that the weights of
    the hidden unit 0 are never shown. *)
Theorem feature_plots_rows (self : VAE) :
  VAE_shape self ->
  feature_plots self
  = inr (map (fun p => ((p / 4)%nat, (p mod 4)%nat,
                        chunks 28 (nth (p + 1) (weight (fc1 self)) [])))
           (seq 0 16))
  /\
  (forall p : nat, (p < 16)%nat ->
     shape 28 28 (chunks 28 (nth (p + 1) (weight (fc1 self)) [])) /\
     concat (chunks 28 (nth (p + 1) (weight (fc1 self)) []))
     = nth (p + 1) (weight (fc1 self)) []).
Proof.
  intros [[Ha _] _]. split.
  - unfold feature_plots. cbn [seq].
    repeat (cbn [for_range]; rewrite (show_feature_row _ _ _ _ _ Ha) by lia).
    cbn [for_range snd app]. reflexivity.
  - intros p Hp.
    assert (Hl : length (nth (p + 1) (weight (fc1 self)) []) = 784%nat)
      by (apply (shape_nth 400 784 _ _ Ha); lia).
    unfold chunks. split.
    + apply chunks_fuel_exact; [lia | rewrite Hl; reflexivity | lia].
    + apply chunks_fuel_concat_inv; lia.
Qed.

Lemma feature_plots_example :
  feature_plots (zero_model true)
  = inr (map (fun p => ((p / 4)%nat, (p mod 4)%nat,
                        chunks 28 (nth (p + 1)
                                     (weight (fc1 (zero_model true))) [])))
           (seq 0 16)).
Proof.
  apply (proj1 (feature_plots_rows (zero_model true)
                  (zero_model_shape true))).
Defined.

(** ** Runs that stop early, on the example data *)

Lemma unlogged_train_set : train_dataset unlogged_globals <> [].
Proof. discriminate. Qed.

Lemma train_stops_example :
  exists w' : @World example_substrate,
    @train example_substrate unlogged_globals 1
      (@initial_world example_substrate unlogged_globals)
    = (Raise ZeroDivisionError, w') /\
    length (@train_losses example_substrate w') = 1%nat /\
    @stdout example_substrate w' = [].
Proof.
  destruct (@train_stops_at_zero_log_interval example_substrate
              unlogged_globals 1
              (@initial_world example_substrate unlogged_globals)
              example_batch_size example_dataset_rows unlogged_train_set
              eq_refl (zero_model_shape true) eq_refl)
    as [w' [data [rest [loss [Hrun [_ [_ [Hl [_ Hs]]]]]]]]].
  exists w'. split; [exact Hrun|]. split; [|exact Hs].
  rewrite Hl. reflexivity.
Defined.

Lemma test_raises_example :
  exists w' : @World example_substrate,
    @test example_substrate short_globals 1
      (@initial_world example_substrate short_globals)
    = (Raise RuntimeError, w') /\
    @stdout example_substrate w' = [].
Proof.
  apply (@test_raises_on_short_set example_substrate short_globals 1
           (@initial_world example_substrate short_globals)
           (zero_model_shape true) short_test_set short_test_rows).
Defined.

Lemma test_loss_mean_example :
  exists w' : @World example_substrate,
    @test example_substrate example_globals 1 example_world = (Ok tt, w') /\
    @stdout example_substrate w'
    = [TestSummary
         (sum_list (map (example_loss (zero_model true))
                      (zeros 16 784))
          / INR 16)].
Proof.
  apply (@test_loss_is_dataset_mean example_substrate example_globals 1
           example_world (zero_model_shape true) example_batch_size
           example_test_size example_test_rows).
Defined.

(** ** The lines of progress *)

Section ProgressLines.
Context `{Substrate}.
Variable G : Globals.

Lemma train_loop_lines (epoch : nat) (batches : list tensor) :
  forall (i : nat) (tl : R) (w : World),
    Forall batch_ok batches ->
    VAE_shape (model w) ->
    grad_enabled w = true ->
    args_log_interval G <> 0%Z ->
    (batches <> [] ->
     (0 < len_loader (args_batch_size G) (train_dataset G))%nat) ->
    exists w' : World,
      for_enumerate (train_batch G epoch) i batches tl w
      = (Ok (last (entries_from G epoch i batches w) tl), w') /\
      train_losses w' = train_losses w ++ entries_from G epoch i batches w /\
      stdout w'
      = stdout w
        ++ progress_lines G epoch i batches
             (entries_from G epoch i batches w).
Proof.
  induction batches as [|data rest IH]; intros i tl w Hb Hsh Hg Hlog Hlen.
  - exists w. simpl. rewrite !app_nil_r. auto.
  - inversion Hb as [|? ? Hd Hrest]; subst.
    assert (Hlen' : (0 < len_loader (args_batch_size G) (train_dataset G))%nat)
      by (apply Hlen; discriminate).
    destruct (train_batch_run G epoch i data tl w Hd Hsh Hg Hlog Hlen')
      as [loss [Hloss Hrun]].
    cbn [for_enumerate]. unfold bind at 1. rewrite Hrun.
    match goal with |- context [for_enumerate _ _ _ _ ?w1] =>
      destruct (IH (S i) (loss / INR (length data)) w1 Hrest
                  (adam_step_shape _ _ _ Hsh) eq_refl Hlog
                  (fun _ => Hlen'))
        as [w' [Hfor [Hl Hs]]] end.
    exists w'.
    assert (Hw : snd (train_batch G epoch i data 0 w)
                 = snd (train_batch G epoch i data tl w)) by reflexivity.
    unfold entries_from in *. cbn [worlds_of_epoch map2 progress_lines].
    rewrite Hw, Hrun. cbn [snd].
    assert (He : entry data w = loss / INR (length data)).
    { unfold entry. rewrite Hloss. reflexivity. }
    rewrite He, Hfor, Hl, Hs. cbn [train_losses stdout].
    rewrite <- !app_assoc. cbn [app].
    split; [|split]; auto.
    f_equal. f_equal. symmetry. apply last_cons_default.
Qed.

Lemma progress_lines_length (epoch : nat) (batches : list tensor) :
  forall (i : nat) (entries : list R),
    length entries = length batches ->
    length (progress_lines G epoch i batches entries)
    = length (filter (fun k => Z.eqb (Z.of_nat k mod args_log_interval G) 0)
                (seq i (length batches))).
Proof.
  induction batches as [|data rest IH]; intros i [|v vs] E;
    try discriminate E; [reflexivity|].
  cbn [progress_lines length seq filter]. rewrite length_app.
  rewrite (IH (S i) vs) by (cbn [length] in E; lia).
  destruct (Z.eqb (Z.of_nat i mod args_log_interval G) 0); reflexivity.
Qed.

(** X9.  The lines that an epoch of [train] prints before its summary are those
    of the batches whose index is a multiple of the logging interval, in
    order, and of no other batch.  Each shows the index times the size of
    its batch, the size of the data set, the index as a percentage of the
    number of batches, and the loss per example of its batch, which is the
    entry that the history records for that batch. *)
Theorem train_progress_lines (epoch : nat) (w : World) :
  (0 < args_batch_size G)%nat ->
  Forall (fun r => length r = 784%nat) (train_dataset G) ->
  args_log_interval G <> 0%Z ->
  VAE_shape (model w) ->
  grad_enabled w = true ->
  exists (w' : World) (entries : list R),
    train G epoch w = (Ok tt, w') /\
    train_losses w' = train_losses w ++ entries /\
    length entries = length (train_batches G w) /\
    stdout w'
    = stdout w
      ++ progress_lines G epoch 0 (train_batches G w) entries
      ++ [TrainSummary epoch (last entries 0)] /\
    length (progress_lines G epoch 0 (train_batches G w) entries)
    = length (logged_indices G (length (train_batches G w))).
Proof.
  intros Hbs Hd Hlog Hsh Hg.
  pose proof (randperm_perm (rng w) (length (train_dataset G))) as Hp.
  exists (snd (train G epoch w)),
    (entries_of_epoch G epoch (train_batches G w) (train_start G w)).
  assert (Hlen : length (entries_of_epoch G epoch (train_batches G w)
                           (train_start G w))
                 = length (train_batches G w))
    by apply entries_from_length.
  assert (Hrun : train G epoch w
                 = (Ok tt,
                    set_stdout
                      (stdout w
                       ++ progress_lines G epoch 0 (train_batches G w)
                            (entries_of_epoch G epoch (train_batches G w)
                               (train_start G w))
                       ++ [TrainSummary epoch
                             (last (entries_of_epoch G epoch
                                      (train_batches G w)
                                      (train_start G w)) 0)])
                      (snd (for_enumerate (train_batch G epoch) 0
                              (train_batches G w) 0 (train_start G w)))) /\
                 train_losses
                   (snd (for_enumerate (train_batch G epoch) 0
                           (train_batches G w) 0 (train_start G w)))
                 = train_losses w
                   ++ entries_of_epoch G epoch (train_batches G w)
                        (train_start G w)).
  { unfold train, bind at 1, model_train.
    unfold bind at 1, loader_iter. cbn [set_model rng].
    unfold entries_of_epoch, train_batches, train_start.
    destruct (randperm (rng w) (length (train_dataset G)))
      as [perm g'] eqn:Er.
    cbn [fst snd] in *.
    destruct (train_loop_lines epoch
                (batches_of (args_batch_size G) (train_dataset G) perm)
                0 0 (set_rng g' (set_model (set_training true (model w)) w)))
      as [w' [Hfor [Hl Hs]]].
    - apply batches_of_ok; auto.
    - exact Hsh.
    - exact Hg.
    - exact Hlog.
    - intros Hne. rewrite (len_loader_batches _ _ perm Hbs Hp).
      destruct (batches_of (args_batch_size G) (train_dataset G) perm);
        [contradiction | simpl; lia].
    - unfold bind. rewrite Hfor. cbn [snd]. unfold print.
      rewrite Hs, Hl. cbn [set_rng set_model stdout train_losses].
      rewrite <- app_assoc. split; reflexivity. }
  destruct Hrun as [Hrun Hl]. rewrite Hrun. cbn [snd].
  split; [reflexivity|]. split; [exact Hl|]. split; [exact Hlen|].
  split; [reflexivity|].
  unfold logged_indices. apply progress_lines_length. exact Hlen.
Qed.

End ProgressLines.

Lemma train_progress_example :
  exists (w' : @World example_substrate) (entries : list R),
    @train example_substrate example_globals 1 example_world = (Ok tt, w') /\
    length (@progress_lines example_globals 1 0
              (@train_batches example_substrate example_globals
                 example_world) entries)
    = 1%nat.
Proof.
  destruct (@train_progress_lines example_substrate example_globals 1
              example_world example_batch_size example_dataset_rows
              example_log_interval (zero_model_shape true) eq_refl)
    as [w' [entries [Hrun [_ [_ [_ Hn]]]]]].
  exists w', entries. split; [exact Hrun|].
  rewrite Hn, (train_batches_length example_globals example_world
                 example_batch_size).
  reflexivity.
Defined.

(** ** The picture of inputs and reconstructions *)

Lemma reconstruction_row (m : VAE) (data : tensor) (k : nat) :
  (k < length data)%nat ->
  [nth k (decode m (fst (encode m data))) []]
  = decode m (fst (encode m [nth k data []])).
Proof.
  intros Hk. unfold decode, encode, sigmoid, relu, linear, tmap.
  cbn [fst map]. rewrite !map_map. f_equal.
  match goal with |- nth k (map ?F data) [] = _ =>
    rewrite (nth_indep (map F data) [] (F []))
      by (rewrite length_map; exact Hk);
    rewrite (map_nth F data [] k)
  end.
  reflexivity.
Qed.

(** X19.  The picture that [test] makes of its first batch.  When the batch
    holds [args.batch_size] images, the picture holds the first
    [min(args.batch_size, 8)] inputs of the batch and after them as many
    reconstructions, in the same order: each is the reconstruction of the
    input at its place, as the model reconstructs that image by itself.
    When the batch holds another number of images, viewing the
    reconstructions as [args.batch_size] images raises. *)
Theorem comparison_pairs (m : VAE) (data : tensor) (batch_size : nat) :
  VAE_shape m ->
  batch_ok data ->
  (length data = batch_size ->
   exists c : tensor,
     comparison batch_size data (decode m (fst (encode m data))) = Ok c /\
     length c = (2 * Nat.min batch_size 8)%nat /\
     forall k : nat, (k < Nat.min batch_size 8)%nat ->
       nth k c [] = nth k data [] /\
       [nth (Nat.min batch_size 8 + k) c []]
       = decode m (fst (encode m [nth k data []])))
  /\
  (length data <> batch_size ->
   comparison batch_size data (decode m (fst (encode m data)))
   = Raise RuntimeError).
Proof.
  intros Hs [Hpos Hrows].
  pose proof (decode_shape m (fst (encode m data)) Hs) as Hr.
  rewrite encode_length in Hr.
  pose proof (concat_length_shape _ _ _ Hr) as Hc.
  unfold comparison, view_images. rewrite Hc. split.
  - intros Hn. rewrite Hn, Nat.eqb_refl.
    assert (Hv : chunks 784 (concat (decode m (fst (encode m data))))
                 = decode m (fst (encode m data))).
    { unfold chunks. destruct Hr as [Hr1 Hr2].
      apply chunks_fuel_concat; [lia | exact Hr2 | rewrite Hc, Hr1; lia]. }
    rewrite Hv. eexists. split; [reflexivity|].
    destruct Hr as [Hr1 Hr2].
    assert (Hl1 : length (firstn (Nat.min batch_size 8) data)
                  = Nat.min batch_size 8)
      by (apply firstn_length_le; lia).
    assert (Hl2 : length (firstn (Nat.min batch_size 8)
                            (decode m (fst (encode m data))))
                  = Nat.min batch_size 8)
      by (apply firstn_length_le; lia).
    split; [rewrite length_app, Hl1, Hl2; lia|].
    intros k Hk. split.
    + rewrite app_nth1 by (rewrite Hl1; exact Hk).
      rewrite nth_firstn.
      destruct (Nat.ltb_spec k (Nat.min batch_size 8)); [reflexivity | lia].
    + rewrite app_nth2 by (rewrite Hl1; lia).
      rewrite Hl1.
      replace (Nat.min batch_size 8 + k - Nat.min batch_size 8)%nat
        with k by lia.
      rewrite nth_firstn.
      destruct (Nat.ltb_spec k (Nat.min batch_size 8)); [|lia].
      apply reconstruction_row. lia.
  - intros Hn.
    destruct (Nat.eqb_spec (length data * 784) (batch_size * 784))
      as [E | _]; [lia | reflexivity].
Qed.

Lemma comparison_pairs_example :
  exists c : tensor,
    comparison 1 (zeros 1 784)
      (decode (zero_model false)
         (fst (encode (zero_model false) (zeros 1 784))))
    = Ok c /\
    length c = 2%nat.
Proof.
  destruct (proj1 (comparison_pairs (zero_model false) (zeros 1 784) 1
                     (zero_model_shape false) black_batch_ok) eq_refl)
    as [c [Hc [Hl _]]].
  exists c. split; [exact Hc | exact Hl].
Defined.
